(** * MinuteMate: the summary formatter of the extension's offscreen page

    A shallow embedding of [formatSummary] (src/extension/offscreen.js,
    lines 126-183) together with the part of JavaScript it runs on: strings
    as sequences of UTF-16 code units, the [String.prototype] methods it
    calls, and a backtracking regular-expression matcher in the
    continuation-passing style of ECMA-262 (clause 22.2.2); then the
    code of the popup that calls it, over a model of the elements it
    reads and writes. *)

From Stdlib Require Import String Ascii.
From Stdlib Require Import List NArith ZArith Lia Bool PeanoNat.
Import ListNotations.

Set Implicit Arguments.

(* ================================================================== *)
(** ** JavaScript strings *)

Module JS.

(** A JavaScript string is a sequence of 16-bit code units. *)
Definition char := N.
Definition jsstring := list char.

Fixpoint str (s : string) : jsstring :=
  match s with
  | EmptyString => []
  | String a r => N_of_ascii a :: str r
  end.

Definition nl : char := 10%N.          (* \n *)
Definition space : char := 32%N.
Definition hash : char := 35%N.        (* # *)
Definition dollar : char := 36%N.      (* $ *)
Definition amp : char := 38%N.         (* & *)
Definition quote : char := 39%N.       (* ' *)
Definition star : char := 42%N.        (* * *)
Definition dash : char := 45%N.        (* - *)
Definition dot : char := 46%N.         (* . *)
Definition backtick : char := 96%N.    (* ` *)
Definition pipe : char := 124%N.       (* | *)
Definition bullet : char := 8226%N.    (* U+2022, one code unit *)

(** LineTerminator: LF, CR, LS, PS. *)
Definition is_line_terminator (c : char) : bool :=
  ((c =? 10) || (c =? 13) || (c =? 8232) || (c =? 8233))%N.

(** WhiteSpace and LineTerminator code units: what [\s] matches and what
    [trim] strips. *)
Definition is_space (c : char) : bool :=
  (((9 <=? c) && (c <=? 13)) || (c =? 32) || (c =? 160) || (c =? 5760)
   || ((8192 <=? c) && (c <=? 8202)) || (c =? 8232) || (c =? 8233)
   || (c =? 8239) || (c =? 8287) || (c =? 12288) || (c =? 65279))%N.

Definition is_digit (c : char) : bool := ((48 <=? c) && (c <=? 57))%N.

Definition is_empty (s : jsstring) : bool :=
  match s with [] => true | _ => false end.

(** [Boolean(s)] for a string: the empty string is the only falsy one. *)
Definition truthy (s : jsstring) : bool := negb (is_empty s).

Fixpoint starts_with (p s : jsstring) : bool :=
  match p, s with
  | [], _ => true
  | _ :: _, [] => false
  | a :: p', b :: s' => (a =? b)%N && starts_with p' s'
  end.

(** [s.includes(sub)] *)
Fixpoint includes (sub s : jsstring) : bool :=
  starts_with sub s ||
  match s with
  | [] => false
  | _ :: s' => includes sub s'
  end.

(** [s.indexOf(sub)], [None] standing for -1. *)
Fixpoint index_of (sub s : jsstring) : option nat :=
  if starts_with sub s then Some 0
  else match s with
       | [] => None
       | _ :: s' => option_map S (index_of sub s')
       end.

Fixpoint drop_while (f : char -> bool) (s : jsstring) : jsstring :=
  match s with
  | [] => []
  | c :: s' => if f c then drop_while f s' else s
  end.

Definition trim_start (s : jsstring) : jsstring := drop_while is_space s.
Definition trim_end (s : jsstring) : jsstring := rev (drop_while is_space (rev s)).
(** [s.trim()] *)
Definition trim (s : jsstring) : jsstring := trim_end (trim_start s).

(** [s.split(sep)] for a separator of one code unit: never an empty array. *)
Fixpoint split (sep : char) (s : jsstring) : list jsstring :=
  match s with
  | [] => [[]]
  | c :: s' =>
    if (c =? sep)%N then [] :: split sep s'
    else match split sep s' with
         | [] => [[c]]
         | piece :: pieces => (c :: piece) :: pieces
         end
  end.

(** [xs.findIndex(f)], an integer, -1 when no element passes. *)
Fixpoint findIndex (A : Type) (f : A -> bool) (xs : list A) : Z :=
  match xs with
  | [] => (-1)%Z
  | x :: xs' =>
    if f x then 0%Z
    else let i := findIndex f xs' in
         if (i <? 0)%Z then (-1)%Z else (i + 1)%Z
  end.

(** GetSubstitution (ECMA-262 22.1.3.19.1) for a replacement template used
    with a string pattern: there are no captures, so of the dollar forms
    only [$$], [$&], [$`] and [$'] are expanded; a dollar before a digit or
    before [<] stays as it is. *)
Fixpoint get_substitution (matched before after template : jsstring) : jsstring :=
  match template with
  | [] => []
  | c :: t =>
    if (c =? dollar)%N then
      match t with
      | [] => [dollar]
      | c2 :: t2 =>
        if (c2 =? dollar)%N then dollar :: get_substitution matched before after t2
        else if (c2 =? amp)%N then matched ++ get_substitution matched before after t2
        else if (c2 =? backtick)%N then before ++ get_substitution matched before after t2
        else if (c2 =? quote)%N then after ++ get_substitution matched before after t2
        else dollar :: get_substitution matched before after t
      end
    else c :: get_substitution matched before after t
  end.

(** [s.replace(pattern, replacement)] with a string pattern: the first
    occurrence only. *)
Definition replace_string (pattern replacement s : jsstring) : jsstring :=
  match index_of pattern s with
  | None => s
  | Some pos =>
    let before := firstn pos s in
    let after := skipn (pos + length pattern) s in
    before ++ get_substitution pattern before after replacement ++ after
  end.

End JS.
Import JS.

(* ================================================================== *)
(** ** Regular expressions *)

Module Regex.

Inductive cclass :=
| CChar (c : char)            (* a literal code unit *)
| CSpace                      (* \s *)
| CDigit                      (* \d *)
| CAny                        (* [\s\S] *)
| COneOf (cs : list char).    (* [...] *)

Definition class_matches (cl : cclass) (c : char) : bool :=
  match cl with
  | CChar c' => (c =? c')%N
  | CSpace => is_space c
  | CDigit => is_digit c
  | CAny => is_space c || negb (is_space c)
  | COneOf cs => existsb (N.eqb c) cs
  end.

(** The patterns of the source need: sequence, alternation, the
    quantifiers [*], [+], [*?] and [{3,}] (all [{min,}], greedy or lazy),
    capturing parentheses, positive lookahead, [^] under the [m] flag and
    [$] without it. *)
Inductive regex :=
| Empty
| Class (cl : cclass)
| Seq (r1 r2 : regex)
| Alt (r1 r2 : regex)
| Repeat (min : nat) (greedy : bool) (r : regex)
| Group (r : regex)
| Lookahead (r : regex)
| LineStart
| InputEnd.

(** The matcher's state: the rest of the input from the current end index,
    and the code unit just before it (all that [^] looks at). *)
Record state := State { prev : option char; rest : jsstring }.

Definition Continuation := state -> option state.
Definition Matcher := state -> Continuation -> option state.

(** RepeatMatcher once the minimum is met: an iteration that consumes
    nothing is rejected.  [fuel] bounds the number of further iterations;
    the length of the rest of the input is enough, every accepted
    iteration consuming at least one code unit. *)
Fixpoint repeat_free (m : Matcher) (greedy : bool) (fuel : nat)
         (x : state) (c : Continuation) : option state :=
  let d := fun y =>
    if (length (rest y) <? length (rest x))%nat then
      match fuel with
      | O => None
      | S fuel' => repeat_free m greedy fuel' y c
      end
    else None in
  if greedy then
    match m x d with
    | Some z => Some z
    | None => c x
    end
  else
    match c x with
    | Some z => Some z
    | None => m x d
    end.

(** RepeatMatcher: the mandatory iterations first. *)
Fixpoint repeat_min (m : Matcher) (min : nat) (greedy : bool)
         (x : state) (c : Continuation) : option state :=
  match min with
  | S min' => m x (fun y => repeat_min m min' greedy y c)
  | O => repeat_free m greedy (length (rest x)) x c
  end.

Fixpoint compile (r : regex) : Matcher :=
  fun x c =>
    match r with
    | Empty => c x
    | Class cl =>
      match rest x with
      | ch :: t => if class_matches cl ch then c (State (Some ch) t) else None
      | [] => None
      end
    | Seq r1 r2 => compile r1 x (fun y => compile r2 y c)
    | Alt r1 r2 =>
      match compile r1 x c with
      | Some z => Some z
      | None => compile r2 x c
      end
    | Repeat min greedy r' => repeat_min (compile r') min greedy x c
    | Group r' => compile r' x c
    | Lookahead r' =>
      match compile r' x (fun y => Some y) with
      | Some _ => c x
      | None => None
      end
    | LineStart =>
      match prev x with
      | None => c x
      | Some ch => if is_line_terminator ch then c x else None
      end
    | InputEnd =>
      match rest x with
      | [] => c x
      | _ :: _ => None
      end
    end.

(** One attempt at the current position: the number of code units matched. *)
Definition match_here (r : regex) (p : option char) (s : jsstring) : option nat :=
  match compile r (State p s) (fun y => Some y) with
  | Some y => Some (length s - length (rest y))
  | None => None
  end.

(** RegExpBuiltinExec without the [g] and [y] flags: the leftmost position
    at which the pattern matches, with the matched text. *)
Fixpoint exec_from (r : regex) (p : option char) (s : jsstring) (i : nat)
  : option (nat * jsstring) :=
  match match_here r p s with
  | Some n => Some (i, firstn n s)
  | None =>
    match s with
    | [] => None
    | ch :: s' => exec_from r (Some ch) s' (S i)
    end
  end.

Definition exec (r : regex) (s : jsstring) : option (nat * jsstring) :=
  exec_from r None s 0.

(** [s.replace(/r/g, replacement)] for a replacement without dollar signs.
    [skip] counts the code units of the current match still to be passed
    over; after an empty match the search resumes one code unit later. *)
Fixpoint replace_all_from (r : regex) (replacement : jsstring)
         (p : option char) (s : jsstring) (skip : nat) : jsstring :=
  match skip with
  | S skip' =>
    match s with
    | [] => []
    | ch :: s' => replace_all_from r replacement (Some ch) s' skip'
    end
  | O =>
    match match_here r p s with
    | Some (S n) =>
      replacement ++
      match s with
      | [] => []
      | ch :: s' => replace_all_from r replacement (Some ch) s' n
      end
    | Some O =>
      replacement ++
      match s with
      | [] => []
      | ch :: s' => ch :: replace_all_from r replacement (Some ch) s' 0
      end
    | None =>
      match s with
      | [] => []
      | ch :: s' => ch :: replace_all_from r replacement (Some ch) s' 0
      end
    end
  end.

Definition replace_all (r : regex) (replacement s : jsstring) : jsstring :=
  replace_all_from r replacement None s 0.

Definition lit (c : char) : regex := Class (CChar c).

Fixpoint lits (s : jsstring) : regex :=
  match s with
  | [] => Empty
  | c :: s' => Seq (lit c) (lits s')
  end.

Definition star_of (r : regex) : regex := Repeat 0 true r.
Definition plus_of (r : regex) : regex := Repeat 1 true r.
Definition lazy_star_of (r : regex) : regex := Repeat 0 false r.

End Regex.
Import Regex.

(* ================================================================== *)
(** ** formatSummary *)

Module Offscreen.

(** The argument of [formatSummary]: a string, or nothing. *)
Inductive jsvalue :=
| Undefined
| Null
| Str (s : jsstring).

(** The outcome of a call: a value, or a thrown TypeError (a method called
    on [undefined]). *)
Inductive outcome (A : Type) :=
| Returned (a : A)
| Thrown.
Arguments Thrown {A}.

Definition hashes : regex := plus_of (lit hash).
Definition spaces : regex := star_of (Class CSpace).

(** [#+ \s* \d \. \s*] *)
Definition numberedHeading : regex :=
  Seq hashes (Seq spaces (Seq (Class CDigit) (Seq (lit dot) spaces))).

Definition actionItemsTitle : jsstring := Eval cbv in str "Action Items:".

(** The pattern of line 132, written with its parts spaced out:
    [( #+ \s* \d \. \s* Action Items: [\s\S]*? ) (?= ( #+ \s* \d \. \s* ) | $ )]. *)
Definition actionItemsRegex : regex :=
  Seq (Group (Seq numberedHeading
                  (Seq (lits actionItemsTitle) (lazy_star_of (Class CAny)))))
      (Lookahead (Alt (Group numberedHeading) InputEnd)).

(** [/\*| /g] *)
Definition starOrSpace : regex := Alt (lit star) (lit space).
(** [/\*\*/g] *)
Definition doubleStar : regex := Seq (lit star) (lit star).
(** [/\*/g] *)
Definition singleStar : regex := lit star.
(** [/^#+\s*\d\.\s*/gm], line 177 *)
Definition lineNumbering : regex := Seq LineStart numberedHeading.
(** [/^[-\u2022]\s*/gm], line 178 *)
Definition lineBullet : regex :=
  Seq LineStart (Seq (Class (COneOf [dash; bullet])) spaces).
(** [/(\n \s* ){3,}/g], line 179 *)
Definition blankRun : regex :=
  Repeat 3 true (Group (Seq (lit nl) spaces)).

Definition threeDashes : jsstring := [dash; dash; dash].
Definition NA : jsstring := Eval cbv in str "N/A".
Definition undefinedText : jsstring := Eval cbv in str "undefined".
Definition bulletIndent : jsstring := [bullet; space].
Definition fieldIndent : jsstring := [space; space; space; space].
Definition colonSpace : jsstring := [58%N; space].

(** [headerLine.split('|').map(h => h.trim().replace(/\*| /g, '')).filter(Boolean)] *)
Definition parse_headers (headerLine : jsstring) : list jsstring :=
  filter truthy
         (map (fun h => replace_all starOrSpace [] (trim h)) (split pipe headerLine)).

(** [line.split('|').map(cell => cell.trim()).filter(Boolean)] *)
Definition parse_cells (line : jsstring) : list jsstring :=
  filter truthy (map trim (split pipe line)).

(** [lines.map(...).filter(row => row.length > 0)] *)
Definition parse_rows (lines : list jsstring) : list (list jsstring) :=
  filter (fun row => (0 <? length row)%nat) (map parse_cells lines).

(** [row[i] || 'N/A'] *)
Definition cell_or_NA (row : list jsstring) (i : nat) : jsstring :=
  match nth_error row i with
  | Some v => if truthy v then v else NA
  | None => NA
  end.

(** The body of [headers.forEach((h, i) => ...)], from index [i] on. *)
Fixpoint render_fields (headers : list jsstring) (i : nat) (row : list jsstring)
         (newContent : jsstring) : jsstring :=
  match headers with
  | [] => newContent
  | h :: headers' =>
    let label := h in
    let value := cell_or_NA row i in
    render_fields headers' (S i) row
      (if (i =? 0)%nat
       then newContent ++ bulletIndent ++ label ++ colonSpace ++ value ++ [nl]
       else newContent ++ fieldIndent ++ label ++ colonSpace ++ value ++ [nl])
  end.

(** [rows.forEach(row => ...)] *)
Definition render_rows (headers : list jsstring) (rows : list (list jsstring))
           (newContent : jsstring) : jsstring :=
  fold_left (fun acc row => render_fields headers 0 row (acc ++ [nl])) rows newContent.

(** The table of the action block, as lines 154-166 render it:
    [blockLines[0]] (the text "undefined" if there were none), the
    headers and the rows. *)
Record table := Table {
  headerText : jsstring;
  headers : list jsstring;
  rows : list (list jsstring)
}.

(** [originalBlock.trim().split('\n')], line 139 *)
Definition blockLines (originalBlock : jsstring) : list jsstring :=
  split nl (trim originalBlock).

(** [blockLines.slice(1)] *)
Definition tableLines (originalBlock : jsstring) : list jsstring :=
  skipn 1 (blockLines originalBlock).

(** [tableLines.findIndex(l => l.includes('---'))] *)
Definition separatorIndex (originalBlock : jsstring) : Z :=
  findIndex (includes threeDashes) (tableLines originalBlock).

(** The test of line 153. *)
Definition rows_valid (hs : list jsstring) (rs : list (list jsstring)) : bool :=
  (0 <? length rs)%nat && (0 <? length hs)%nat
  && forallb (fun r => (length r =? length hs)%nat) rs.

(** [tableLines[separatorIndex - 1]], [None] standing for undefined. *)
Definition headerLine (originalBlock : jsstring) : option jsstring :=
  nth_error (tableLines originalBlock)
            (Z.to_nat (separatorIndex originalBlock - 1)).

(** [tableLines.slice(separatorIndex + 1)] *)
Definition data_lines (originalBlock : jsstring) : list jsstring :=
  skipn (Z.to_nat (separatorIndex originalBlock + 1)) (tableLines originalBlock).

(** Lines 139-153: [Returned (Some t)] when the checks of lines 145 and 153
    pass, [Returned None] when one fails, [Thrown] where [headerLine.split]
    would be called on undefined. *)
Definition parse_table (originalBlock : jsstring) : outcome (option table) :=
  if (separatorIndex originalBlock >? 0)%Z then
    match headerLine originalBlock with
    | None => Thrown
    | Some line =>
      let headers := parse_headers line in
      let rows := parse_rows (data_lines originalBlock) in
      if rows_valid headers rows
      then Returned (Some (Table (nth 0 (blockLines originalBlock) undefinedText)
                                 headers rows))
      else Returned None
    end
  else Returned None.

(** Lines 154-166. *)
Definition new_content (t : table) : jsstring :=
  render_rows (headers t) (rows t) (headerText t ++ [nl]).

(** Lines 132-135: the first match of the pattern, kept when its first
    group is a non-empty string that contains a pipe.  The first group
    spans the whole match, the lookahead after it being of width zero. *)
Definition action_block (formatted : jsstring) : option jsstring :=
  match exec actionItemsRegex formatted with
  | Some (_, group1) =>
    if truthy group1 && includes [pipe] group1 then Some group1 else None
  | None => None
  end.

(** Lines 131-172. *)
Definition reformat_action_items (formatted : jsstring) : outcome jsstring :=
  match action_block formatted with
  | Some originalBlock =>
    match parse_table originalBlock with
    | Thrown => Thrown
    | Returned (Some t) =>
      Returned (replace_string originalBlock (new_content t) formatted)
    | Returned None => Returned formatted
    end
  | None => Returned formatted
  end.

Definition strip_double_stars := replace_all doubleStar [].
Definition strip_stars := replace_all singleStar [].
Definition strip_numbering := replace_all lineNumbering [].
Definition standardize_bullets := replace_all lineBullet bulletIndent.
Definition condense_newlines := replace_all blankRun [nl; nl].

(** Lines 174-180. *)
Definition cleanup (formatted : jsstring) : jsstring :=
  trim (condense_newlines (standardize_bullets (strip_numbering
       (strip_stars (strip_double_stars formatted))))).

(** Lines 126-183. *)
Definition formatSummary (summary : jsvalue) : outcome jsstring :=
  match summary with
  | Undefined | Null => Returned []
  | Str [] => Returned []
  | Str s =>
    match reformat_action_items s with
    | Thrown => Thrown
    | Returned formatted => Returned (cleanup formatted)
    end
  end.

End Offscreen.
Import Offscreen.


(* ================================================================== *)
(** ** Sample summaries *)

Module Samples.

(** The lines joined by newlines, as a summary would hold them. *)
Fixpoint unlines (ls : list jsstring) : jsstring :=
  match ls with
  | [] => []
  | [l] => l
  | l :: ls' => l ++ nl :: unlines ls'
  end.

Definition heading3 : jsstring := Eval cbv in str "## 3. Action Items:".
Definition rowHeader : jsstring := Eval cbv in str "| Task | Owner |".
Definition rowSeparator : jsstring := Eval cbv in str "| --- | --- |".
Definition rowAlice : jsstring := Eval cbv in str "| Fix bug | Alice |".
Definition rowNoOwner : jsstring := Eval cbv in str "| Write docs |  |".
Definition rowBob : jsstring := Eval cbv in str "| Write docs | Bob |".

(** The block of the specification's worked example. *)
Definition specBlock : jsstring :=
  unlines [heading3; rowHeader; rowSeparator; rowAlice; rowNoOwner].

(** The same block with the second row's Owner filled in. *)
Definition filledBlock : jsstring :=
  unlines [heading3; rowHeader; rowSeparator; rowAlice; rowBob].

Definition rowABC : jsstring := Eval cbv in str "| Task | Owner | Due |".
Definition rowSeparator3 : jsstring := Eval cbv in str "| --- | --- | --- |".
Definition notes : jsstring := Eval cbv in str "Notes".

(** A row of two cells under three headers. *)
Definition unevenBlock : jsstring :=
  unlines [heading3; rowABC; rowSeparator3; rowAlice].

(** The separator row directly under the heading. *)
Definition headlessBlock : jsstring :=
  unlines [heading3; rowSeparator; rowAlice].

(** One data row, and nothing after it. *)
Definition oneRowBlock : jsstring :=
  unlines [heading3; rowHeader; rowSeparator; rowAlice].

(** The same, then a blank line and a line of prose. *)
Definition trailingNotesBlock : jsstring :=
  unlines [heading3; rowHeader; rowSeparator; rowAlice; []; notes].

Definition titleLine : jsstring := Eval cbv in str "Action Items:".
Definition taskFixBug : jsstring := Eval cbv in bullet :: space :: str "Task: Fix bug".
Definition ownerAlice : jsstring := Eval cbv in str "    Owner: Alice".
Definition taskWriteDocs : jsstring := Eval cbv in bullet :: space :: str "Task: Write docs".
Definition ownerBob : jsstring := Eval cbv in str "    Owner: Bob".

Definition heading4 : jsstring := Eval cbv in str "## 4. Action Items:".
Definition rowCarol : jsstring := Eval cbv in str "| Ship | Carol |".

(** A second action block, with a table as valid as the first one's. *)
Definition secondBlock : jsstring :=
  unlines [heading4; rowHeader; rowSeparator; rowCarol].

(** Two action blocks, one after the other. *)
Definition twoBlocks : jsstring := filledBlock ++ nl :: secondBlock.

Definition indentedItem : jsstring := Eval cbv in str "  - x".
Definition stackedNumbering : jsstring := Eval cbv in str "# 1. # 2. Notes".
Definition itemDash : jsstring := Eval cbv in str "- x".
Definition itemBullet : jsstring := Eval cbv in bullet :: space :: str "x".
Definition secondNumbering : jsstring := Eval cbv in str "# 2. Notes".

(** The list the filled block becomes. *)
Definition filledList : list jsstring :=
  [titleLine; []; taskFixBug; ownerAlice; []; taskWriteDocs; ownerBob].




Definition rowCostHeader : jsstring := Eval cbv in str "| Task | Cost |".
Definition rowCost : jsstring := Eval cbv in str "| Fix bug | $100 |".
Definition rowTaskHeader : jsstring := Eval cbv in str "| Task |".
Definition rowSeparator1 : jsstring := Eval cbv in str "| --- |".
Definition rowAmpersand : jsstring := Eval cbv in str "| $& |".

(** A table with an amount in dollars. *)
Definition costBlock : jsstring :=
  unlines [heading3; rowCostHeader; rowSeparator; rowCost].

(** A table with a cell that reads as a replacement pattern. *)
Definition ampersandBlock : jsstring :=
  unlines [heading3; rowTaskHeader; rowSeparator1; rowAmpersand].

(** A numbering after a space, and what is left of it. *)
Definition spaceNumbering : jsstring := Eval cbv in str " # 1. x".
Definition numberedItem : jsstring := Eval cbv in str "# 1. x".

(** Text before the block: an earlier numbered heading and a sentence; a
    word and a space; a line with a dash alone. *)
Definition earlierSection : jsstring :=
  Eval cbv in str "## 1. Summary" ++ nl :: str "We met at 10." ++ [nl; nl].
Definition cleanSection : jsstring :=
  Eval cbv in str "Summary" ++ nl :: str "We met at 10." ++ [nl; nl].
Definition wordSpace : jsstring := Eval cbv in str "x ".
Definition dashLine : jsstring := Eval cbv in str "-" ++ [nl].


End Samples.

(* ================================================================== *)
(** ** The data rows as the specification words them *)

Module SpecWords.

Fixpoint take_while {A : Type} (f : A -> bool) (xs : list A) : list A :=
  match xs with
  | [] => []
  | x :: xs' => if f x then x :: take_while f xs' else []
  end.

Definition is_blank (line : jsstring) : bool := is_empty (trim line).

(** A line that goes on with the table: not blank, and with a pipe. *)
Definition is_table_line (line : jsstring) : bool :=
  negb (is_blank line) && includes [pipe] line.

(** "All lines after the separator row, stopped at the first blank/non-pipe
    line or end of block, are data rows": the stopping rule of the
    specification, the cells of each line read as the code reads them. *)
Definition spec_rows (originalBlock : jsstring) : list (list jsstring) :=
  parse_rows (take_while is_table_line (data_lines originalBlock)).

End SpecWords.
Import SpecWords.

(* ================================================================== *)
(** ** What the quantifiers of the source's patterns compute *)

Module Runs.

(** The greedy star of a character class: run ahead while the class
    matches, then offer the positions to the continuation from the
    farthest back to the nearest. *)
Fixpoint greedy_class (cl : cclass) (p : option char) (s : jsstring)
         (k : Continuation) : option state :=
  match s with
  | c :: s' =>
    if class_matches cl c then
      match greedy_class cl (Some c) s' k with
      | Some z => Some z
      | None => k (State p s)
      end
    else k (State p s)
  | [] => k (State p s)
  end.

(** The state after the longest run of code units of the class. *)
Fixpoint skip_class (cl : cclass) (p : option char) (s : jsstring) : state :=
  match s with
  | c :: s' => if class_matches cl c then skip_class cl (Some c) s' else State p s
  | [] => State p s
  end.

(** The lazy star of [[\s\S]]: offer the positions to the continuation
    from the nearest on. *)
Fixpoint lazy_any (p : option char) (s : jsstring) (k : Continuation)
  : option state :=
  match k (State p s) with
  | Some z => Some z
  | None =>
    match s with
    | c :: s' => lazy_any (Some c) s' k
    | [] => None
    end
  end.

(** One code unit of a class. *)
Definition expect_class (cl : cclass) (x : state) : option state :=
  match rest x with
  | c :: t => if class_matches cl c then Some (State (Some c) t) else None
  | [] => None
  end.

(** A literal text. *)
Fixpoint expect_lits (l : jsstring) (x : state) : option state :=
  match l with
  | [] => Some x
  | a :: l' =>
    match expect_class (CChar a) x with
    | Some y => expect_lits l' y
    | None => None
    end
  end.

Definition skip (cl : cclass) (x : state) : state := skip_class cl (prev x) (rest x).

Definition bind (o : option state) (f : state -> option state) : option state :=
  match o with
  | Some y => f y
  | None => None
  end.

(** The numbered heading up to its dot: hashes, spaces, a digit, a dot. *)
Definition heading_dot (x : state) : option state :=
  bind (expect_class (CChar hash) x) (fun y0 =>
  bind (expect_class CDigit (skip CSpace (skip (CChar hash) y0))) (fun y1 =>
  expect_class (CChar dot) y1)).

(** The heading of an action block: the numbered heading, spaces, and the
    title. *)
Definition heading_title (x : state) : option state :=
  bind (heading_dot x) (fun y => expect_lits actionItemsTitle (skip CSpace y)).

(** The texts the heading of an action block can be: one or more hashes,
    whitespace, a digit, a dot, whitespace, and the title. *)
Definition is_action_heading (h : jsstring) : Prop :=
  exists hs w1 d w2,
    h = hash :: hs ++ w1 ++ d :: dot :: w2 ++ actionItemsTitle
    /\ (forall c, In c hs -> class_matches (CChar hash) c = true)
    /\ (forall c, In c w1 -> class_matches CSpace c = true)
    /\ is_digit d = true
    /\ (forall c, In c w2 -> class_matches CSpace c = true).

(** The lookahead of the action pattern: a numbered heading starts here,
    or the input ends. *)
Definition at_block_end (z : state) : bool :=
  match compile (Alt (Group numberedHeading) InputEnd) z (fun y => Some y) with
  | Some _ => true
  | None => false
  end.

(** Where the action block ends: the first position from here on at which
    the lookahead holds. *)
Fixpoint block_end (p : option char) (s : jsstring) : state :=
  if at_block_end (State p s) then State p s
  else match s with
       | c :: s' => block_end (Some c) s'
       | [] => State p s
       end.

(** The newlines in the run of whitespace a text begins with. *)
Fixpoint leading_newlines (s : jsstring) : nat :=
  match s with
  | c :: s' =>
    if is_space c
    then (if (c =? nl)%N then 1 else 0) + leading_newlines s'
    else 0
  | [] => 0
  end.

Definition starts_nl (s : jsstring) : bool :=
  match s with
  | c :: _ => (c =? nl)%N
  | [] => false
  end.

(** What is left to match of [blankRun] when [n] more iterations are due:
    a newline here, [n] newlines or more in the run of whitespace, and
    then the whole run is taken. *)
Definition blank_run_from (n : nat) (x : state) : option state :=
  if starts_nl (rest x) && (n <=? leading_newlines (rest x))
  then Some (skip CSpace x)
  else None.

(** What [blankRun] matches at the start of a text: the whole run of
    whitespace, when it begins with a newline and holds three or more. *)
Definition blank_run_length (s : jsstring) : option nat :=
  if starts_nl s && (3 <=? leading_newlines s)
  then Some (length s - length (drop_while is_space s))
  else None.

(** [blankRun] matches nowhere in the text. *)
Fixpoint no_blank_run (s : jsstring) : Prop :=
  blank_run_length s = None /\
  match s with
  | [] => True
  | _ :: s' => no_blank_run s'
  end.

(** The text is empty or ends on a code unit that is not whitespace. *)
Fixpoint ends_tight (s : jsstring) : Prop :=
  match s with
  | [] => True
  | [c] => is_space c = false
  | _ :: s' => ends_tight s'
  end.

(** The pattern matches nowhere in the text, whatever stands before. *)
Fixpoint unmatched (r : regex) (s : jsstring) : Prop :=
  (forall p, match_here r p s = None) /\
  match s with
  | [] => True
  | _ :: s' => unmatched r s'
  end.

(** The length of the run of code units passing [f] a text begins with. *)
Fixpoint run_length (f : char -> bool) (s : jsstring) : nat :=
  match s with
  | c :: s' => if f c then S (run_length f s') else 0
  | [] => 0
  end.




(** A code unit no pattern of the cleanup can start or go on with:
    neither whitespace nor an asterisk, a hash, a dash or a bullet. *)
Definition plain (c : char) : bool :=
  negb (is_space c) && negb (c =? star)%N && negb (c =? hash)%N
  && negb (c =? dash)%N && negb (c =? bullet)%N.

Definition line_start (p : option char) : bool :=
  match p with
  | None => true
  | Some ch => is_line_terminator ch
  end.

End Runs.
Import Runs.

(* ================================================================== *)
(** ** The shape of what is rendered *)

Module Shapes.

(** The code units after a dollar that make a replacement pattern when no
    capture exists: another dollar, an ampersand, a backtick, a quote. *)
Definition is_dollar_form (c : char) : bool :=
  ((c =? dollar) || (c =? amp) || (c =? backtick) || (c =? quote))%N.

(** No dollar of the template starts a replacement pattern. *)
Fixpoint dollar_safe (template : jsstring) : bool :=
  match template with
  | [] => true
  | c :: t =>
    (if (c =? dollar)%N
     then match t with
          | [] => true
          | c2 :: _ => negb (is_dollar_form c2)
          end
     else true)
    && dollar_safe t
  end.

(** What a replacement pattern stands for. *)
Definition dollar_expansion (matched before after : jsstring) (c : char)
  : jsstring :=
  if (c =? dollar)%N then [dollar]
  else if (c =? amp)%N then matched
  else if (c =? backtick)%N then before
  else if (c =? quote)%N then after
  else [dollar; c].

(** The lines of one item: a label and a value a line, the first behind a
    bullet, the others indented. *)
Fixpoint field_lines (first : bool) (labels values : list jsstring) : jsstring :=
  match labels, values with
  | label :: labels', value :: values' =>
    (if first then bulletIndent else fieldIndent)
      ++ label ++ colonSpace ++ value ++ [nl]
      ++ field_lines false labels' values'
  | _, _ => []
  end.

(** An item: a blank line, then its lines. *)
Definition item_text (labels row : list jsstring) : jsstring :=
  nl :: field_lines true labels row.

Definition not_star (c : char) : bool := negb (c =? star)%N.

End Shapes.
Import Shapes.

(* ================================================================== *)
(** ** The cleanup step by step

    Steps 6a to 6f said without regular expressions, to compare [cleanup]
    with: a scan from left to right that replaces runs whose length is
    read off the text. *)

Module Steps.

Definition is_hash (c : char) : bool := (c =? hash)%N.
Definition is_marker (c : char) : bool := (c =? dash)%N || (c =? bullet)%N.

(** The heading numbering a text begins with: one or more hashes,
    whitespace or none, one digit, a dot, and all the whitespace after
    the dot. *)
Definition numbering_length (s : jsstring) : option nat :=
  match s with
  | c :: s' =>
    if is_hash c then
      match drop_while is_space (drop_while is_hash s') with
      | d :: c2 :: s2 =>
        if is_digit d && (c2 =? dot)%N
        then Some (length s - length (drop_while is_space s2))
        else None
      | _ => None
      end
    else None
  | [] => None
  end.

(** The list marker a text begins with: a dash or a bullet, and all the
    whitespace after it. *)
Definition marker_length (s : jsstring) : option nat :=
  match s with
  | c :: s' =>
    if is_marker c then Some (length s - length (drop_while is_space s'))
    else None
  | [] => None
  end.

(** Only at the start of a line: at the start of the text or after a line
    terminator. *)
Definition at_line_start (len : jsstring -> option nat)
           (p : option char) (s : jsstring) : option nat :=
  if line_start p then len s else None.

(** The scan: where a run of [S n] code units starts, the replacement is
    written and the scan resumes after the run; any other code unit is
    kept.  [p] is the code unit before the place, [skip] what is left of
    the current run. *)
Fixpoint replace_runs (len : option char -> jsstring -> option nat)
         (replacement : jsstring) (p : option char) (s : jsstring)
         (skip : nat) : jsstring :=
  match skip with
  | S skip' =>
    match s with
    | [] => []
    | ch :: s' => replace_runs len replacement (Some ch) s' skip'
    end
  | O =>
    match len p s with
    | Some (S n) =>
      replacement ++
      match s with
      | [] => []
      | ch :: s' => replace_runs len replacement (Some ch) s' n
      end
    | _ =>
      match s with
      | [] => []
      | ch :: s' => ch :: replace_runs len replacement (Some ch) s' 0
      end
    end
  end.

(** Steps 6a and 6b. *)
Definition delete_asterisks (s : jsstring) : jsstring := filter not_star s.
(** Step 6c. *)
Definition delete_numbering (s : jsstring) : jsstring :=
  replace_runs (at_line_start numbering_length) [] None s 0.
(** Step 6d. *)
Definition standard_markers (s : jsstring) : jsstring :=
  replace_runs (at_line_start marker_length) bulletIndent None s 0.
(** Step 6e: a run of whitespace that begins with a newline and holds
    three newlines or more becomes two newlines. *)
Definition collapse_blank_runs (s : jsstring) : jsstring :=
  replace_runs (fun _ => blank_run_length) [nl; nl] None s 0.

(** Steps 6a to 6f. *)
Definition global_cleanup (s : jsstring) : jsstring :=
  trim (collapse_blank_runs (standard_markers (delete_numbering
         (delete_asterisks s)))).

(** Lines 175-178, and lines 175-179, of the source. *)
Definition steps_a_to_d (s : jsstring) : jsstring :=
  standardize_bullets (strip_numbering (strip_stars (strip_double_stars s))).
Definition steps_a_to_e (s : jsstring) : jsstring :=
  condense_newlines (steps_a_to_d s).

(** The pattern matches at some place of [pre], the text going on with
    [rest]. *)
Fixpoint matches_before (r : regex) (p : option char) (pre rest : jsstring)
  : bool :=
  match pre with
  | [] => false
  | c :: pre' =>
    match match_here r p (pre ++ rest) with
    | Some _ => true
    | None => matches_before r (Some c) pre' rest
    end
  end.

(** The text is empty or ends with a newline: what comes next starts a
    line. *)
Fixpoint ends_line (s : jsstring) : Prop :=
  match s with
  | [] => True
  | [c] => c = nl
  | _ :: s' => ends_line s'
  end.

(** The text is empty or begins with a newline. *)
Definition starts_line (s : jsstring) : Prop :=
  match s with
  | [] => True
  | c :: _ => c = nl
  end.

End Steps.
Import Steps.

(* ================================================================== *)
(** ** The popup: status line, summary box and the answer of the backend

    The synchronous part of the user interface code of
    src/extension/offscreen.js around [formatSummary]: [showStatus] with
    its spinner helpers (lines 36-78), [showToast] (80-82),
    [showSummarySection] (102-107), the handlers of the answer to the upload (454-471) and the click on "Post
    to Slack" (476-481, 489).  Inline styles and what timers do later are
    left out; they touch neither texts nor, before 3 seconds have passed,
    classes. *)

Module Dom.

Fixpoint string_eqb (a b : jsstring) : bool :=
  match a, b with
  | [], [] => true
  | x :: a', y :: b' => (x =? y)%N && string_eqb a' b'
  | _, _ => false
  end.

(** ASCII whitespace of the DOM standard: TAB, LF, FF, CR and SPACE. *)
Definition is_ascii_whitespace (c : char) : bool :=
  ((c =? 9) || (c =? 10) || (c =? 12) || (c =? 13) || (c =? 32))%N.

Fixpoint split_when (f : char -> bool) (s : jsstring) : list jsstring :=
  match s with
  | [] => [[]]
  | c :: s' =>
    if f c then [] :: split_when f s'
    else match split_when f s' with
         | [] => [[c]]
         | piece :: pieces => (c :: piece) :: pieces
         end
  end.

(** An ordered set: every token once, at its first place. *)
Fixpoint ordered_set (tokens : list jsstring) : list jsstring :=
  match tokens with
  | [] => []
  | t :: ts => t :: filter (fun u => negb (string_eqb u t)) (ordered_set ts)
  end.

(** The token set of a [class] attribute: what [el.className = value]
    leaves in [el.classList]. *)
Definition parse_class (value : jsstring) : list jsstring :=
  ordered_set (filter truthy (split_when is_ascii_whitespace value)).

(** [classList.contains(token)] *)
Definition classList_contains (token : jsstring) (tokens : list jsstring) : bool :=
  existsb (string_eqb token) tokens.

(** [classList.add(token)] *)
Definition classList_add (token : jsstring) (tokens : list jsstring)
  : list jsstring :=
  if classList_contains token tokens then tokens else tokens ++ [token].

(** [classList.remove(token)] *)
Definition classList_remove (token : jsstring) (tokens : list jsstring)
  : list jsstring :=
  filter (fun t => negb (string_eqb t token)) tokens.

(** An element under the status line: its class tokens and its text. *)
Record element := Element {
  classes : list jsstring;
  textContent : jsstring
}.

(** [parent.querySelector('.' + token)] among the elements under
    [parent]: the place of the first one of the class, [None] for null. *)
Fixpoint querySelector (token : jsstring) (els : list element) : option nat :=
  match els with
  | [] => None
  | e :: els' =>
    if classList_contains token (classes e) then Some 0
    else option_map S (querySelector token els')
  end.

(** [el.textContent = text] for the element at a place. *)
Fixpoint set_textContent (i : nat) (text : jsstring) (els : list element)
  : list element :=
  match els, i with
  | [], _ => []
  | e :: els', O => Element (classes e) text :: els'
  | e :: els', S i' => e :: set_textContent i' text els'
  end.

(** [el.remove()] for the element at a place. *)
Fixpoint remove_at (i : nat) (els : list element) : list element :=
  match els, i with
  | [], _ => []
  | _ :: els', O => els'
  | e :: els', S i' => e :: remove_at i' els'
  end.

(** A call that went through, or one stopped by a TypeError (a property
    of null read or set, a call of what is no function), with the state
    reached. *)
Inductive completion (S : Type) :=
| Completed (s : S)
| Aborted (s : S).

Definition and_then {S : Type} (r : completion S) (f : S -> completion S) : completion S :=
  match r with
  | Completed s => f s
  | Aborted s => Aborted s
  end.

End Dom.
Import Dom.

Module Popup.

Definition cls_status : jsstring := Eval cbv in str "status".
Definition cls_processing : jsstring := Eval cbv in str "processing".
Definition cls_success : jsstring := Eval cbv in str "success".
Definition cls_error : jsstring := Eval cbv in str "error".
Definition cls_status_icon : jsstring := Eval cbv in str "status-icon".
Definition cls_status_text : jsstring := Eval cbv in str "status-text".
Definition cls_loading_spinner : jsstring := Eval cbv in str "loading-spinner".
Definition cls_hidden : jsstring := Eval cbv in str "hidden".
Definition toastShow : jsstring := Eval cbv in str "toast show".

Definition wordProcessing : jsstring := Eval cbv in str "Processing".
Definition wordRecording : jsstring := Eval cbv in str "Recording".
Definition wordUploading : jsstring := Eval cbv in str "Uploading".
Definition wordError : jsstring := Eval cbv in str "Error".

(** U+1F504 (a surrogate pair), U+2705, U+274C, U+2728. *)
Definition iconProcessing : jsstring := [55357%N; 56580%N].
Definition iconSuccess : jsstring := [9989%N].
Definition iconError : jsstring := [10060%N].
Definition iconReady : jsstring := [10024%N].

(** The status line, [#status]: its class tokens and the elements under
    it in tree order, none of them inside another; the first of class
    [status-icon] and the first of class [status-text] are the ones
    [showStatus] writes to. *)
Record status_display := StatusDisplay {
  status_classes : list jsstring;
  children : list element
}.

(** Lines 65-71. *)
Definition addLoadingSpinner (d : status_display) : status_display :=
  match querySelector cls_loading_spinner (children d) with
  | Some _ => d
  | None =>
    StatusDisplay (status_classes d)
                  (Element (parse_class cls_loading_spinner) [] :: children d)
  end.

(** Lines 73-78. *)
Definition removeLoadingSpinner (d : status_display) : status_display :=
  match querySelector cls_loading_spinner (children d) with
  | Some i => StatusDisplay (status_classes d) (remove_at i (children d))
  | None => d
  end.

(** The test of line 56. *)
Definition names_activity (msg : jsstring) : bool :=
  includes wordProcessing msg || includes wordRecording msg
  || includes wordUploading msg.

(** Lines 45-53. *)
Definition status_icon_for (type : jsstring) : jsstring :=
  if string_eqb type cls_processing then iconProcessing
  else if string_eqb type cls_success then iconSuccess
  else if string_eqb type cls_error then iconError
  else iconReady.

(** Lines 36-63; [type] is the empty string when the argument is left
    out. *)
Definition showStatus (msg type : jsstring) (d : status_display)
  : completion status_display :=
  let statusIcon := querySelector cls_status_icon (children d) in
  let statusText := querySelector cls_status_text (children d) in
  match statusText with
  | None => Aborted d
  | Some text_at =>
    let d1 := StatusDisplay
                (parse_class (cls_status ++ (if truthy type then space :: type else [])))
                (set_textContent text_at msg (children d)) in
    match statusIcon with
    | None => Aborted d1
    | Some icon_at =>
      let d2 := StatusDisplay (status_classes d1)
                  (set_textContent icon_at (status_icon_for type) (children d1)) in
      if names_activity msg
      then Completed (addLoadingSpinner
                        (StatusDisplay (classList_add cls_processing (status_classes d2))
                                       (children d2)))
      else Completed (removeLoadingSpinner
                        (StatusDisplay (classList_remove cls_processing (status_classes d2))
                                       (children d2)))
    end
  end.

(** What the handlers below read and write: the status line, the class
    tokens of [#summarySection], the value given to the text area
    [#summaryEdit], the text and the class tokens of [#toast], and
    whether the interval of the upload steps still runs. *)
Record popup := PopupState {
  statusDisplay : status_display;
  summarySection : list jsstring;
  summaryEdit : jsstring;
  toastText : jsstring;
  toast : list jsstring;
  stepInterval : bool
}.

Definition with_status (st : popup) (d : status_display) : popup :=
  PopupState d (summarySection st) (summaryEdit st) (toastText st) (toast st)
             (stepInterval st).

Definition popup_showStatus (msg type : jsstring) (st : popup) : completion popup :=
  match showStatus msg type (statusDisplay st) with
  | Completed d => Completed (with_status st d)
  | Aborted d => Aborted (with_status st d)
  end.

(** Lines 80-82. *)
Definition showToast (msg type : jsstring) (st : popup) : popup :=
  PopupState (statusDisplay st) (summarySection st) (summaryEdit st) msg
             (parse_class (toastShow ++ (if truthy type then space :: type else [])))
             (stepInterval st).

(** Lines 102-107: the section is shown and the text area gets the
    formatted summary. *)
Definition showSummarySection (summary : jsvalue) (st : popup) : completion popup :=
  let shown := PopupState (statusDisplay st)
                          (classList_remove cls_hidden (summarySection st))
                          (summaryEdit st) (toastText st) (toast st)
                          (stepInterval st) in
  match formatSummary summary with
  | Thrown => Aborted shown
  | Returned formattedSummary =>
    Completed (PopupState (statusDisplay shown) (summarySection shown)
                          formattedSummary (toastText shown) (toast shown)
                          (stepInterval shown))
  end.

(** [clearInterval(stepInterval)] *)
Definition clearInterval (st : popup) : popup :=
  PopupState (statusDisplay st) (summarySection st) (summaryEdit st)
             (toastText st) (toast st) false.

Definition key_summary : jsstring := Eval cbv in str "summary".
Definition key_formatted_text : jsstring := Eval cbv in str "formatted_text".

Definition msgReady : jsstring :=
  Eval cbv in 9989%N :: str " Summary ready! Edit and post to Slack!".
Definition toastReady : jsstring :=
  Eval cbv in str "Summary generated successfully! " ++ [10024%N].
Definition msgNoSummary : jsstring :=
  Eval cbv in 10060%N :: str " Could not generate summary.".
Definition toastNoSummary : jsstring := Eval cbv in str "Could not generate summary.".
Definition msgFailed : jsstring :=
  Eval cbv in 10060%N :: str " Error processing audio.".
Definition toastFailed : jsstring := Eval cbv in str "Error processing audio.".
Definition toastEmpty : jsstring := Eval cbv in str "Summary is empty!".
(** U+1F4E4 is a surrogate pair. *)
Definition msgPosting : jsstring :=
  Eval cbv in 55357%N :: 56548%N :: str " Posting to Slack...".

Section Answer.

(** The numbers of JSON, of which the code asks one thing: whether they
    are zero. *)
Variable number : Type.
Variable number_truthy : number -> bool.

(** What [response.json()] resolves to. *)
#[warnings="-register-all"] Inductive json :=
| JNull
| JBool (b : bool)
| JNumber (n : number)
| JString (s : jsstring)
| JArray (items : list json)
| JObject (properties : list (jsstring * json)).

(** [Boolean(v)]; [None] stands for undefined. *)
Definition json_truthy (v : option json) : bool :=
  match v with
  | None | Some JNull => false
  | Some (JBool b) => b
  | Some (JNumber n) => number_truthy n
  | Some (JString s) => truthy s
  | Some (JArray _) | Some (JObject _) => true
  end.

Fixpoint own_property (key : jsstring) (properties : list (jsstring * json))
  : option json :=
  match properties with
  | [] => None
  | (k, v) :: properties' =>
    if string_eqb key k then Some v else own_property key properties'
  end.

(** [v.key] for the keys [summary] and [formatted_text], which no
    prototype has: a TypeError on null, the own property of an object,
    undefined on anything else. *)
Definition get_property (v : json) (key : jsstring) : outcome (option json) :=
  match v with
  | JNull => Thrown
  | JObject properties => Returned (own_property key properties)
  | _ => Returned None
  end.

(** The condition of line 458: [Returned (Some text)] when it holds, the
    text being [data.summary.formatted_text]; [Returned None] when it
    does not; [Thrown] when a TypeError ends it. *)
Definition summary_text (data : json) : outcome (option jsstring) :=
  match get_property data key_summary with
  | Thrown => Thrown
  | Returned summary =>
    if json_truthy summary then
      match summary with
      | None => Thrown
      | Some summary_value =>
        match get_property summary_value key_formatted_text with
        | Thrown => Thrown
        | Returned formatted_text =>
          if json_truthy formatted_text then
            match formatted_text with
            | Some (JString text) =>
              if starts_with wordError text then Returned None
              else Returned (Some text)
            | _ => Thrown
            end
          else Returned None
        end
      end
    else Returned None
  end.

(** Lines 455-466. *)
Definition on_data (data : json) (st : popup) : completion popup :=
  let st := clearInterval st in
  match summary_text data with
  | Thrown => Aborted st
  | Returned (Some text) =>
    and_then (showSummarySection (Str text) st) (fun st =>
    and_then (popup_showStatus msgReady cls_success st) (fun st =>
    Completed (showToast toastReady cls_success st)))
  | Returned None =>
    and_then (popup_showStatus msgNoSummary cls_error st) (fun st =>
    Completed (showToast toastNoSummary cls_error st))
  end.

(** Lines 467-471. *)
Definition on_error (st : popup) : completion popup :=
  let st := clearInterval st in
  and_then (popup_showStatus msgFailed cls_error st) (fun st =>
  Completed (showToast toastFailed cls_error st)).

(** What the request of line 450 ends in: no answer, an answer that is no
    JSON, or parsed data. *)
Inductive answer :=
| NoAnswer
| NotJson
| Parsed (data : json).

(** Lines 454-471: [.then(response => response.json()).then(...).catch(...)]. *)
Definition on_answer (a : answer) (st : popup) : completion popup :=
  match a with
  | NoAnswer | NotJson => on_error st
  | Parsed data =>
    match on_data data st with
    | Completed st' => Completed st'
    | Aborted st' => on_error st'
    end
  end.

End Answer.

Arguments JNull {number}.
Arguments JBool {number} b.
Arguments JString {number} s.
Arguments NoAnswer {number}.
Arguments NotJson {number}.

(** The value a text area gives back: the one it was given with its
    newlines normalized, CR LF and CR to LF. *)
Fixpoint normalize_newlines (s : jsstring) : jsstring :=
  match s with
  | [] => []
  | c :: s' =>
    if (c =? 13)%N then
      match s' with
      | c2 :: s'' => if (c2 =? 10)%N then nl :: normalize_newlines s''
                     else nl :: normalize_newlines s'
      | [] => [nl]
      end
    else c :: normalize_newlines s'
  end.

(** Lines 476-481 and 489 of the click on "Post to Slack"; the boolean
    tells whether the post goes on. *)
Definition postToSlack (st : popup) : completion popup * bool :=
  let summary := normalize_newlines (summaryEdit st) in
  if negb (truthy (trim summary))
  then (Completed (showToast toastEmpty cls_error st), false)
  else (popup_showStatus msgPosting cls_processing st, true).

(** The status line has its two elements, neither of them a spinner, and
    one spinner at most. *)
Definition is_spinner (e : element) : bool :=
  classList_contains cls_loading_spinner (classes e).

Definition spinner_count (d : status_display) : nat :=
  length (filter is_spinner (children d)).

Definition status_ready (d : status_display) : Prop :=
  existsb (fun e => classList_contains cls_status_icon (classes e)
                    && negb (is_spinner e)) (children d) = true
  /\ existsb (fun e => classList_contains cls_status_text (classes e)
                       && negb (is_spinner e)) (children d) = true
  /\ spinner_count d <= 1.

(** A status line and a popup as the page has them at the start, and an
    answer whose summary is whitespace. *)
Definition statusLine : status_display :=
  StatusDisplay [cls_status]
                [Element [cls_status_icon] iconReady; Element [cls_status_text] []].

Definition readyPopup : popup :=
  PopupState statusLine [cls_hidden] [] [] [] true.
Definition blankAnswer : json Z :=
  JObject [(key_summary, JObject [(key_formatted_text, JString [space; nl])])].

End Popup.
Import Popup.

(* ================================================================== *)
(** ** Theorems *)

Unset Implicit Arguments.

(** *** Arrays and strings *)

Lemma findIndex_range {A : Type} (f : A -> bool) (xs : list A) :
  (-1 <= findIndex f xs < Z.of_nat (length xs))%Z.
Proof.
  induction xs as [|x xs IH]; simpl length.
  - simpl. lia.
  - cbn [findIndex]. destruct (f x); [lia|].
    destruct (Z.ltb_spec (findIndex f xs) 0); lia.
Qed.

Lemma header_line_defined (b : jsstring) :
  (separatorIndex b > 0)%Z -> exists hl, headerLine b = Some hl.
Proof.
  intros Hpos. unfold headerLine.
  destruct (nth_error (tableLines b) (Z.to_nat (separatorIndex b - 1))) as [hl|] eqn:E.
  - now exists hl.
  - apply nth_error_None in E.
    pose proof (findIndex_range (includes threeDashes) (tableLines b)) as R.
    unfold separatorIndex in *. lia.
Qed.

(** [parse_table] never throws: the header line is there whenever the
    separator is not the first table line. *)
Lemma parse_table_returns (b : jsstring) :
  exists r, parse_table b = Returned r.
Proof.
  unfold parse_table.
  destruct (Z.gtb_spec (separatorIndex b) 0) as [Hpos|Hneg].
  - destruct (@header_line_defined b) as [hl Hhl]; [lia|]. rewrite Hhl.
    destruct (rows_valid _ _); eauto.
  - eauto.
Qed.

Lemma reformat_returns (s : jsstring) :
  exists r, reformat_action_items s = Returned r.
Proof.
  unfold reformat_action_items.
  destruct (action_block s) as [b|]; [|eauto].
  destruct (parse_table_returns b) as [[t|] ->]; eauto.
Qed.


Lemma formatSummary_unparsed (s : jsstring) :
  reformat_action_items s = Returned s ->
  formatSummary (Str s) = Returned (cleanup s).
Proof.
  intros H. destruct s as [|c s]; [reflexivity|].
  unfold formatSummary. now rewrite H.
Qed.

Lemma drop_while_incl (f : char -> bool) (s : jsstring) (c : char) :
  In c (drop_while f s) -> In c s.
Proof.
  induction s as [|a s IH]; simpl; [tauto|].
  destruct (f a); simpl; tauto.
Qed.

Lemma trim_incl (s : jsstring) (c : char) : In c (trim s) -> In c s.
Proof.
  unfold trim, trim_end, trim_start. intros H.
  apply In_rev in H. apply drop_while_incl in H.
  apply In_rev in H. now apply drop_while_incl in H.
Qed.

(** *** Global replacement *)

(** Every code unit of a global replacement's result comes from the
    subject or from the replacement text. *)
Lemma replace_all_from_incl (r : regex) (repl : jsstring) (c : char) :
  forall s p k, In c (replace_all_from r repl p s k) -> In c s \/ In c repl.
Proof.
  induction s as [|ch s IH]; intros p k H.
  - destruct k as [|k]; simpl in H; [|tauto].
    destruct (match_here r p []) as [[|n]|]; rewrite ?app_nil_r in H; simpl in H; tauto.
  - destruct k as [|k]; simpl in H.
    + destruct (match_here r p (ch :: s)) as [[|n]|].
      * apply in_app_or in H. destruct H as [H|[H|H]]; [tauto|left; now left|].
        apply IH in H. simpl. tauto.
      * apply in_app_or in H. destruct H as [H|H]; [tauto|].
        apply IH in H. simpl. tauto.
      * destruct H as [H|H]; [left; now left|].
        apply IH in H. simpl. tauto.
    + apply IH in H. simpl. tauto.
Qed.

Lemma replace_all_incl (r : regex) (repl s : jsstring) (c : char) :
  In c (replace_all r repl s) -> In c s \/ In c repl.
Proof. apply replace_all_from_incl. Qed.

Lemma match_here_singleStar (p : option char) (s : jsstring) :
  match_here singleStar p s =
  match s with
  | c :: _ => if (c =? star)%N then Some 1 else None
  | [] => None
  end.
Proof.
  destruct s as [|c s]; [reflexivity|].
  unfold match_here, singleStar, lit. cbn [compile rest class_matches].
  destruct (c =? star)%N; [|reflexivity].
  cbn [rest]. f_equal. simpl length. lia.
Qed.

(** Line 176 deletes exactly the asterisks. *)
Lemma strip_stars_filter (s : jsstring) :
  strip_stars s = filter (fun c => negb (c =? star)%N) s.
Proof.
  unfold strip_stars, replace_all. generalize (@None char) as p.
  induction s as [|c s IH]; intros p.
  - reflexivity.
  - cbn [replace_all_from]. rewrite match_here_singleStar.
    cbn [filter]. destruct (c =? star)%N; cbn [negb app]; now rewrite IH.
Qed.

Lemma cleanup_no_star (s : jsstring) : ~ In star (cleanup s).
Proof.
  unfold cleanup. intros H.
  apply trim_incl in H.
  apply replace_all_incl in H. destruct H as [H|H];
    [|simpl in H; unfold star, nl in H; intuition discriminate].
  apply replace_all_incl in H. destruct H as [H|H];
    [|simpl in H; unfold star, bullet, space in H; intuition discriminate].
  apply replace_all_incl in H. destruct H as [H|H]; [|destruct H].
  rewrite strip_stars_filter in H. apply filter_In in H.
  destruct H as [_ H]. now rewrite N.eqb_refl in H.
Qed.

(** *** The empty summary *)

(** C9: [formatSummary] applied to the empty string, to [null] or to
    [undefined] (an absent argument) returns the empty string. *)
Theorem formatSummary_empty :
  formatSummary (Str []) = Returned []
  /\ formatSummary Null = Returned []
  /\ formatSummary Undefined = Returned [].
Proof. repeat split. Qed.

(** *** No exception, and the fallback to the cleanup alone *)



(** *** Tables that are not substituted *)

Lemma parse_table_no_header_row (b : jsstring) :
  (separatorIndex b <= 0)%Z -> parse_table b = Returned None.
Proof.
  intros H. unfold parse_table.
  destruct (Z.gtb_spec (separatorIndex b) 0); [lia|reflexivity].
Qed.

Lemma parse_table_uneven (b hl : jsstring) (row : list jsstring) :
  headerLine b = Some hl ->
  In row (parse_rows (data_lines b)) ->
  length row <> length (parse_headers hl) ->
  parse_table b = Returned None.
Proof.
  intros Hhl Hin Hlen. unfold parse_table. rewrite Hhl.
  destruct (separatorIndex b >? 0)%Z; [|reflexivity].
  replace (rows_valid (parse_headers hl) (parse_rows (data_lines b))) with false;
    [reflexivity|].
  symmetry. unfold rows_valid. apply andb_false_intro2.
  destruct (forallb _ _) eqn:E; [|reflexivity].
  rewrite forallb_forall in E. apply E in Hin.
  apply Nat.eqb_eq in Hin. contradiction.
Qed.

Lemma reformat_table_rejected (s b : jsstring) :
  action_block s = Some b -> parse_table b = Returned None ->
  reformat_action_items s = Returned s.
Proof.
  intros Hb Hp. unfold reformat_action_items. now rewrite Hb, Hp.
Qed.

(** C10: when the separator row (the first table line holding three dashes)
    is the first line under the heading of the first action block, so that
    no header row stands before it, nothing is substituted and the result
    is the input after the cleanup of lines 175-180 alone. *)
Theorem separator_first_no_substitution (s b : jsstring) :
  action_block s = Some b ->
  separatorIndex b = 0%Z ->
  reformat_action_items s = Returned s
  /\ formatSummary (Str s) = Returned (cleanup s).
Proof.
  intros Hb Hsep.
  assert (H : reformat_action_items s = Returned s).
  { apply (reformat_table_rejected s b Hb).
    apply parse_table_no_header_row. lia. }
  split; [exact H|]. now apply formatSummary_unparsed.
Qed.

Lemma separator_first_no_substitution_witness :
  action_block Samples.headlessBlock = Some Samples.headlessBlock
  /\ separatorIndex Samples.headlessBlock = 0%Z
  /\ reformat_action_items Samples.headlessBlock = Returned Samples.headlessBlock
  /\ formatSummary (Str Samples.headlessBlock)
     = Returned (cleanup Samples.headlessBlock).
Proof.
  split; [vm_compute; reflexivity|]. split; [vm_compute; reflexivity|].
  apply (separator_first_no_substitution Samples.headlessBlock Samples.headlessBlock);
    vm_compute; reflexivity.
Defined.

(** C4: when some data row of the first action block's table has a number
    of cells other than the number of headers, nothing is substituted and
    the result is the input after the cleanup of lines 175-180 alone. *)
Theorem uneven_row_no_substitution (s b hl : jsstring) (row : list jsstring) :
  action_block s = Some b ->
  headerLine b = Some hl ->
  In row (parse_rows (data_lines b)) ->
  length row <> length (parse_headers hl) ->
  reformat_action_items s = Returned s
  /\ formatSummary (Str s) = Returned (cleanup s).
Proof.
  intros Hb Hhl Hin Hlen.
  assert (H : reformat_action_items s = Returned s).
  { apply (reformat_table_rejected s b Hb).
    exact (parse_table_uneven b hl row Hhl Hin Hlen). }
  split; [exact H|]. now apply formatSummary_unparsed.
Qed.

Lemma uneven_row_no_substitution_witness :
  length (parse_headers Samples.rowABC) = 3
  /\ parse_rows (data_lines Samples.unevenBlock)
     = [[str "Fix bug"; str "Alice"]]
  /\ reformat_action_items Samples.unevenBlock = Returned Samples.unevenBlock
  /\ formatSummary (Str Samples.unevenBlock)
     = Returned (cleanup Samples.unevenBlock).
Proof.
  split; [vm_compute; reflexivity|]. split; [vm_compute; reflexivity|].
  apply (uneven_row_no_substitution Samples.unevenBlock Samples.unevenBlock
           Samples.rowABC [str "Fix bug"; str "Alice"]).
  - vm_compute; reflexivity.
  - vm_compute; reflexivity.
  - vm_compute. left; reflexivity.
  - vm_compute. discriminate.
Defined.

(** *** The worked example of the specification *)

(** The fallback of line 159 is never taken on a cell of a parsed row:
    [parse_cells] has already dropped every empty cell. *)
Lemma parsed_cell_truthy (line v : jsstring) (i : nat) :
  nth_error (parse_cells line) i = Some v ->
  cell_or_NA (parse_cells line) i = v /\ v <> [].
Proof.
  intros H. unfold cell_or_NA. rewrite H.
  apply nth_error_In in H. unfold parse_cells in H.
  apply filter_In in H. destruct H as [_ H]. rewrite H.
  split; [reflexivity|]. now destruct v.
Qed.


(** *** Which lines are data rows *)

Lemma drop_while_nil (f : char -> bool) (s : jsstring) :
  drop_while f s = [] -> forall c, In c s -> f c = true.
Proof.
  induction s as [|a s IH]; simpl; [tauto|].
  destruct (f a) eqn:E; [|discriminate].
  intros H c [<-|Hc]; auto.
Qed.

Lemma trim_nil_all_space (s : jsstring) :
  trim s = [] -> forall c, In c s -> is_space c = true.
Proof.
  unfold trim, trim_end, trim_start. intros H c Hc.
  assert (H' : drop_while is_space (rev (drop_while is_space s)) = []).
  { rewrite <- (rev_involutive (drop_while _ (rev _))). now rewrite H. }
  destruct (is_space c) eqn:E; [reflexivity|].
  assert (Hin : In c (drop_while is_space s)).
  { clear H H'. induction s as [|a s IH]; [destruct Hc|].
    simpl. destruct Hc as [->|Hc].
    - rewrite E. now left.
    - destruct (is_space a); [auto|now right]. }
  apply In_rev in Hin.
  rewrite (drop_while_nil _ _ H' c Hin) in E. discriminate.
Qed.

Lemma includes_single (c : char) (s : jsstring) :
  includes [c] s = false -> ~ In c s.
Proof.
  induction s as [|a s IH]; simpl; [tauto|].
  intros H. apply orb_false_elim in H. destruct H as [H1 H2].
  rewrite andb_true_r in H1. apply N.eqb_neq in H1.
  intros [->|Hin]; [congruence|]. now apply IH.
Qed.

Lemma split_no_separator (sep : char) (s : jsstring) :
  ~ In sep s -> split sep s = [s].
Proof.
  induction s as [|a s IH]; [reflexivity|].
  intros H. simpl. destruct (N.eqb_spec a sep) as [->|Hne].
  - exfalso. apply H. now left.
  - rewrite IH; [reflexivity|]. intros Hin. apply H. now right.
Qed.

(** A line without a pipe is one cell, or none when it is blank. *)
Lemma parse_cells_no_pipe (l : jsstring) :
  includes [pipe] l = false ->
  parse_cells l = if is_blank l then [] else [trim l].
Proof.
  intros H. unfold parse_cells.
  rewrite (split_no_separator pipe l (includes_single pipe l H)).
  simpl. unfold is_blank, truthy. now destruct (is_empty (trim l)).
Qed.

Lemma parse_cells_blank (l : jsstring) : is_blank l = true -> parse_cells l = [].
Proof.
  intros H. rewrite parse_cells_no_pipe; [now rewrite H|].
  unfold is_blank in H. destruct (trim l) eqn:E; [|discriminate].
  destruct (includes [pipe] l) eqn:Ei; [|reflexivity].
  exfalso. clear H.
  assert (Hin : In pipe l).
  { clear E. induction l as [|a l IH]; simpl in Ei; [discriminate|].
    rewrite andb_true_r in Ei. apply orb_true_iff in Ei.
    destruct Ei as [Ei|Ei]; [left; symmetry; now apply N.eqb_eq|right; auto]. }
  now pose proof (trim_nil_all_space l E pipe Hin).
Qed.

Lemma parse_rows_app (l1 l2 : list jsstring) :
  parse_rows (l1 ++ l2) = parse_rows l1 ++ parse_rows l2.
Proof. unfold parse_rows. now rewrite map_app, filter_app. Qed.

Lemma parse_rows_In (ls : list jsstring) (r : list jsstring) :
  In r (parse_rows ls) <-> r <> [] /\ exists l, In l ls /\ parse_cells l = r.
Proof.
  unfold parse_rows. rewrite filter_In, in_map_iff. split.
  - intros [(l & Hl & Hin) Hlen]. split; [|eauto].
    intros ->. discriminate.
  - intros [Hne (l & Hin & Hl)]. split; [eauto|].
    destruct r; [contradiction|reflexivity].
Qed.

Lemma take_while_all {A : Type} (f : A -> bool) (xs : list A) :
  forallb f xs = true -> take_while f xs = xs.
Proof.
  induction xs as [|x xs IH]; simpl; [reflexivity|].
  intros H. apply andb_true_iff in H. destruct H as [-> H]. now rewrite IH.
Qed.

(** The claim C5 fails: a blank line does not end the table.  The line of
    prose after it is read as a data row of one cell, which the
    specification's stopping rule leaves out, and it decides that nothing
    is substituted, while the same block without the two lines is
    reformatted. *)
Lemma rows_after_blank_counterexample :
  parse_rows (data_lines Samples.trailingNotesBlock)
  = [[str "Fix bug"; str "Alice"]; [str "Notes"]]
  /\ spec_rows Samples.trailingNotesBlock = [[str "Fix bug"; str "Alice"]]
  /\ reformat_action_items Samples.trailingNotesBlock
     = Returned Samples.trailingNotesBlock
  /\ reformat_action_items Samples.oneRowBlock <> Returned Samples.oneRowBlock.
Proof.
  split; [vm_compute; reflexivity|]. split; [vm_compute; reflexivity|].
  split; [vm_compute; reflexivity|]. vm_compute. discriminate.
Qed.

(** C5, amended: the data rows are the lines after the separator row, all
    the way to the end of the block, that hold at least one non-empty
    cell, in their order.  A blank line is passed over and does not end
    the table; a line without a pipe that is not blank is a row of one
    cell, its trimmed text; and where every line after the separator is a
    non-blank line with a pipe, these are the rows of the specification's
    wording. *)
Theorem data_rows_to_end_of_block (b : jsstring) :
  (forall r, In r (parse_rows (data_lines b)) <->
             r <> [] /\ exists l, In l (data_lines b) /\ parse_cells l = r)
  /\ (forall l1 l2 blank, data_lines b = l1 ++ blank :: l2 ->
        is_blank blank = true ->
        parse_rows (data_lines b) = parse_rows l1 ++ parse_rows l2)
  /\ (forall l1 l2 l, data_lines b = l1 ++ l :: l2 ->
        includes [pipe] l = false -> is_blank l = false ->
        parse_rows (data_lines b) = parse_rows l1 ++ [trim l] :: parse_rows l2)
  /\ (forallb is_table_line (data_lines b) = true ->
      parse_rows (data_lines b) = spec_rows b).
Proof.
  split; [intros r; apply parse_rows_In|].
  split; [|split].
  - intros l1 l2 blank -> Hb.
    rewrite parse_rows_app. f_equal.
    unfold parse_rows. cbn [map filter]. now rewrite (parse_cells_blank blank Hb).
  - intros l1 l2 l -> Hp Hb.
    rewrite parse_rows_app. f_equal.
    unfold parse_rows. cbn [map filter].
    now rewrite (parse_cells_no_pipe l Hp), Hb.
  - intros H. unfold spec_rows. now rewrite take_while_all.
Qed.

Lemma data_rows_to_end_of_block_witness :
  data_lines Samples.trailingNotesBlock = [Samples.rowAlice] ++ [] :: [Samples.notes]
  /\ parse_rows (data_lines Samples.trailingNotesBlock)
     = parse_rows [Samples.rowAlice] ++ parse_rows [Samples.notes]
  /\ parse_rows [Samples.notes] = [[Samples.notes]].
Proof.
  split; [vm_compute; reflexivity|]. split.
  - apply (proj1 (proj2 (data_rows_to_end_of_block Samples.trailingNotesBlock))
             [Samples.rowAlice] [Samples.notes] []); vm_compute; reflexivity.
  - vm_compute; reflexivity.
Defined.

(** *** Empty cells *)

(** Whenever a table is substituted, every value rendered is a cell of
    its row that is not empty: the fallback of line 159 is dead code. *)
Lemma rendered_values_nonempty (b : jsstring) (t : table) :
  parse_table b = Returned (Some t) ->
  forall row i, In row (rows t) -> i < length (headers t) ->
    exists v, nth_error row i = Some v /\ v <> [] /\ cell_or_NA row i = v.
Proof.
  unfold parse_table. intros H row i Hrow Hi.
  destruct (separatorIndex b >? 0)%Z; [|discriminate].
  destruct (headerLine b) as [hl|]; [|discriminate].
  destruct (rows_valid _ _) eqn:Ev; [|discriminate].
  injection H as <-. cbn [rows headers] in *.
  unfold rows_valid in Ev. apply andb_true_iff in Ev. destruct Ev as [_ Ev].
  rewrite forallb_forall in Ev. pose proof (Ev row Hrow) as Hlen.
  apply Nat.eqb_eq in Hlen.
  apply parse_rows_In in Hrow. destruct Hrow as [_ (l & _ & <-)].
  destruct (nth_error (parse_cells l) i) as [v|] eqn:En.
  - exists v. destruct (parsed_cell_truthy l v i En) as [Hc Hv]. auto.
  - apply nth_error_None in En. lia.
Qed.

(** C2: on the block of the specification's example, whose second row has
    an empty Owner cell, nothing is substituted: the empty cell is dropped
    by [filter(Boolean)] before line 153 counts the cells, the row is one
    cell short, and no N/A appears in the result.  No input fares better:
    whenever a table is substituted, the values rendered are cells that
    are not empty. *)
Theorem empty_cell_not_rendered :
  parse_rows (data_lines Samples.specBlock)
  = [[str "Fix bug"; str "Alice"]; [str "Write docs"]]
  /\ formatSummary (Str Samples.specBlock)
     = Returned (Samples.unlines [Samples.titleLine; Samples.rowHeader;
                                  Samples.rowSeparator; Samples.rowAlice;
                                  Samples.rowNoOwner])
  /\ (forall out, formatSummary (Str Samples.specBlock) = Returned out ->
                  includes NA out = false)
  /\ (forall b t row i,
        parse_table b = Returned (Some t) ->
        In row (rows t) -> i < length (headers t) ->
        exists v, nth_error row i = Some v /\ v <> [] /\ cell_or_NA row i = v).
Proof.
  split; [vm_compute; reflexivity|].
  split; [vm_compute; reflexivity|].
  split.
  - intros out H. vm_compute in H. injection H as <-. vm_compute. reflexivity.
  - intros b t row i H. now apply (rendered_values_nonempty b t H).
Qed.

(** *** The matcher on runs of a character class *)

Lemma repeat_free_eq (m : Matcher) (greedy : bool) (fuel : nat)
      (x : state) (c : Continuation) :
  repeat_free m greedy fuel x c =
  let d := fun y =>
    if (length (rest y) <? length (rest x))%nat then
      match fuel with
      | O => None
      | S fuel' => repeat_free m greedy fuel' y c
      end
    else None in
  if greedy then
    match m x d with
    | Some z => Some z
    | None => c x
    end
  else
    match c x with
    | Some z => Some z
    | None => m x d
    end.
Proof. destruct fuel; reflexivity. Qed.

Lemma compile_seq (r1 r2 : regex) (x : state) (k : Continuation) :
  compile (Seq r1 r2) x k = compile r1 x (fun y => compile r2 y k).
Proof. reflexivity. Qed.

Lemma last_cons_any {A : Type} (l : list A) (a d d' : A) :
  last (a :: l) d = last (a :: l) d'.
Proof.
  revert a. induction l as [|b l IH]; intros a; [reflexivity|].
  change (last (b :: l) d = last (b :: l) d'). apply IH.
Qed.

Section ClassRuns.

Variable cl : cclass.

Lemma compile_class (x : state) (k : Continuation) :
  compile (Class cl) x k = bind (expect_class cl x) k.
Proof.
  unfold expect_class. cbn [compile].
  destruct (rest x) as [|c t]; [reflexivity|].
  now destruct (class_matches cl c).
Qed.

Lemma repeat_free_class (k : Continuation) :
  forall fuel p s, length s <= fuel ->
    repeat_free (compile (Class cl)) true fuel (State p s) k
    = greedy_class cl p s k.
Proof.
  induction fuel as [|fuel IH]; intros p s Hlen; rewrite repeat_free_eq;
    cbv zeta; rewrite compile_class; unfold expect_class; cbn [rest].
  - destruct s; [reflexivity|simpl in Hlen; lia].
  - destruct s as [|c s]; [reflexivity|].
    cbn [greedy_class]. destruct (class_matches cl c); [|reflexivity].
    cbn [bind rest]. simpl length in *.
    replace (length s <? S (length s)) with true
      by (symmetry; apply Nat.ltb_lt; lia).
    rewrite IH by lia. reflexivity.
Qed.

Lemma compile_star_class (x : state) (k : Continuation) :
  compile (star_of (Class cl)) x k = greedy_class cl (prev x) (rest x) k.
Proof.
  destruct x as [p s]. unfold star_of. cbn [compile repeat_min rest prev].
  now apply repeat_free_class.
Qed.

Lemma compile_plus_class (x : state) (k : Continuation) :
  compile (plus_of (Class cl)) x k
  = bind (expect_class cl x) (fun y => greedy_class cl (prev y) (rest y) k).
Proof.
  unfold plus_of. cbn [compile repeat_min].
  change (compile (Class cl) x
            (fun y => repeat_free (compile (Class cl)) true (length (rest y)) y k)
          = bind (expect_class cl x) (fun y => greedy_class cl (prev y) (rest y) k)).
  rewrite compile_class.
  destruct (expect_class cl x) as [[p s]|]; [|reflexivity].
  cbn [bind prev rest]. now apply repeat_free_class.
Qed.

(** The farthest position is offered first. *)
Lemma greedy_class_deepest (k : Continuation) (z : state) :
  forall s p, k (skip_class cl p s) = Some z -> greedy_class cl p s k = Some z.
Proof.
  induction s as [|c s IH]; intros p H; cbn [greedy_class skip_class] in *.
  - exact H.
  - destruct (class_matches cl c); [|exact H].
    now rewrite (IH _ H).
Qed.

(** When what follows cannot start on a code unit of the class, only the
    farthest position has a chance. *)
Lemma greedy_class_commit (k : Continuation) :
  (forall p c t, class_matches cl c = true -> k (State p (c :: t)) = None) ->
  forall s p, greedy_class cl p s k = k (skip_class cl p s).
Proof.
  intros Hk. induction s as [|c s IH]; intros p; cbn [greedy_class skip_class].
  - reflexivity.
  - destruct (class_matches cl c) eqn:E; [|reflexivity].
    rewrite IH. destruct (k (skip_class cl (Some c) s)); [reflexivity|].
    now apply Hk.
Qed.

(** The rest after a run is a suffix of the text, and the run is all of
    the class. *)
Lemma skip_class_split :
  forall s p, exists run,
    s = run ++ rest (skip_class cl p s)
    /\ (forall c, In c run -> class_matches cl c = true)
    /\ prev (skip_class cl p s) = last (map Some run) p
    /\ match rest (skip_class cl p s) with
       | c :: _ => class_matches cl c = false
       | [] => True
       end.
Proof.
  induction s as [|c s IH]; intros p; cbn [skip_class].
  - exists []. cbn. tauto.
  - destruct (class_matches cl c) eqn:E.
    + destruct (IH (Some c)) as (run & Hs & Hall & Hp & Hr).
      exists (c :: run). repeat split.
      * cbn [app]. now f_equal.
      * intros a [<-|Ha]; auto.
      * rewrite Hp. cbn [map]. destruct (map Some run) eqn:Em; [reflexivity|].
        change (last (o :: l) (Some c) = last (o :: l) p). apply last_cons_any.
      * exact Hr.
    + exists []. cbn. tauto.
Qed.

(** A run followed by a text that does not go on with the class is
    skipped exactly. *)
Lemma skip_class_run (w : jsstring) :
  match w with c :: _ => class_matches cl c = false | [] => True end ->
  forall run p, (forall c, In c run -> class_matches cl c = true) ->
    skip_class cl p (run ++ w) = State (last (map Some run) p) w.
Proof.
  intros Hw. induction run as [|c run IH]; intros p Hall.
  - cbn [app map last]. destruct w as [|c w]; [reflexivity|].
    cbn [skip_class]. now rewrite Hw.
  - cbn [app skip_class]. rewrite (Hall c (or_introl eq_refl)).
    rewrite IH by (intros a Ha; apply Hall; now right).
    cbn [map]. destruct (map Some run) eqn:Em; [reflexivity|].
    change (State (last (o :: l) (Some c)) w = State (last (o :: l) p) w).
    f_equal. apply last_cons_any.
Qed.

End ClassRuns.

Lemma compile_lits (l : jsstring) :
  forall x k, compile (lits l) x k = bind (expect_lits l x) k.
Proof.
  induction l as [|a l IH]; intros x k; [reflexivity|].
  cbn [lits expect_lits]. unfold lit.
  change (compile (Seq (Class (CChar a)) (lits l)) x k)
    with (compile (Class (CChar a)) x (fun y => compile (lits l) y k)).
  rewrite compile_class.
  destruct (expect_class (CChar a) x) as [y|]; [apply IH|reflexivity].
Qed.

Lemma class_any (c : char) : class_matches CAny c = true.
Proof. cbn. apply orb_negb_r. Qed.

Lemma repeat_free_lazy_any (k : Continuation) :
  forall fuel p s, length s <= fuel ->
    repeat_free (compile (Class CAny)) false fuel (State p s) k = lazy_any p s k.
Proof.
  induction fuel as [|fuel IH]; intros p s Hlen; rewrite repeat_free_eq;
    cbv zeta; rewrite compile_class; unfold expect_class; cbn [rest].
  - destruct s; [|simpl in Hlen; lia]. cbn [lazy_any bind].
    now destruct (k (State p [])).
  - destruct s as [|c s]; cbn [lazy_any bind].
    + now destruct (k (State p [])).
    + rewrite class_any. cbn [bind rest]. simpl length in *.
      replace (length s <? S (length s)) with true
        by (symmetry; apply Nat.ltb_lt; lia).
      rewrite IH by lia. reflexivity.
Qed.

(** *** The heading of an action block *)

Lemma space_not_digit (c : char) : is_space c = true -> is_digit c = false.
Proof.
  unfold is_space, is_digit. intros H.
  destruct (N.leb_spec 48 c); [|reflexivity].
  destruct (N.leb_spec c 57); [|reflexivity].
  exfalso.
  repeat rewrite orb_true_iff in H. repeat rewrite andb_true_iff in H.
  repeat rewrite N.eqb_eq in H. repeat rewrite N.leb_le in H. lia.
Qed.

Lemma space_not_char (a c : char) :
  is_space a = false -> is_space c = true -> (c =? a)%N = false.
Proof.
  intros Ha Hc. destruct (N.eqb_spec c a) as [->|]; congruence.
Qed.

Lemma bind_ext (o : option state) (f g : state -> option state) :
  (forall y, f y = g y) -> bind o f = bind o g.
Proof. intros H. destruct o; cbn; auto. Qed.

(** The numbered heading takes its hashes and its first run of spaces
    whole: what follows them cannot start on a hash or on a space. *)
Lemma compile_numberedHeading (x : state) (k : Continuation) :
  compile numberedHeading x k
  = bind (heading_dot x) (fun y => greedy_class CSpace (prev y) (rest y) k).
Proof.
  unfold numberedHeading, hashes, spaces, heading_dot, lit.
  rewrite compile_seq, compile_plus_class.
  destruct (expect_class (CChar hash) x) as [y0|]; [|reflexivity].
  cbn [bind].
  rewrite greedy_class_commit.
  2:{ intros p c t Hc. cbn [class_matches] in Hc. apply N.eqb_eq in Hc. subst c.
      rewrite compile_seq, compile_star_class. reflexivity. }
  rewrite compile_seq, compile_star_class.
  rewrite greedy_class_commit.
  2:{ intros p c t Hc. cbn [class_matches] in Hc.
      rewrite compile_seq, compile_class. unfold expect_class. cbn [rest].
      cbn [class_matches]. now rewrite (space_not_digit c Hc). }
  rewrite compile_seq, compile_class. unfold skip.
  destruct (skip_class (CChar hash) (prev y0) (rest y0)) as [p1 s1]. cbn [prev rest].
  destruct (expect_class CDigit (skip_class CSpace p1 s1)) as [y1|]; [|reflexivity].
  cbn [bind]. rewrite compile_seq. unfold lit. rewrite compile_class.
  apply bind_ext. intros y. apply compile_star_class.
Qed.

Lemma title_not_space : forall c t, is_space c = true ->
  expect_lits actionItemsTitle (State None (c :: t)) = None.
Proof.
  intros c t Hc. cbn [actionItemsTitle expect_lits expect_class rest class_matches].
  now rewrite (space_not_char 65%N c eq_refl Hc).
Qed.

Lemma expect_class_prev (cl : cclass) (p q : option char) (s : jsstring) :
  expect_class cl (State p s) = expect_class cl (State q s).
Proof. reflexivity. Qed.

Lemma expect_lits_cons_prev (a : char) (l s : jsstring) (p q : option char) :
  expect_lits (a :: l) (State p s) = expect_lits (a :: l) (State q s).
Proof. reflexivity. Qed.

(** The heading and the title of an action block are matched in one way
    only. *)
Lemma compile_heading_title (r : regex) (x : state) (k : Continuation) :
  compile (Seq numberedHeading (Seq (lits actionItemsTitle) r)) x k
  = bind (heading_title x) (fun y => compile r y k).
Proof.
  rewrite compile_seq, compile_numberedHeading. unfold heading_title.
  destruct (heading_dot x) as [y|]; [|reflexivity]. cbn [bind].
  rewrite greedy_class_commit.
  2:{ intros p c t Hc. cbn [class_matches] in Hc.
      rewrite compile_seq, compile_lits.
      change (expect_lits actionItemsTitle (State p (c :: t)))
        with (expect_lits actionItemsTitle (State None (c :: t))).
      now rewrite (title_not_space c t Hc). }
  rewrite compile_seq, compile_lits. reflexivity.
Qed.

Lemma at_block_end_nil (p : option char) : at_block_end (State p []) = true.
Proof. reflexivity. Qed.

Lemma lazy_any_block_end :
  forall s p,
    lazy_any p s (fun z => if at_block_end z then Some z else None)
    = Some (block_end p s).
Proof.
  induction s as [|c s IH]; intros p.
  - reflexivity.
  - cbn [lazy_any block_end].
    destruct (at_block_end (State p (c :: s))); [reflexivity|apply IH].
Qed.

Lemma lazy_any_ext (k k' : Continuation) :
  (forall z, k z = k' z) -> forall s p, lazy_any p s k = lazy_any p s k'.
Proof.
  intros H. induction s as [|c s IH]; intros p; cbn [lazy_any]; rewrite H.
  - reflexivity.
  - now rewrite IH.
Qed.

(** The action pattern matches wherever the heading and the title stand,
    and then runs to the next numbered heading or to the end. *)
Lemma compile_actionItemsRegex (x : state) :
  compile actionItemsRegex x (fun y => Some y)
  = bind (heading_title x) (fun y => Some (block_end (prev y) (rest y))).
Proof.
  unfold actionItemsRegex. rewrite compile_seq.
  change (compile (Group ?r) x ?k) with (compile r x k).
  rewrite compile_heading_title. apply bind_ext. intros [p s].
  unfold lazy_star_of. cbn [compile repeat_min rest prev].
  rewrite repeat_free_lazy_any by lia.
  rewrite <- lazy_any_block_end. apply lazy_any_ext.
  intros z. unfold at_block_end. cbn [compile].
  destruct (compile numberedHeading z _); [reflexivity|].
  now destruct (rest z).
Qed.

Lemma match_here_actionItemsRegex (p : option char) (s : jsstring) :
  match_here actionItemsRegex p s
  = match heading_title (State p s) with
    | Some y => Some (length s - length (rest (block_end (prev y) (rest y))))
    | None => None
    end.
Proof.
  unfold match_here. rewrite compile_actionItemsRegex.
  now destruct (heading_title (State p s)).
Qed.

Lemma expect_class_inv (cl : cclass) (x y : state) :
  expect_class cl x = Some y ->
  exists c, rest x = c :: rest y /\ class_matches cl c = true /\ prev y = Some c.
Proof.
  unfold expect_class. destruct (rest x) as [|c t]; [discriminate|].
  destruct (class_matches cl c) eqn:E; [|discriminate].
  intros [= <-]. exists c. auto.
Qed.

Lemma expect_lits_inv (l : jsstring) :
  forall x y, expect_lits l x = Some y -> rest x = l ++ rest y.
Proof.
  induction l as [|a l IH]; intros x y H; cbn [expect_lits] in H.
  - now injection H as ->.
  - destruct (expect_class (CChar a) x) as [x'|] eqn:E; [|discriminate].
    apply expect_class_inv in E. destruct E as (c & Hx & Hc & _).
    cbn [class_matches] in Hc. apply N.eqb_eq in Hc. subst c.
    rewrite Hx. cbn [app]. f_equal. now apply IH.
Qed.

Lemma expect_lits_app (l w : jsstring) :
  forall p, exists q, expect_lits l (State p (l ++ w)) = Some (State q w).
Proof.
  induction l as [|a l IH]; intros p.
  - exists p. reflexivity.
  - cbn [expect_lits app expect_class rest class_matches].
    rewrite N.eqb_refl. apply IH.
Qed.

Lemma digit_not_space (d : char) : is_digit d = true -> is_space d = false.
Proof.
  intros H. destruct (is_space d) eqn:E; [|reflexivity].
  rewrite (space_not_digit d E) in H. discriminate.
Qed.

Lemma digit_not_hash (d : char) : is_digit d = true -> (d =? hash)%N = false.
Proof.
  intros H. destruct (N.eqb_spec d hash) as [->|]; [discriminate|reflexivity].
Qed.

Lemma space_not_hash (c : char) : is_space c = true -> (c =? hash)%N = false.
Proof. apply space_not_char. reflexivity. Qed.

(** Where the heading of an action block matches, the text starts with
    one of the headings. *)
Lemma heading_title_inv (x y : state) :
  heading_title x = Some y ->
  exists h, rest x = h ++ rest y /\ is_action_heading h.
Proof.
  unfold heading_title, heading_dot, skip. intros H.
  destruct (expect_class (CChar hash) x) as [y0|] eqn:E0; [|discriminate].
  cbn [bind] in H.
  apply expect_class_inv in E0. destruct E0 as (c0 & Hx & Hc0 & _).
  cbn [class_matches] in Hc0. apply N.eqb_eq in Hc0. subst c0.
  destruct (skip_class_split (CChar hash) (rest y0) (prev y0))
    as (hs & Hhs & Hall1 & _ & _).
  destruct (skip_class (CChar hash) (prev y0) (rest y0)) as [p1 s1].
  cbn [prev rest] in *.
  destruct (skip_class_split CSpace s1 p1) as (w1 & Hw1 & Hall2 & _ & _).
  destruct (expect_class CDigit (skip_class CSpace p1 s1)) as [y1|] eqn:E1;
    [|discriminate].
  cbn [bind] in H.
  apply expect_class_inv in E1. destruct E1 as (d & Hd & Hdig & _).
  cbn [class_matches] in Hdig.
  destruct (expect_class (CChar dot) y1) as [y2|] eqn:E2; [|discriminate].
  cbn [bind] in H.
  apply expect_class_inv in E2. destruct E2 as (c2 & Hdot & Hc2 & _).
  cbn [class_matches] in Hc2. apply N.eqb_eq in Hc2. subst c2.
  destruct (skip_class_split CSpace (rest y2) (prev y2)) as (w2 & Hw2 & Hall3 & _ & _).
  apply expect_lits_inv in H.
  exists (hash :: hs ++ w1 ++ d :: dot :: w2 ++ actionItemsTitle). split.
  - rewrite Hx, Hhs, Hw1, Hd, Hdot, Hw2, H.
    cbn [app]. f_equal. repeat rewrite <- app_assoc. cbn [app].
    now rewrite <- (app_assoc w2 actionItemsTitle (rest y)).
  - exists hs, w1, d, w2. auto.
Qed.

(** And every text that starts with one of the headings is matched, up to
    the end of the heading, whatever comes before and after. *)
Lemma heading_title_intro (h : jsstring) :
  is_action_heading h ->
  forall p w, exists q, heading_title (State p (h ++ w)) = Some (State q w).
Proof.
  intros (hs & w1 & d & w2 & -> & Hall1 & Hall2 & Hdig & Hall3) p w.
  unfold heading_title, heading_dot, skip.
  cbn [app expect_class rest class_matches]. rewrite N.eqb_refl.
  cbn [bind prev rest].
  repeat rewrite <- app_assoc. cbn [app]. repeat rewrite <- app_assoc.
  rewrite (skip_class_run (CChar hash)
             (w1 ++ d :: dot :: w2 ++ actionItemsTitle ++ w)).
  2:{ destruct w1 as [|c w1]; cbn [app class_matches].
      - now apply digit_not_hash.
      - apply space_not_hash. apply Hall2. now left. }
  2: exact Hall1.
  cbn [prev rest].
  rewrite (skip_class_run CSpace (d :: dot :: w2 ++ actionItemsTitle ++ w)).
  2:{ cbn [class_matches]. now apply digit_not_space. }
  2: exact Hall2.
  cbn [expect_class rest class_matches]. rewrite Hdig.
  cbn [bind expect_class rest class_matches]. rewrite N.eqb_refl.
  cbn [bind prev rest].
  rewrite (skip_class_run CSpace (actionItemsTitle ++ w)).
  2: reflexivity.
  2: exact Hall3.
  apply expect_lits_app.
Qed.

(** The action pattern does not look at what stands before the position
    it is tried at. *)
Lemma actionItemsRegex_matches_prefix (p q : option char) (u b w : jsstring) (n : nat) :
  match_here actionItemsRegex p u = Some n ->
  firstn n u = b ->
  match_here actionItemsRegex q (b ++ w) <> None.
Proof.
  rewrite !match_here_actionItemsRegex. intros H Hb.
  destruct (heading_title (State p u)) as [y|] eqn:E; [|discriminate].
  injection H as Hn.
  apply heading_title_inv in E. destruct E as (h & Hu & Hh). cbn [rest] in Hu.
  assert (Hsuf : exists a, rest y = a ++ rest (block_end (prev y) (rest y))).
  { generalize (prev y) as p0. generalize (rest y) as s0.
    induction s0 as [|c s0 IH]; intros p0; cbn [block_end].
    - exists []. now destruct (at_block_end _).
    - destruct (at_block_end _); [now exists []|].
      destruct (IH (Some c)) as [a Ha]. exists (c :: a). cbn [app]. now f_equal. }
  destruct Hsuf as [a Ha].
  assert (Hbh : b = h ++ a).
  { rewrite <- Hb, <- Hn. remember (rest (block_end (prev y) (rest y))) as e.
    rewrite Hu, Ha. rewrite app_assoc, length_app.
    replace (length (h ++ a) + length e - length e) with (length (h ++ a) + 0)
      by lia.
    rewrite firstn_app_2. cbn [firstn]. now rewrite app_nil_r. }
  rewrite Hbh, <- app_assoc.
  destruct (heading_title_intro h Hh q (a ++ w)) as [q' ->]. discriminate.
Qed.

(** *** The first action block, and only the first *)

Lemma starts_with_app (b w : jsstring) : starts_with b (b ++ w) = true.
Proof.
  induction b as [|a b IH]; [reflexivity|].
  cbn [app starts_with]. now rewrite N.eqb_refl.
Qed.

Lemma starts_with_inv (b : jsstring) :
  forall u, starts_with b u = true -> u = b ++ skipn (length b) u.
Proof.
  induction b as [|a b IH]; intros u H; [reflexivity|].
  destruct u as [|c u]; [discriminate|].
  cbn [starts_with] in H. apply andb_true_iff in H. destruct H as [Hc H].
  apply N.eqb_eq in Hc. subst c. cbn. f_equal. now apply IH.
Qed.

Lemma index_of_eq (sub s : jsstring) :
  index_of sub s =
  if starts_with sub s then Some 0
  else match s with
       | [] => None
       | _ :: s' => option_map S (index_of sub s')
       end.
Proof. destruct s; reflexivity. Qed.

Lemma index_of_first (b u : jsstring) :
  starts_with b u = true ->
  forall pre,
    (forall pre1 pre2, pre = pre1 ++ pre2 -> pre2 <> [] ->
                       starts_with b (pre2 ++ u) = false) ->
    index_of b (pre ++ u) = Some (length pre).
Proof.
  intros Hu. induction pre as [|c pre IH]; intros Hpre.
  - cbn [app length]. rewrite index_of_eq. now rewrite Hu.
  - rewrite index_of_eq.
    rewrite (Hpre [] (c :: pre) eq_refl) by discriminate.
    cbn [app]. rewrite IH; [reflexivity|].
    intros pre1 pre2 -> Hne. now apply (Hpre (c :: pre1) pre2).
Qed.

Lemma match_here_bound (r : regex) (p : option char) (s : jsstring) (n : nat) :
  match_here r p s = Some n -> n <= length s.
Proof.
  unfold match_here. destruct (compile r (State p s) _); [|discriminate].
  intros [= <-]. lia.
Qed.

(** [exec] returns the leftmost match: the pattern fails at every earlier
    position. *)
Lemma exec_from_inv (r : regex) :
  forall s p i0 i b,
    exec_from r p s i0 = Some (i, b) ->
    exists pre u q n,
      s = pre ++ u /\ i = i0 + length pre
      /\ match_here r q u = Some n /\ b = firstn n u
      /\ forall pre1 pre2, pre = pre1 ++ pre2 -> pre2 <> [] ->
           exists q', match_here r q' (pre2 ++ u) = None.
Proof.
  induction s as [|c s IH]; intros p i0 i b H; cbn [exec_from] in H.
  - destruct (match_here r p []) as [n|] eqn:E; [|discriminate].
    injection H as <- <-. exists [], [], p, n. repeat split; auto.
    intros pre1 pre2 Hpre Hne. destruct pre1, pre2; try discriminate. contradiction.
  - destruct (match_here r p (c :: s)) as [n|] eqn:E.
    + injection H as <- <-. exists [], (c :: s), p, n.
      repeat split; auto.
      intros pre1 pre2 Hpre Hne. destruct pre1, pre2; try discriminate. contradiction.
    + apply IH in H. destruct H as (pre & u & q & n & -> & -> & Hm & -> & Hearlier).
      exists (c :: pre), u, q, n. repeat split; auto; try (cbn [length]; lia).
      intros pre1 pre2 Hpre Hne. destruct pre1 as [|c1 pre1].
      * cbn [app] in Hpre. subst pre2. exists p. exact E.
      * injection Hpre as <- ->. exact (Hearlier pre1 pre2 eq_refl Hne).
Qed.

Lemma actionItemsRegex_prev (p q : option char) (u : jsstring) :
  match_here actionItemsRegex p u = None ->
  match_here actionItemsRegex q u = None.
Proof.
  intros H. destruct (match_here actionItemsRegex q u) as [n|] eqn:E;
    [|reflexivity].
  exfalso.
  apply (actionItemsRegex_matches_prefix q p u (firstn n u) (skipn n u) n E eq_refl).
  now rewrite firstn_skipn.
Qed.

(** The text [exec] finds does not occur earlier in the summary: it would
    have been found there. *)
Lemma action_block_first_occurrence (s b : jsstring) (i : nat) :
  exec actionItemsRegex s = Some (i, b) ->
  exists before after,
    s = before ++ b ++ after /\ length before = i
    /\ index_of b s = Some i
    /\ forall pre1 pre2 p, before = pre1 ++ pre2 -> pre2 <> [] ->
         match_here actionItemsRegex p (pre2 ++ b ++ after) = None.
Proof.
  intros H. apply exec_from_inv in H.
  destruct H as (pre & u & q & n & -> & -> & Hm & -> & Hearlier).
  exists pre, (skipn n u).
  assert (Hu : u = firstn n u ++ skipn n u) by (symmetry; apply firstn_skipn).
  rewrite <- Hu. repeat split; auto.
  - apply index_of_first.
    + rewrite Hu at 2. apply starts_with_app.
    + intros pre1 pre2 Hpre Hne.
      destruct (starts_with (firstn n u) (pre2 ++ u)) eqn:Es; [|reflexivity].
      exfalso. destruct (Hearlier pre1 pre2 Hpre Hne) as [q' Hq'].
      apply starts_with_inv in Es.
      apply (actionItemsRegex_matches_prefix q q' u (firstn n u)
               (skipn (length (firstn n u)) (pre2 ++ u)) n Hm eq_refl).
      now rewrite <- Es.
  - intros pre1 pre2 p Hpre Hne.
    destruct (Hearlier pre1 pre2 Hpre Hne) as [q' Hq'].
    now apply (actionItemsRegex_prev q').
Qed.

Lemma replace_string_at (b x before after : jsstring) :
  index_of b (before ++ b ++ after) = Some (length before) ->
  replace_string b x (before ++ b ++ after)
  = before ++ get_substitution b before after x ++ after.
Proof.
  intros H. unfold replace_string. rewrite H.
  rewrite firstn_app, firstn_all, Nat.sub_diag. cbn [firstn]. rewrite app_nil_r.
  rewrite skipn_app.
  replace (length before + length b - length before) with (length b) by lia.
  rewrite (skipn_all2 before) by lia. cbn [app].
  rewrite skipn_app, skipn_all, Nat.sub_diag. reflexivity.
Qed.

(** C7: of the action blocks of a summary only the first, in text order,
    is looked at for a table: the pattern matches nowhere before it, and
    what stands after it, later action blocks included, goes unchanged
    into the cleanup of lines 175-180.  In its place stands either the
    block itself or the list made of its table. *)
Theorem only_first_block_reformatted (s b : jsstring) (i : nat) :
  exec actionItemsRegex s = Some (i, b) ->
  exists before after x,
    s = before ++ b ++ after /\ length before = i
    /\ (forall pre1 pre2 p, before = pre1 ++ pre2 -> pre2 <> [] ->
          match_here actionItemsRegex p (pre2 ++ b ++ after) = None)
    /\ reformat_action_items s = Returned (before ++ x ++ after)
    /\ formatSummary (Str s) = Returned (cleanup (before ++ x ++ after))
    /\ (x = b
        \/ exists t, parse_table b = Returned (Some t)
                     /\ x = get_substitution b before after (new_content t)).
Proof.
  intros H.
  destruct (action_block_first_occurrence s b i H)
    as (before & after & Hs & Hlen & Hidx & Hearlier).
  assert (Hr : exists x,
             reformat_action_items s = Returned (before ++ x ++ after)
             /\ (x = b \/ exists t, parse_table b = Returned (Some t)
                      /\ x = get_substitution b before after (new_content t))).
  { unfold reformat_action_items, action_block. rewrite H.
    destruct (truthy b && includes [pipe] b).
    - destruct (parse_table_returns b) as [[t|] Ht]; rewrite Ht.
      + exists (get_substitution b before after (new_content t)). split; [|eauto].
        f_equal. rewrite Hs at 1. apply replace_string_at.
        rewrite <- Hs, Hlen. exact Hidx.
      + exists b. rewrite <- Hs. auto.
    - exists b. rewrite <- Hs. auto. }
  destruct Hr as (x & Hr & Hx).
  exists before, after, x. repeat split; auto.
  unfold formatSummary. rewrite Hr.
  destruct s; [|reflexivity].
  destruct before; [|discriminate]. destruct b; [|discriminate].
  vm_compute in H. discriminate.
Qed.

Lemma only_first_block_reformatted_witness :
  exec actionItemsRegex Samples.twoBlocks = Some (0, Samples.filledBlock ++ [nl])
  /\ (exists x, formatSummary (Str Samples.twoBlocks)
                = Returned (cleanup (x ++ Samples.secondBlock)))
  /\ formatSummary (Str Samples.twoBlocks)
     = Returned (Samples.unlines
                   [Samples.titleLine; [];
                    Samples.taskFixBug; Samples.ownerAlice; [];
                    Samples.taskWriteDocs; Samples.ownerBob;
                    Samples.titleLine; Samples.rowHeader;
                    Samples.rowSeparator; Samples.rowCarol]).
Proof.
  split; [vm_compute; reflexivity|]. split; [|vm_compute; reflexivity].
  destruct (only_first_block_reformatted
              Samples.twoBlocks (Samples.filledBlock ++ [nl]) 0)
    as (before & after & x & Hs & Hlen & _ & _ & Hf & _);
    [vm_compute; reflexivity|].
  destruct before; [|discriminate Hlen]. cbn [app] in Hs, Hf.
  change Samples.twoBlocks
    with ((Samples.filledBlock ++ [nl]) ++ Samples.secondBlock) in Hs.
  apply app_inv_head in Hs. subst after.
  exists x. exact Hf.
Defined.

(** *** Runs of blank lines *)

Lemma nl_is_space (c : char) : (c =? nl)%N = true -> is_space c = true.
Proof. intros H. apply N.eqb_eq in H. now subst c. Qed.

Lemma not_space_not_nl (c : char) : is_space c = false -> (c =? nl)%N = false.
Proof.
  intros H. destruct (c =? nl)%N eqn:E; [|reflexivity].
  now rewrite (nl_is_space c E) in H.
Qed.

Lemma skip_class_space_rest (s : jsstring) (p : option char) :
  rest (skip_class CSpace p s) = drop_while is_space s.
Proof.
  revert p. induction s as [|c s IH]; intros p; [reflexivity|].
  cbn [skip_class drop_while class_matches].
  destruct (is_space c); [apply IH|reflexivity].
Qed.

Lemma drop_while_length (f : char -> bool) (s : jsstring) :
  length (drop_while f s) <= length s.
Proof.
  induction s as [|c s IH]; cbn [drop_while length]; [lia|].
  destruct (f c); cbn [length]; lia.
Qed.

(** One iteration of [blankRun]: a newline, then whitespace. *)
Lemma compile_line_break (x : state) (k : Continuation) :
  compile (Group (Seq (lit nl) spaces)) x k
  = bind (expect_class (CChar nl) x)
         (fun y => greedy_class CSpace (prev y) (rest y) k).
Proof.
  change (compile (Group ?r) x k) with (compile r x k).
  rewrite compile_seq. unfold lit. rewrite compile_class.
  apply bind_ext. intros y. apply compile_star_class.
Qed.

(** The optional iterations after the third: from a newline on, the rest
    of the run of whitespace. *)
Lemma blank_run_free :
  forall fuel x, length (rest x) <= fuel ->
    repeat_free (compile (Group (Seq (lit nl) spaces))) true fuel x
                (fun y => Some y)
    = Some (if starts_nl (rest x) then skip CSpace x else x).
Proof.
  induction fuel as [|fuel IH]; intros [p s] Hlen; cbn [rest] in Hlen;
    rewrite repeat_free_eq; cbv zeta; rewrite compile_line_break;
    unfold expect_class, skip; cbn [rest prev].
  - destruct s; [reflexivity|simpl in Hlen; lia].
  - destruct s as [|c s]; [reflexivity|].
    cbn [class_matches starts_nl]. destruct (c =? nl)%N eqn:Ec; [|reflexivity].
    cbn [bind prev rest].
    cbn [skip_class class_matches]. rewrite (nl_is_space c Ec).
    rewrite (greedy_class_deepest CSpace _ (skip_class CSpace (Some c) s));
      [reflexivity|].
    pose proof (skip_class_space_rest s (Some c)) as Hrest.
    pose proof (drop_while_length is_space s) as Hdl.
    destruct (skip_class_split CSpace s (Some c)) as (_ & _ & _ & _ & Hstop).
    cbn [rest length] in *.
    replace (length (rest (skip_class CSpace (Some c) s)) <? S (length s))
      with true by (symmetry; apply Nat.ltb_lt; rewrite Hrest; lia).
    rewrite IH by (rewrite Hrest; lia).
    destruct (rest (skip_class CSpace (Some c) s)) as [|c' t] eqn:Er;
      [reflexivity|].
    cbn [starts_nl]. cbn [class_matches] in Hstop.
    now rewrite (not_space_not_nl c' Hstop).
Qed.

(** Backing off through the whitespace after a newline, with [n] more
    iterations to fit in. *)
Lemma greedy_space_blank_run (k : Continuation) (n : nat) :
  1 <= n ->
  (forall y, k y = blank_run_from n y) ->
  forall s p,
    greedy_class CSpace p s k
    = if n <=? leading_newlines s then Some (skip_class CSpace p s) else None.
Proof.
  intros Hn Hk. induction s as [|c s IH]; intros p.
  - cbn [greedy_class leading_newlines]. rewrite Hk. unfold blank_run_from.
    cbn [rest starts_nl andb].
    destruct (Nat.leb_spec n 0); [lia|reflexivity].
  - cbn [greedy_class skip_class leading_newlines class_matches].
    destruct (is_space c) eqn:Es.
    + rewrite IH. destruct (Nat.leb_spec n (leading_newlines s)) as [Hle|Hgt].
      * destruct (Nat.leb_spec n ((if (c =? nl)%N then 1 else 0) + leading_newlines s));
          [reflexivity|lia].
      * rewrite Hk. unfold blank_run_from, skip.
        cbn [rest prev starts_nl leading_newlines skip_class class_matches].
        rewrite Es. destruct (c =? nl)%N; [reflexivity|].
        cbn [andb plus].
        destruct (Nat.leb_spec n (leading_newlines s)); [lia|reflexivity].
    + rewrite Hk. unfold blank_run_from. cbn [rest starts_nl leading_newlines].
      rewrite Es, (not_space_not_nl c Es). cbn [andb].
      destruct (Nat.leb_spec n 0); [lia|reflexivity].
Qed.

Lemma line_break_blank_run (k : Continuation) (n : nat) :
  1 <= n ->
  (forall y, k y = blank_run_from n y) ->
  forall x,
    compile (Group (Seq (lit nl) spaces)) x k = blank_run_from (S n) x.
Proof.
  intros Hn Hk [p s]. rewrite compile_line_break.
  unfold expect_class, blank_run_from, skip. cbn [rest prev].
  destruct s as [|c s]; [reflexivity|].
  cbn [class_matches starts_nl]. destruct (c =? nl)%N eqn:Ec; [|reflexivity].
  cbn [bind prev rest andb]. rewrite (greedy_space_blank_run k n Hn Hk).
  cbn [leading_newlines skip_class class_matches].
  rewrite (nl_is_space c Ec), Ec.
  change (S n <=? 1 + leading_newlines s) with (n <=? leading_newlines s).
  reflexivity.
Qed.

Lemma line_break_last (x : state) :
  compile (Group (Seq (lit nl) spaces)) x
          (fun y => repeat_free (compile (Group (Seq (lit nl) spaces))) true
                                (length (rest y)) y (fun z => Some z))
  = blank_run_from 1 x.
Proof.
  destruct x as [p s]. rewrite compile_line_break.
  unfold expect_class, blank_run_from, skip. cbn [rest prev].
  destruct s as [|c s]; [reflexivity|].
  cbn [class_matches starts_nl]. destruct (c =? nl)%N eqn:Ec; [|reflexivity].
  cbn [bind prev rest andb leading_newlines skip_class class_matches].
  rewrite (nl_is_space c Ec), Ec. cbn [Nat.leb plus].
  apply greedy_class_deepest.
  rewrite blank_run_free by lia.
  destruct (skip_class_split CSpace s (Some c)) as (_ & _ & _ & _ & Hstop).
  destruct (rest (skip_class CSpace (Some c) s)) as [|c' t] eqn:Er;
    [reflexivity|].
  cbn [starts_nl]. cbn [class_matches] in Hstop.
  now rewrite (not_space_not_nl c' Hstop).
Qed.

Lemma compile_repeat_three (r : regex) (x : state) (k : Continuation) :
  compile (Repeat 3 true r) x k
  = compile r x (fun y1 => compile r y1 (fun y2 => compile r y2 (fun y3 =>
      repeat_free (compile r) true (length (rest y3)) y3 k))).
Proof. reflexivity. Qed.

(** [blankRun] matches a whole run of whitespace that starts with a
    newline and holds three newlines or more, and nothing else. *)
Lemma match_here_blankRun (p : option char) (s : jsstring) :
  match_here blankRun p s = blank_run_length s.
Proof.
  unfold match_here, blankRun. rewrite compile_repeat_three.
  rewrite (line_break_blank_run _ 2); [|lia|].
  2:{ intros y. apply (line_break_blank_run _ 1); [lia|].
      intros y'. apply line_break_last. }
  unfold blank_run_from, blank_run_length, skip. cbn [rest prev].
  destruct (starts_nl s && (3 <=? leading_newlines s)); [|reflexivity].
  now rewrite skip_class_space_rest.
Qed.

(** *** Line 179 on a whole text *)

Lemma condense_from_prev (repl : jsstring) (s : jsstring) (k : nat)
      (p q : option char) :
  replace_all_from blankRun repl p s k = replace_all_from blankRun repl q s k.
Proof.
  destruct k as [|k]; destruct s as [|c s]; cbn [replace_all_from];
    rewrite ?match_here_blankRun; reflexivity.
Qed.

Lemma condense_from_skip (repl : jsstring) :
  forall k s p, k <= length s ->
    replace_all_from blankRun repl p s k
    = replace_all_from blankRun repl None (skipn k s) 0.
Proof.
  induction k as [|k IH]; intros s p Hk.
  - cbn [skipn]. apply condense_from_prev.
  - destruct s as [|c s]; [simpl in Hk; lia|].
    cbn [replace_all_from skipn]. apply IH. simpl in Hk. lia.
Qed.

Lemma drop_while_skipn (f : char -> bool) (s : jsstring) :
  skipn (length s - length (drop_while f s)) s = drop_while f s.
Proof.
  induction s as [|c s IH]; [reflexivity|].
  cbn [drop_while]. destruct (f c).
  - pose proof (drop_while_length f s).
    replace (length (c :: s) - length (drop_while f s))
      with (S (length s - length (drop_while f s))) by (cbn [length]; lia).
    cbn [skipn]. exact IH.
  - now rewrite Nat.sub_diag.
Qed.

Lemma drop_while_head (f : char -> bool) (s : jsstring) :
  match drop_while f s with
  | c :: _ => f c = false
  | [] => True
  end.
Proof.
  induction s as [|c s IH]; cbn [drop_while]; [exact I|].
  destruct (f c) eqn:E; [exact IH|exact E].
Qed.

(** Where [blankRun] does not match, the code unit is kept. *)
Lemma condense_keep (c : char) (s : jsstring) :
  blank_run_length (c :: s) = None ->
  condense_newlines (c :: s) = c :: condense_newlines s.
Proof.
  intros H. unfold condense_newlines, replace_all. cbn [replace_all_from].
  rewrite match_here_blankRun, H. f_equal. apply condense_from_prev.
Qed.

(** Where it matches, two newlines stand for the whole run of
    whitespace. *)
Lemma condense_collapse (s : jsstring) (n : nat) :
  blank_run_length s = Some n ->
  condense_newlines s = nl :: nl :: condense_newlines (drop_while is_space s).
Proof.
  intros H. pose proof H as H'. unfold blank_run_length in H.
  destruct (starts_nl s && (3 <=? leading_newlines s)) eqn:E; [|discriminate].
  injection H as Hn.
  apply andb_true_iff in E. destruct E as [Hnl _].
  destruct s as [|c s]; [discriminate|]. cbn [starts_nl] in Hnl.
  unfold condense_newlines, replace_all. cbn [replace_all_from].
  rewrite match_here_blankRun, H'.
  pose proof (drop_while_skipn is_space (c :: s)) as Hskip.
  cbn [drop_while] in *. rewrite (nl_is_space c Hnl) in *.
  pose proof (drop_while_length is_space s) as Hlen.
  replace (length (c :: s) - length (drop_while is_space s))
    with (S (length s - length (drop_while is_space s))) in *
    by (cbn [length]; lia).
  subst n. cbn [skipn] in Hskip. cbn [app].
  rewrite condense_from_skip by lia. now rewrite Hskip.
Qed.

Lemma condense_nil : condense_newlines [] = [].
Proof. reflexivity. Qed.

Lemma blank_run_length_not_nl (c : char) (s : jsstring) :
  (c =? nl)%N = false -> blank_run_length (c :: s) = None.
Proof. intros H. unfold blank_run_length. cbn [starts_nl]. now rewrite H. Qed.

(** After a text that does not start with whitespace, neither does what
    line 179 makes of it. *)
Lemma condense_head (s : jsstring) :
  match s with c :: _ => is_space c = false | [] => True end ->
  leading_newlines (condense_newlines s) = 0.
Proof.
  destruct s as [|c s]; intros H; [reflexivity|].
  rewrite condense_keep by (apply blank_run_length_not_nl; now apply not_space_not_nl).
  cbn [leading_newlines]. now rewrite H.
Qed.

Lemma blank_run_length_cases (s : jsstring) :
  (exists n, blank_run_length s = Some n
             /\ starts_nl s = true /\ 3 <= leading_newlines s)
  \/ (blank_run_length s = None
      /\ (starts_nl s = false \/ leading_newlines s < 3)).
Proof.
  unfold blank_run_length. destruct (starts_nl s) eqn:E1; cbn [andb].
  - destruct (Nat.leb_spec 3 (leading_newlines s)); [left|right]; eauto.
  - right. auto.
Qed.

Lemma condense_leading_newlines (s : jsstring) :
  leading_newlines (condense_newlines s) <= leading_newlines s.
Proof.
  induction s as [|c s IH]; [reflexivity|].
  destruct (blank_run_length_cases (c :: s)) as [(n & Hn & _ & H3)|[Hn _]].
  - rewrite (condense_collapse _ n Hn).
    change (leading_newlines (nl :: nl :: ?x)) with (1 + (1 + leading_newlines x)).
    rewrite condense_head by apply drop_while_head. lia.
  - rewrite (condense_keep c s Hn). cbn [leading_newlines].
    destruct (is_space c); lia.
Qed.

(** After line 179 [blankRun] matches nowhere. *)
Lemma condense_no_blank_run (s : jsstring) : no_blank_run (condense_newlines s).
Proof.
  remember (length s) as n eqn:Hn.
  assert (Hle : length s <= n) by lia. clear Hn. revert s Hle.
  induction n as [|n IH]; intros s Hle.
  - destruct s; [|simpl in Hle; lia]. cbn. auto.
  - destruct s as [|c s]; [cbn; auto|].
    destruct (blank_run_length_cases (c :: s)) as [(m & Hm & Hnl & H3)|[Hm Hor]].
    + rewrite (condense_collapse _ m Hm).
      assert (H0 : leading_newlines (condense_newlines (drop_while is_space (c :: s))) = 0)
        by (apply condense_head, drop_while_head).
      assert (Hrec : no_blank_run (condense_newlines (drop_while is_space (c :: s)))).
      { apply IH. cbn [starts_nl] in Hnl. cbn [drop_while].
        rewrite (nl_is_space c Hnl).
        pose proof (drop_while_length is_space s). simpl in Hle. lia. }
      cbn [no_blank_run]. repeat split; auto.
      * unfold blank_run_length.
        change (leading_newlines (nl :: nl :: ?x)) with (1 + (1 + leading_newlines x)).
        rewrite H0. reflexivity.
      * unfold blank_run_length.
        change (leading_newlines (nl :: ?x)) with (1 + leading_newlines x).
        rewrite H0. reflexivity.
    + rewrite (condense_keep c s Hm). cbn [no_blank_run]. split.
      * unfold blank_run_length. cbn [starts_nl].
        destruct (c =? nl)%N eqn:Ec; [|reflexivity]. cbn [andb].
        destruct Hor as [Hor|Hor]; [cbn [starts_nl] in Hor; congruence|].
        pose proof (condense_leading_newlines s) as Hl.
        cbn [leading_newlines] in Hor |- *.
        rewrite (nl_is_space c Ec), Ec in *.
        destruct (Nat.leb_spec 3 (1 + leading_newlines (condense_newlines s)));
          [lia|reflexivity].
      * apply IH. simpl in Hle. lia.
Qed.

Lemma condense_fixed (s : jsstring) : no_blank_run s -> condense_newlines s = s.
Proof.
  induction s as [|c s IH]; intros H; [reflexivity|].
  cbn [no_blank_run] in H. destruct H as [H1 H2].
  rewrite (condense_keep c s H1). f_equal. now apply IH.
Qed.

Lemma no_blank_run_no_three_newlines (s : jsstring) :
  no_blank_run s -> includes [nl; nl; nl] s = false.
Proof.
  induction s as [|c s IH]; intros H; [reflexivity|].
  cbn [no_blank_run] in H. destruct H as [H1 H2].
  cbn [includes]. rewrite (IH H2), orb_false_r.
  destruct (starts_with [nl; nl; nl] (c :: s)) eqn:E; [|reflexivity].
  exfalso. apply starts_with_inv in E. rewrite E in H1.
  cbn in H1. discriminate.
Qed.

(** *** Trimming *)

Lemma drop_while_split (f : char -> bool) (s : jsstring) :
  exists run, s = run ++ drop_while f s /\ forall c, In c run -> f c = true.
Proof.
  induction s as [|c s IH]; cbn [drop_while].
  - exists []. split; [reflexivity|intros c []].
  - destruct (f c) eqn:E.
    + destruct IH as (run & Hs & Hall). exists (c :: run). split.
      * cbn [app]. now f_equal.
      * intros a [<-|Ha]; auto.
    + exists []. split; [reflexivity|intros a []].
Qed.

Lemma drop_while_fixed (f : char -> bool) (s : jsstring) :
  match s with c :: _ => f c = false | [] => True end -> drop_while f s = s.
Proof. destruct s as [|c s]; [reflexivity|]. cbn [drop_while]. now intros ->. Qed.

Lemma ends_tight_snoc (u : jsstring) (c : char) :
  is_space c = false -> ends_tight (u ++ [c]).
Proof.
  intros H. induction u as [|a u IH]; [exact H|].
  cbn [app]. destruct (u ++ [c]) eqn:E; [now destruct u|exact IH].
Qed.

(** [trim_end] cuts a tail of whitespace and leaves a text that does not
    end on whitespace. *)
Lemma trim_end_split (s : jsstring) :
  exists tail,
    s = trim_end s ++ tail
    /\ (forall c, In c tail -> is_space c = true)
    /\ ends_tight (trim_end s)
    /\ trim_end (trim_end s) = trim_end s.
Proof.
  unfold trim_end.
  destruct (drop_while_split is_space (rev s)) as (run & Hs & Hall).
  pose proof (drop_while_head is_space (rev s)) as Hhead.
  exists (rev run). repeat split.
  - rewrite <- rev_app_distr, <- Hs. now rewrite rev_involutive.
  - intros c Hc. apply Hall. now apply In_rev.
  - destruct (drop_while is_space (rev s)) as [|c r]; [exact I|].
    cbn [rev]. now apply ends_tight_snoc.
  - rewrite rev_involutive. now rewrite drop_while_fixed.
Qed.

Lemma trim_idempotent (s : jsstring) : trim (trim s) = trim s.
Proof.
  unfold trim.
  destruct (trim_end_split (trim_start s)) as (tail & Hs & _ & _ & Hfix).
  assert (Hstart : trim_start (trim_end (trim_start s)) = trim_end (trim_start s)).
  { unfold trim_start at 1. apply drop_while_fixed.
    pose proof (drop_while_head is_space s) as Hhead.
    fold (trim_start s) in Hhead. rewrite Hs in Hhead.
    now destruct (trim_end (trim_start s)). }
  now rewrite Hstart.
Qed.

Lemma leading_newlines_tight (tail : jsstring) :
  forall s, s <> [] -> ends_tight s ->
    leading_newlines (s ++ tail) = leading_newlines s.
Proof.
  induction s as [|c s IH]; intros Hne Ht; [contradiction|].
  destruct s as [|c2 s].
  - cbn [ends_tight] in Ht. cbn [app leading_newlines]. now rewrite Ht.
  - cbn [app leading_newlines]. destruct (is_space c); [|reflexivity].
    f_equal. apply IH; [discriminate|exact Ht].
Qed.

Lemma no_blank_run_suffix (a u : jsstring) : no_blank_run (a ++ u) -> no_blank_run u.
Proof.
  induction a as [|c a IH]; [auto|].
  cbn [app no_blank_run]. intros [_ H]. auto.
Qed.

Lemma no_blank_run_tight (tail : jsstring) :
  forall s, ends_tight s -> no_blank_run (s ++ tail) -> no_blank_run s.
Proof.
  induction s as [|c s IH]; intros Ht H.
  - cbn. auto.
  - cbn [app no_blank_run] in H. destruct H as [H1 H2].
    cbn [no_blank_run]. split.
    + unfold blank_run_length in *. cbn [starts_nl] in *.
      change (c :: s ++ tail) with ((c :: s) ++ tail) in H1.
      rewrite (leading_newlines_tight tail (c :: s)) in H1 by (auto; discriminate).
      destruct ((c =? nl)%N && (3 <=? leading_newlines (c :: s)));
        [discriminate|reflexivity].
    + apply IH; [|exact H2]. destruct s; [exact I|exact Ht].
Qed.

Lemma no_blank_run_trim (s : jsstring) : no_blank_run s -> no_blank_run (trim s).
Proof.
  intros H. unfold trim.
  destruct (drop_while_split is_space s) as (run & Hs & _).
  rewrite Hs in H. apply no_blank_run_suffix in H. fold (trim_start s) in H.
  destruct (trim_end_split (trim_start s)) as (tail & Ht & _ & Htight & _).
  rewrite Ht in H. now apply (no_blank_run_tight tail).
Qed.

Lemma cleanup_no_blank_run (s : jsstring) : no_blank_run (cleanup s).
Proof. unfold cleanup. apply no_blank_run_trim, condense_no_blank_run. Qed.

(** *** Line 179 across a text that ends tight *)

Lemma ends_tight_tail (c : char) (s : jsstring) :
  ends_tight (c :: s) -> ends_tight s.
Proof. destruct s; [intros _; exact I|auto]. Qed.

Lemma ends_tight_drop_while (f : char -> bool) (s : jsstring) :
  ends_tight s -> ends_tight (drop_while f s).
Proof.
  induction s as [|c s IH]; intros H; [exact I|].
  cbn [drop_while]. destruct (f c); [|exact H].
  apply IH. now apply ends_tight_tail in H.
Qed.

Lemma drop_while_app_tight (tail : jsstring) :
  forall s, s <> [] -> ends_tight s ->
    drop_while is_space (s ++ tail) = drop_while is_space s ++ tail.
Proof.
  induction s as [|c s IH]; intros Hne Ht; [contradiction|].
  destruct s as [|c2 s].
  - cbn [ends_tight] in Ht. cbn [app drop_while]. now rewrite Ht.
  - cbn [app drop_while]. destruct (is_space c); [|reflexivity].
    apply IH; [discriminate|exact Ht].
Qed.

Lemma blank_run_length_tight (tail : jsstring) (s : jsstring) :
  s <> [] -> ends_tight s ->
  blank_run_length (s ++ tail) = blank_run_length s.
Proof.
  intros Hne Ht. unfold blank_run_length.
  rewrite (leading_newlines_tight tail s Hne Ht).
  rewrite (drop_while_app_tight tail s Hne Ht).
  destruct s as [|c s]; [contradiction|]. cbn [app starts_nl].
  destruct ((c =? nl)%N && _); [|reflexivity].
  f_equal. pose proof (drop_while_length is_space (c :: s)).
  change (c :: s ++ tail) with ((c :: s) ++ tail).
  rewrite !length_app. lia.
Qed.

(** No match of [blankRun] reaches across the end of a text that ends
    tight. *)
Lemma condense_app_tight (tail : jsstring) (s : jsstring) :
  ends_tight s ->
  condense_newlines (s ++ tail) = condense_newlines s ++ condense_newlines tail.
Proof.
  remember (length s) as n eqn:Hn.
  assert (Hle : length s <= n) by lia. clear Hn. revert s Hle.
  induction n as [|n IH]; intros s Hle Ht.
  - destruct s; [reflexivity|simpl in Hle; lia].
  - destruct s as [|c s]; [reflexivity|].
    pose proof (blank_run_length_tight tail (c :: s)) as Heq.
    destruct (blank_run_length (c :: s)) as [m|] eqn:Em.
    + rewrite (condense_collapse _ m Em).
      rewrite (condense_collapse ((c :: s) ++ tail) m)
        by (apply Heq; [discriminate|exact Ht]).
      rewrite drop_while_app_tight by (auto; discriminate).
      cbn [app]. do 2 f_equal. apply IH.
      * unfold blank_run_length in Em. cbn [starts_nl] in Em.
        destruct (c =? nl)%N eqn:Ec; [|discriminate].
        cbn [drop_while]. rewrite (nl_is_space c Ec).
        pose proof (drop_while_length is_space s). simpl in Hle. lia.
      * now apply ends_tight_drop_while.
    + rewrite (condense_keep c s Em).
      cbn [app]. rewrite condense_keep
        by (change (c :: s ++ tail) with ((c :: s) ++ tail);
            apply Heq; [discriminate|exact Ht]).
      f_equal. apply IH; [simpl in Hle; lia|].
      now apply ends_tight_tail in Ht.
Qed.

(** Whitespace that is not a newline, before the first newline of a run,
    is kept. *)
Lemma condense_inline_space (sp tail : jsstring) :
  (forall c, In c sp -> (c =? nl)%N = false) ->
  condense_newlines (sp ++ tail) = sp ++ condense_newlines tail.
Proof.
  induction sp as [|c sp IH]; intros H; [reflexivity|].
  cbn [app]. rewrite condense_keep
    by (apply blank_run_length_not_nl, H; now left).
  f_equal. apply IH. intros a Ha. apply H. now right.
Qed.

Lemma leading_newlines_spaces (w tail : jsstring) :
  (forall c, In c w -> is_space c = true) ->
  leading_newlines w <= leading_newlines (w ++ tail).
Proof.
  induction w as [|c w IH]; intros H; [cbn; lia|].
  cbn [app leading_newlines]. rewrite (H c (or_introl eq_refl)).
  assert (leading_newlines w <= leading_newlines (w ++ tail))
    by (apply IH; intros a Ha; apply H; now right).
  lia.
Qed.

Lemma drop_while_run (f : char -> bool) (w tail : jsstring) :
  (forall c, In c w -> f c = true) ->
  match tail with c :: _ => f c = false | [] => True end ->
  drop_while f (w ++ tail) = tail.
Proof.
  intros Hw Ht. induction w as [|c w IH].
  - now apply drop_while_fixed.
  - cbn [app drop_while]. rewrite (Hw c (or_introl eq_refl)).
    apply IH. intros a Ha. apply Hw. now right.
Qed.

(** A run of whitespace that starts with a newline, holds three newlines
    or more and ends where the text goes on: two newlines are left. *)
Lemma condense_whole_run (w tail : jsstring) :
  (forall c, In c w -> is_space c = true) ->
  3 <= leading_newlines (nl :: w) ->
  match tail with c :: _ => is_space c = false | [] => True end ->
  condense_newlines (nl :: w ++ tail) = nl :: nl :: condense_newlines tail.
Proof.
  intros Hw H3 Ht.
  assert (Hrun : forall c, In c (nl :: w) -> is_space c = true)
    by (intros c [<-|Hc]; [reflexivity|auto]).
  pose proof (leading_newlines_spaces (nl :: w) tail Hrun) as Hle.
  assert (Hsome : exists m, blank_run_length (nl :: w ++ tail) = Some m).
  { unfold blank_run_length. cbn [starts_nl]. rewrite N.eqb_refl. cbn [andb].
    change (nl :: w ++ tail) with ((nl :: w) ++ tail).
    destruct (Nat.leb_spec 3 (leading_newlines ((nl :: w) ++ tail))); [eauto|lia]. }
  destruct Hsome as [m Hm]. rewrite (condense_collapse _ m Hm).
  change (nl :: w ++ tail) with ((nl :: w) ++ tail).
  now rewrite (drop_while_run is_space (nl :: w) tail Hrun Ht).
Qed.

(** The claim C8 fails at the end of a text: the four newlines after the
    letter are trimmed away, none is left; and it fails after a numbered
    heading, whose pattern takes the newlines with it. *)
Lemma newline_run_counterexample :
  formatSummary (Str [97%N; nl; nl; nl; nl]) = Returned [97%N]
  /\ includes [nl; nl] [97%N] = false
  /\ formatSummary (Str ([hash; space; 49%N; dot] ++ [nl; nl; nl; nl] ++ [97%N]))
     = Returned [97%N].
Proof. repeat split; vm_compute; reflexivity. Qed.

(** *** A second pass *)

Lemma replace_all_unmatched (r : regex) (repl : jsstring) :
  forall s p, unmatched r s -> replace_all_from r repl p s 0 = s.
Proof.
  induction s as [|c s IH]; intros p [H1 H2]; cbn [replace_all_from]; rewrite H1.
  - reflexivity.
  - f_equal. now apply IH.
Qed.

Lemma exec_unmatched (r : regex) :
  forall s p i, unmatched r s -> exec_from r p s i = None.
Proof.
  induction s as [|c s IH]; intros p i [H1 H2]; cbn [exec_from]; rewrite H1.
  - reflexivity.
  - now apply IH.
Qed.

(** A pattern that can only start on one code unit matches nowhere in a
    text without it. *)
Lemma unmatched_without (r : regex) (c0 : char) :
  (forall p, match_here r p [] = None) ->
  (forall p c s, c <> c0 -> match_here r p (c :: s) = None) ->
  forall s, ~ In c0 s -> unmatched r s.
Proof.
  intros Hnil Hhead. induction s as [|c s IH]; intros Hin.
  - split; [exact Hnil|exact I].
  - split.
    + intros p. apply Hhead. intros ->. apply Hin. now left.
    + apply IH. intros H. apply Hin. now right.
Qed.

Lemma heading_dot_needs_hash (p : option char) (c : char) (s : jsstring) :
  c <> hash -> heading_dot (State p (c :: s)) = None.
Proof.
  intros H. unfold heading_dot, expect_class. cbn [rest class_matches].
  apply N.eqb_neq in H. now rewrite H.
Qed.

Lemma unmatched_doubleStar (s : jsstring) : ~ In star s -> unmatched doubleStar s.
Proof.
  apply unmatched_without; [reflexivity|].
  intros p c s' H. unfold match_here, doubleStar, lit.
  rewrite compile_seq, compile_class. unfold expect_class.
  cbn [rest class_matches]. apply N.eqb_neq in H. now rewrite H.
Qed.

Lemma unmatched_lineNumbering (s : jsstring) : ~ In hash s -> unmatched lineNumbering s.
Proof.
  apply unmatched_without.
  - intros p. unfold match_here, lineNumbering. rewrite compile_seq.
    cbn [compile prev]. destruct p as [ch|];
      [destruct (is_line_terminator ch)|]; reflexivity.
  - intros p c s' H. unfold match_here, lineNumbering. rewrite compile_seq.
    cbn [compile prev].
    assert (Hn : forall k, compile numberedHeading (State p (c :: s')) k = None).
    { intros k. rewrite compile_numberedHeading.
      now rewrite (heading_dot_needs_hash p c s' H). }
    destruct p as [ch|]; [destruct (is_line_terminator ch)|];
      rewrite ?Hn; reflexivity.
Qed.

Lemma unmatched_actionItemsRegex (s : jsstring) :
  ~ In hash s -> unmatched actionItemsRegex s.
Proof.
  apply unmatched_without.
  - reflexivity.
  - intros p c s' H. rewrite match_here_actionItemsRegex. unfold heading_title.
    now rewrite (heading_dot_needs_hash p c s' H).
Qed.

Lemma filter_fixed {A : Type} (f : A -> bool) (l : list A) :
  (forall x, In x l -> f x = true) -> filter f l = l.
Proof.
  induction l as [|a l IH]; intros H; [reflexivity|].
  cbn [filter]. rewrite (H a (or_introl eq_refl)). f_equal.
  apply IH. intros x Hx. apply H. now right.
Qed.

Lemma strip_stars_fixed (s : jsstring) : ~ In star s -> strip_stars s = s.
Proof.
  intros H. rewrite strip_stars_filter. apply filter_fixed.
  intros c Hc. destruct (N.eqb_spec c star) as [->|]; [contradiction|reflexivity].
Qed.

Lemma no_hash_no_block (t : jsstring) :
  ~ In hash t -> reformat_action_items t = Returned t /\ strip_numbering t = t.
Proof.
  intros H. split.
  - unfold reformat_action_items, action_block, exec.
    now rewrite (exec_unmatched actionItemsRegex t None 0
                   (unmatched_actionItemsRegex t H)).
  - apply replace_all_unmatched. now apply unmatched_lineNumbering.
Qed.

Lemma formatSummary_output (s t : jsstring) :
  formatSummary (Str s) = Returned t -> t = [] \/ exists f, t = cleanup f.
Proof.
  intros H. destruct s as [|c s]; cbn [formatSummary] in H.
  - injection H as <-. now left.
  - destruct (reformat_action_items (c :: s)) as [f|]; [|discriminate].
    injection H as <-. right. eauto.
Qed.

(** The claim C6 fails although the table is valid and is reformatted:
    an indented list item before the block is brought to the start of a
    line by the trim, and a line with two numberings loses one a pass; a
    second pass changes both results. *)
Lemma second_pass_counterexample :
  (exists t, parse_table Samples.filledBlock = Returned (Some t))
  /\ action_block (Samples.indentedItem ++ nl :: Samples.filledBlock)
     = Some Samples.filledBlock
  /\ formatSummary (Str (Samples.indentedItem ++ nl :: Samples.filledBlock))
     = Returned (Samples.unlines (Samples.itemDash :: Samples.filledList))
  /\ formatSummary (Str (Samples.unlines (Samples.itemDash :: Samples.filledList)))
     = Returned (Samples.unlines (Samples.itemBullet :: Samples.filledList))
  /\ Samples.unlines (Samples.itemBullet :: Samples.filledList)
     <> Samples.unlines (Samples.itemDash :: Samples.filledList)
  /\ action_block (Samples.stackedNumbering ++ nl :: Samples.filledBlock)
     = Some Samples.filledBlock
  /\ formatSummary (Str (Samples.stackedNumbering ++ nl :: Samples.filledBlock))
     = Returned (Samples.unlines (Samples.secondNumbering :: Samples.filledList))
  /\ formatSummary (Str (Samples.unlines (Samples.secondNumbering :: Samples.filledList)))
     = Returned (Samples.unlines (Samples.notes :: Samples.filledList)).
Proof.
  split; [eexists; vm_compute; reflexivity|].
  repeat split; try (vm_compute; reflexivity).
  vm_compute. discriminate.
Qed.

(** C6, amended: on a result [t] of [formatSummary], with or without a
    reformatted table, the removal of asterisks, the condensing of
    newlines and the trim change nothing.  So a second pass returns [t]
    again whenever the block substitution, the removal of numberings
    (line 177) and the standardizing of bullets (line 178) leave [t] as it
    is; the first two do when [t] holds no hash. *)
Theorem second_pass_fixed (s t : jsstring) :
  formatSummary (Str s) = Returned t ->
  strip_double_stars t = t /\ strip_stars t = t
  /\ condense_newlines t = t /\ trim t = t
  /\ (reformat_action_items t = Returned t ->
      strip_numbering t = t -> standardize_bullets t = t ->
      formatSummary (Str t) = Returned t)
  /\ (~ In hash t -> standardize_bullets t = t ->
      formatSummary (Str t) = Returned t).
Proof.
  intros H. apply formatSummary_output in H.
  assert (Hstar : ~ In star t)
    by (destruct H as [->|[f ->]]; [intros []|apply cleanup_no_star]).
  assert (Hrun : no_blank_run t)
    by (destruct H as [->|[f ->]]; [cbn; auto|apply cleanup_no_blank_run]).
  assert (Htrim : trim t = t)
    by (destruct H as [->|[f ->]]; [reflexivity|apply trim_idempotent]).
  assert (H1 : strip_double_stars t = t)
    by (apply replace_all_unmatched, unmatched_doubleStar, Hstar).
  assert (H2 : strip_stars t = t) by (apply strip_stars_fixed, Hstar).
  assert (H3 : condense_newlines t = t) by (apply condense_fixed, Hrun).
  assert (Hmain : reformat_action_items t = Returned t ->
                  strip_numbering t = t -> standardize_bullets t = t ->
                  formatSummary (Str t) = Returned t).
  { intros Hr Hn Hb. rewrite (formatSummary_unparsed t Hr). f_equal.
    unfold cleanup. now rewrite H1, H2, Hn, Hb, H3. }
  repeat split; auto.
  intros Hh Hb. destruct (no_hash_no_block t Hh) as [Hr Hn]. auto.
Qed.

Lemma second_pass_fixed_witness :
  formatSummary (Str Samples.filledBlock)
  = Returned (Samples.unlines Samples.filledList)
  /\ formatSummary (Str (Samples.unlines Samples.filledList))
     = Returned (Samples.unlines Samples.filledList).
Proof.
  assert (H : formatSummary (Str Samples.filledBlock)
              = Returned (Samples.unlines Samples.filledList))
    by (vm_compute; reflexivity).
  split; [exact H|].
  apply (second_pass_fixed Samples.filledBlock _ H).
  - vm_compute. intuition discriminate.
  - vm_compute. reflexivity.
Defined.

(** *** The fuel of the quantifiers *)

Lemma repeat_free_ext (m : Matcher) :
  (forall x k k', (forall y, k y = k' y) -> m x k = m x k') ->
  forall fuel greedy x k k',
    (forall y, k y = k' y) ->
    repeat_free m greedy fuel x k = repeat_free m greedy fuel x k'.
Proof.
  intros Hm. induction fuel as [|fuel IH]; intros greedy x k k' Hk;
    rewrite !repeat_free_eq; cbv zeta; rewrite (Hk x).
  - reflexivity.
  - rewrite (Hm x _ (fun y =>
               if length (rest y) <? length (rest x)
               then repeat_free m greedy fuel y k' else None)).
    + reflexivity.
    + intros y. destruct (length (rest y) <? length (rest x)); [|reflexivity].
      now apply IH.
Qed.

Lemma repeat_min_ext (m : Matcher) :
  (forall x k k', (forall y, k y = k' y) -> m x k = m x k') ->
  forall min greedy x k k',
    (forall y, k y = k' y) ->
    repeat_min m min greedy x k = repeat_min m min greedy x k'.
Proof.
  intros Hm. induction min as [|min IH]; intros greedy x k k' Hk; cbn [repeat_min].
  - now apply repeat_free_ext.
  - apply Hm. intros y. now apply IH.
Qed.

(** A matcher looks at its continuation through its values only. *)
Lemma compile_ext (r : regex) :
  forall x k k', (forall y, k y = k' y) -> compile r x k = compile r x k'.
Proof.
  induction r as [|cl|r1 IH1 r2 IH2|r1 IH1 r2 IH2|min greedy r IH|r IH|r IH| |];
    intros x k k' Hk; cbn [compile].
  - apply Hk.
  - destruct (rest x) as [|ch t]; [reflexivity|].
    destruct (class_matches cl ch); [apply Hk|reflexivity].
  - apply IH1. intros y. now apply IH2.
  - rewrite (IH1 x k k' Hk), (IH2 x k k' Hk). reflexivity.
  - now apply repeat_min_ext.
  - now apply IH.
  - rewrite (Hk x). reflexivity.
  - rewrite (Hk x). reflexivity.
  - rewrite (Hk x). reflexivity.
Qed.

(** The fuel [repeat_min] hands to [repeat_free], the length of the rest
    of the input, is never used up: more fuel changes nothing. *)
Lemma repeat_free_fuel (r : regex) (greedy : bool) (k : Continuation) :
  forall n fuel1 fuel2 x,
    length (rest x) <= n -> n <= fuel1 -> n <= fuel2 ->
    repeat_free (compile r) greedy fuel1 x k
    = repeat_free (compile r) greedy fuel2 x k.
Proof.
  induction n as [|n IH]; intros fuel1 fuel2 x Hx H1 H2;
    rewrite !repeat_free_eq; cbv zeta.
  - rewrite (compile_ext r x _ (fun _ => None)).
    + rewrite (compile_ext r x (fun y => if length (rest y) <? length (rest x)
                                         then _ else None) (fun _ => None)).
      * reflexivity.
      * intros y. destruct (Nat.ltb_spec (length (rest y)) (length (rest x)));
          [lia|reflexivity].
    + intros y. destruct (Nat.ltb_spec (length (rest y)) (length (rest x)));
        [lia|reflexivity].
  - rewrite (compile_ext r x _
               (fun y => if length (rest y) <? length (rest x)
                         then repeat_free (compile r) greedy n y k else None)).
    + rewrite (compile_ext r x
                 (fun y => if length (rest y) <? length (rest x)
                           then match fuel2 with
                                | O => None
                                | S fuel' => repeat_free (compile r) greedy fuel' y k
                                end
                           else None)
                 (fun y => if length (rest y) <? length (rest x)
                           then repeat_free (compile r) greedy n y k else None)).
      * reflexivity.
      * intros y. destruct (Nat.ltb_spec (length (rest y)) (length (rest x)));
          [|reflexivity].
        destruct fuel2 as [|fuel2]; [lia|]. apply IH; lia.
    + intros y. destruct (Nat.ltb_spec (length (rest y)) (length (rest x)));
        [|reflexivity].
      destruct fuel1 as [|fuel1]; [lia|]. apply IH; lia.
Qed.

Lemma repeat_free_fuel_enough (r : regex) (greedy : bool) (k : Continuation)
      (fuel : nat) (x : state) :
  length (rest x) <= fuel ->
  repeat_free (compile r) greedy fuel x k
  = repeat_free (compile r) greedy (length (rest x)) x k.
Proof.
  intros H. apply (repeat_free_fuel r greedy k (length (rest x))); lia.
Qed.

(** *** What a match can consume *)







(** *** The cleanup on the text of the reformatted example *)





Lemma sub_run_length (f : char -> bool) (s : jsstring) :
  length s - length (drop_while f s) = run_length f s.
Proof.
  induction s as [|c s IH]; [reflexivity|].
  cbn [drop_while run_length]. destruct (f c).
  - pose proof (drop_while_length f s). cbn [length]. lia.
  - apply Nat.sub_diag.
Qed.

Lemma compile_lineStart (x : state) (k : Continuation) :
  compile LineStart x k = if line_start (prev x) then k x else None.
Proof. cbn [compile]. unfold line_start. now destruct (prev x). Qed.

(** Line 178 matches a dash or a bullet at the start of a line, with all
    the whitespace after it. *)
Lemma match_here_lineBullet (p : option char) (c : char) (s : jsstring) :
  match_here lineBullet p (c :: s)
  = if existsb (N.eqb c) [dash; bullet]
    then (if line_start p then Some (S (run_length is_space s)) else None)
    else None.
Proof.
  unfold match_here, lineBullet. rewrite compile_seq.
  assert (Hk : compile (Seq (Class (COneOf [dash; bullet])) spaces)
                       (State p (c :: s)) (fun y => Some y)
               = if existsb (N.eqb c) [dash; bullet]
                 then Some (skip_class CSpace (Some c) s) else None).
  { rewrite compile_seq, compile_class. unfold expect_class.
    cbn [rest class_matches]. destruct (existsb (N.eqb c) [dash; bullet]);
      [|reflexivity].
    cbn [bind]. unfold spaces. rewrite compile_star_class. cbn [prev rest].
    now apply greedy_class_deepest. }
  rewrite compile_lineStart, Hk. cbn [prev].
  assert (Hlen : length (c :: s) - length (rest (skip_class CSpace (Some c) s))
                 = S (run_length is_space s)).
  { rewrite skip_class_space_rest, <- sub_run_length.
    pose proof (drop_while_length is_space s). cbn [length]. lia. }
  destruct (existsb (N.eqb c) [dash; bullet]), (line_start p);
    try reflexivity. now rewrite Hlen.
Qed.

Lemma replace_all_bullet (repl : jsstring) (p : option char) (c : char)
      (s : jsstring) :
  existsb (N.eqb c) [dash; bullet] = true -> line_start p = true ->
  replace_all_from lineBullet repl p (c :: s) 0
  = repl ++ replace_all_from lineBullet repl (Some c) s (run_length is_space s).
Proof.
  intros Hc Hp. cbn [replace_all_from].
  now rewrite match_here_lineBullet, Hc, Hp.
Qed.












Lemma drop_while_app_stop (f : char -> bool) (c : char) (t : jsstring) :
  f c = false ->
  forall a, drop_while f (a ++ c :: t) = drop_while f a ++ c :: t.
Proof.
  intros Hc. induction a as [|x a IH]; cbn [app drop_while].
  - now rewrite Hc.
  - destruct (f x); [exact IH|reflexivity].
Qed.

Lemma trim_end_app_stop (c : char) (u b : jsstring) :
  is_space c = false -> trim_end (u ++ c :: b) = u ++ c :: trim_end b.
Proof.
  intros Hc. unfold trim_end.
  rewrite rev_app_distr. cbn [rev]. rewrite <- app_assoc. cbn [app].
  rewrite (drop_while_app_stop is_space c (rev u) Hc).
  rewrite rev_app_distr. cbn [rev]. rewrite rev_involutive.
  now rewrite <- app_assoc.
Qed.







(** *** The example block inside a summary *)









Lemma not_in_forallb (c0 : char) (s : jsstring) :
  forallb (fun c => negb (c =? c0)%N) s = true -> ~ In c0 s.
Proof.
  intros H Hin. rewrite forallb_forall in H. apply H in Hin.
  now rewrite N.eqb_refl in Hin.
Qed.



Lemma drop_while_all (f : char -> bool) (s : jsstring) :
  (forall c, In c s -> f c = true) -> drop_while f s = [].
Proof.
  induction s as [|c s IH]; intros H; [reflexivity|].
  cbn [drop_while]. rewrite (H c (or_introl eq_refl)).
  apply IH. intros a Ha. apply H. now right.
Qed.





Lemma formatSummary_reformat (s f : jsstring) :
  s <> [] -> reformat_action_items s = Returned f ->
  formatSummary (Str s) = Returned (cleanup f).
Proof.
  intros Hne H. destruct s as [|c s]; [contradiction|].
  unfold formatSummary. now rewrite H.
Qed.



(** *** Newlines between plain texts *)

Lemma plain_inv (c : char) :
  plain c = true ->
  is_space c = false /\ c <> star /\ c <> hash /\ c <> dash /\ c <> bullet.
Proof.
  unfold plain. rewrite !andb_true_iff, !negb_true_iff, !N.eqb_neq. tauto.
Qed.

Lemma match_here_lineBullet_nil (p : option char) :
  match_here lineBullet p [] = None.
Proof.
  unfold match_here, lineBullet. rewrite compile_seq, compile_lineStart.
  now destruct (line_start _).
Qed.

Lemma unmatched_lineBullet (s : jsstring) :
  ~ In dash s -> ~ In bullet s -> unmatched lineBullet s.
Proof.
  induction s as [|c s IH]; intros Hd Hb.
  - split; [apply match_here_lineBullet_nil|exact I].
  - split.
    + intros p. rewrite match_here_lineBullet. cbn [existsb].
      destruct (N.eqb_spec c dash) as [->|_]; [exfalso; apply Hd; now left|].
      destruct (N.eqb_spec c bullet) as [->|_]; [exfalso; apply Hb; now left|].
      reflexivity.
    + apply IH; intros H; [apply Hd|apply Hb]; now right.
Qed.

Lemma no_nl_no_blank_run (s : jsstring) : ~ In nl s -> no_blank_run s.
Proof.
  induction s as [|c s IH]; intros H; cbn [no_blank_run].
  - split; [reflexivity|exact I].
  - split.
    + apply blank_run_length_not_nl. apply N.eqb_neq.
      intros ->. apply H. now left.
    + apply IH. intros Hin. apply H. now right.
Qed.

Lemma ends_tight_inv (s : jsstring) :
  ends_tight s ->
  s = [] \/ exists u c, s = u ++ [c] /\ is_space c = false.
Proof.
  induction s as [|c s IH]; intros H; [now left|]. right.
  destruct s as [|c2 s].
  - exists [], c. auto.
  - destruct (IH H) as [Hnil|(u & c' & Hs & Hc')]; [discriminate|].
    exists (c :: u), c'. rewrite Hs. auto.
Qed.

Lemma ends_tight_app (x b : jsstring) :
  b <> [] -> ends_tight b -> ends_tight (x ++ b).
Proof.
  intros Hne Hb. induction x as [|c x IH]; [exact Hb|].
  cbn [app]. destruct (x ++ b) eqn:E; [|exact IH].
  destruct x; [contradiction|discriminate].
Qed.

Lemma all_nonspace_tight (s : jsstring) :
  (forall c, In c s -> is_space c = false) -> ends_tight s.
Proof.
  induction s as [|c s IH]; intros H; [exact I|].
  destruct s as [|c2 s]; [apply H; now left|].
  apply IH. intros a Ha. apply H. now right.
Qed.

Lemma trim_fixed (s : jsstring) :
  match s with c :: _ => is_space c = false | [] => True end ->
  ends_tight s -> trim s = s.
Proof.
  intros Hhead Ht. unfold trim, trim_start.
  rewrite (drop_while_fixed is_space s Hhead).
  destruct (ends_tight_inv s Ht) as [->|(u & c & -> & Hc)]; [reflexivity|].
  now rewrite (trim_end_app_stop c u [] Hc).
Qed.

Lemma leading_newlines_repeat (m : nat) (tail : jsstring) :
  m <= leading_newlines (repeat nl m ++ tail).
Proof.
  induction m as [|m IH]; [lia|].
  cbn [repeat app]. change (leading_newlines (nl :: ?x)) with (1 + leading_newlines x).
  lia.
Qed.

Lemma strip_double_stars_fixed (s : jsstring) :
  ~ In star s -> strip_double_stars s = s.
Proof.
  intros H. apply replace_all_unmatched. now apply unmatched_doubleStar.
Qed.

Lemma standardize_bullets_fixed (s : jsstring) :
  ~ In dash s -> ~ In bullet s -> standardize_bullets s = s.
Proof.
  intros Hd Hb. apply replace_all_unmatched. now apply unmatched_lineBullet.
Qed.

(** Between two plain texts, three newlines or more come out as two. *)
Lemma plain_texts_condensed (a b : jsstring) (n : nat) :
  a <> [] -> b <> [] ->
  forallb plain a = true -> forallb plain b = true ->
  3 <= n ->
  formatSummary (Str (a ++ repeat nl n ++ b)) = Returned (a ++ [nl; nl] ++ b).
Proof.
  intros Hna Hnb Ha Hb Hn.
  rewrite forallb_forall in Ha, Hb.
  assert (Hin : forall c, In c (a ++ repeat nl n ++ b) -> plain c = true \/ c = nl).
  { intros c Hc. apply in_app_or in Hc. destruct Hc as [Hc|Hc]; [left; auto|].
    apply in_app_or in Hc. destruct Hc as [Hc|Hc]; [|left; auto].
    right. now apply repeat_spec in Hc. }
  assert (Hnot : forall c0, plain c0 = false -> c0 <> nl ->
                            ~ In c0 (a ++ repeat nl n ++ b)).
  { intros c0 Hp Hc0 Hc. apply Hin in Hc. destruct Hc; congruence. }
  assert (Hstar := Hnot star eq_refl ltac:(discriminate)).
  assert (Hhash := Hnot hash eq_refl ltac:(discriminate)).
  assert (Hdash := Hnot dash eq_refl ltac:(discriminate)).
  assert (Hbullet := Hnot bullet eq_refl ltac:(discriminate)).
  destruct (no_hash_no_block _ Hhash) as [Hr Hnum].
  rewrite (formatSummary_unparsed _ Hr). f_equal. unfold cleanup.
  rewrite (strip_double_stars_fixed _ Hstar), (strip_stars_fixed _ Hstar), Hnum.
  rewrite (standardize_bullets_fixed _ Hdash Hbullet).
  assert (Hsp : forall s, (forall c, In c s -> plain c = true) ->
                          forall c, In c s -> is_space c = false).
  { intros s Hs c Hc. now destruct (plain_inv c (Hs c Hc)). }
  assert (Hnl : forall s, (forall c, In c s -> plain c = true) -> ~ In nl s).
  { intros s Hs Hc. now pose proof (Hsp s Hs nl Hc). }
  destruct n as [|m]; [lia|]. cbn [repeat app].
  rewrite (condense_app_tight _ a (all_nonspace_tight a (Hsp a Ha))).
  rewrite (condense_fixed a (no_nl_no_blank_run a (Hnl a Ha))).
  rewrite (condense_whole_run (repeat nl m) b).
  - rewrite (condense_fixed b (no_nl_no_blank_run b (Hnl b Hb))).
    apply trim_fixed.
    + destruct a as [|c a]; [contradiction|]. apply (Hsp (c :: a) Ha). now left.
    + apply ends_tight_app; [discriminate|].
      change (ends_tight (nl :: nl :: b)) with (ends_tight ([nl; nl] ++ b)).
      apply ends_tight_app; [exact Hnb|]. apply all_nonspace_tight, Hsp, Hb.
  - intros c Hc. apply repeat_spec in Hc. now subst c.
  - change (leading_newlines (nl :: ?x)) with (1 + leading_newlines x).
    pose proof (leading_newlines_repeat m []) as Hm.
    rewrite app_nil_r in Hm. lia.
  - destruct b as [|c b]; [exact I|]. apply (Hsp (c :: b) Hb). now left.
Qed.

(** C8, amended: the result of [formatSummary] never holds three newlines
    in a row.  Between two plain texts (no whitespace, asterisk, hash,
    dash or bullet in them) a run of three newlines or more comes out as
    exactly two.  In general, in the text that reaches line 179, every run
    of whitespace that holds three newlines or more, between a text that
    does not end on whitespace and one that does not start on it, is
    replaced from its first newline on by exactly two newlines; the final
    trim then removes what stands at the very start or end. *)
Theorem newline_runs_condensed :
  (forall v out, formatSummary v = Returned out -> includes [nl; nl; nl] out = false)
  /\ (forall a b n,
        a <> [] -> b <> [] ->
        forallb plain a = true -> forallb plain b = true -> 3 <= n ->
        formatSummary (Str (a ++ repeat nl n ++ b)) = Returned (a ++ [nl; nl] ++ b))
  /\ (forall a sp w b,
        ends_tight a ->
        (forall c, In c sp -> (c =? nl)%N = false) ->
        (forall c, In c w -> is_space c = true) ->
        3 <= leading_newlines (nl :: w) ->
        match b with c :: _ => is_space c = false | [] => True end ->
        condense_newlines (a ++ sp ++ nl :: w ++ b)
        = condense_newlines a ++ sp ++ nl :: nl :: condense_newlines b).
Proof.
  split; [|split].
  - intros v out H.
    assert (Hout : out = [] \/ exists f, out = cleanup f).
    { destruct v as [| |s]; [injection H as <-; now left..|].
      now apply (formatSummary_output s). }
    destruct Hout as [->|[f ->]]; [reflexivity|].
    apply no_blank_run_no_three_newlines, cleanup_no_blank_run.
  - exact plain_texts_condensed.
  - intros a sp w b Ha Hsp Hw H3 Hb.
    rewrite (condense_app_tight _ a Ha).
    rewrite (condense_inline_space sp _ Hsp).
    now rewrite (condense_whole_run w b Hw H3 Hb).
Qed.

Lemma newline_runs_condensed_witness :
  formatSummary (Str ([97%N] ++ repeat nl 4 ++ [98%N]))
  = Returned ([97%N] ++ [nl; nl] ++ [98%N])
  /\ condense_newlines ([97%N] ++ [space] ++ nl :: [nl; nl; nl; space] ++ [98%N])
     = condense_newlines [97%N] ++ [space] ++ nl :: nl :: condense_newlines [98%N]
  /\ includes [nl; nl; nl] ([97%N] ++ [nl; nl] ++ [98%N]) = false.
Proof.
  split; [|split].
  - apply (proj1 (proj2 newline_runs_condensed) [97%N] [98%N] 4);
      try discriminate; try reflexivity. lia.
  - apply (proj2 (proj2 newline_runs_condensed)
             [97%N] [space] [nl; nl; nl; space] [98%N]).
    + reflexivity.
    + intros c [<-|[]]. reflexivity.
    + intros c [<-|[<-|[<-|[<-|[]]]]]; reflexivity.
    + vm_compute. lia.
    + reflexivity.
  - apply (proj1 newline_runs_condensed (Str ([97%N] ++ repeat nl 4 ++ [98%N]))).
    vm_compute. reflexivity.
Defined.

(* ================================================================== *)
(** ** Further properties of [formatSummary] *)

(** *** The replacement text of line 169 *)

Lemma get_substitution_safe (matched before after : jsstring) :
  forall template, dollar_safe template = true ->
    get_substitution matched before after template = template.
Proof.
  induction template as [|c t IH]; intros H; [reflexivity|].
  cbn [dollar_safe] in H. apply andb_true_iff in H. destruct H as [Hc Ht].
  cbn [get_substitution]. destruct (c =? dollar)%N eqn:Ec.
  - apply N.eqb_eq in Ec. subst c. destruct t as [|c2 t2]; [reflexivity|].
    unfold is_dollar_form in Hc. apply negb_true_iff in Hc.
    repeat (apply orb_false_elim in Hc; destruct Hc as [Hc ?]).
    rewrite Hc, H1, H0, H. f_equal. now apply IH.
  - f_equal. now apply IH.
Qed.

Lemma get_substitution_app_plain (matched before after : jsstring) :
  forall x rest', ~ In dollar x ->
    get_substitution matched before after (x ++ rest')
    = x ++ get_substitution matched before after rest'.
Proof.
  induction x as [|c x IH]; intros rest' H; [reflexivity|].
  cbn [app get_substitution].
  destruct (N.eqb_spec c dollar) as [->|_]; [exfalso; apply H; now left|].
  f_equal. apply IH. intros Hin. apply H. now right.
Qed.

Lemma get_substitution_form (matched before after : jsstring) (c : char)
      (y : jsstring) :
  is_dollar_form c = true ->
  get_substitution matched before after (dollar :: c :: y)
  = dollar_expansion matched before after c
    ++ get_substitution matched before after y.
Proof.
  intros H. cbn [get_substitution]. rewrite N.eqb_refl.
  unfold dollar_expansion, is_dollar_form in *.
  destruct (c =? dollar)%N; [reflexivity|].
  destruct (c =? amp)%N; [reflexivity|].
  destruct (c =? backtick)%N; [reflexivity|].
  destruct (c =? quote)%N; [reflexivity|discriminate].
Qed.

(** When the table of the action block passes the checks, the block is
    replaced where it was found, by the new content read as a replacement
    template. *)
Lemma reformat_valid_table (s b : jsstring) (t : table) :
  action_block s = Some b ->
  parse_table b = Returned (Some t) ->
  exists before after,
    s = before ++ b ++ after
    /\ reformat_action_items s
       = Returned (before ++ get_substitution b before after (new_content t)
                          ++ after).
Proof.
  intros Hb Ht. unfold reformat_action_items. rewrite Hb, Ht.
  unfold action_block in Hb.
  destruct (exec actionItemsRegex s) as [[i g]|] eqn:Hexec; [|discriminate].
  destruct (truthy g && includes [pipe] g); [|discriminate].
  injection Hb as ->.
  destruct (action_block_first_occurrence s b i Hexec)
    as (before & after & Hs & Hlen & Hidx & _).
  exists before, after. split; [exact Hs|]. f_equal.
  rewrite Hs at 1. apply replace_string_at. rewrite <- Hs, Hlen. exact Hidx.
Qed.

(** X1: when the new content holds no dollar followed by a dollar, an
    ampersand, a backtick or a quote, it takes the place of the block
    letter for letter; a dollar before a digit, as in an amount, is
    kept. *)
Theorem new_content_verbatim (s b : jsstring) (t : table) :
  action_block s = Some b ->
  parse_table b = Returned (Some t) ->
  dollar_safe (new_content t) = true ->
  exists before after,
    s = before ++ b ++ after
    /\ reformat_action_items s = Returned (before ++ new_content t ++ after)
    /\ formatSummary (Str s) = Returned (cleanup (before ++ new_content t ++ after)).
Proof.
  intros Hb Ht Hsafe.
  destruct (reformat_valid_table s b t Hb Ht) as (before & after & Hs & Hr).
  rewrite get_substitution_safe in Hr by exact Hsafe.
  exists before, after. repeat split; auto.
  apply formatSummary_reformat; [|exact Hr].
  intros ->. destruct before; [|discriminate]. destruct b; [|discriminate].
  vm_compute in Hb. discriminate Hb.
Qed.

(** X2: a dollar followed by an ampersand in the new content (from a cell
    or from the heading line) is replaced by the whole original block, a
    dollar and a backtick by the summary before the block, a dollar and a
    quote by the summary after it, and two dollars by one. *)
Theorem new_content_dollar_pattern (s b x y : jsstring) (t : table) (c : char) :
  action_block s = Some b ->
  parse_table b = Returned (Some t) ->
  new_content t = x ++ dollar :: c :: y ->
  ~ In dollar x -> is_dollar_form c = true -> dollar_safe y = true ->
  exists before after,
    s = before ++ b ++ after
    /\ reformat_action_items s
       = Returned (before ++ (x ++ dollar_expansion b before after c ++ y)
                          ++ after).
Proof.
  intros Hb Ht Hnc Hx Hc Hy.
  destruct (reformat_valid_table s b t Hb Ht) as (before & after & Hs & Hr).
  exists before, after. split; [exact Hs|]. rewrite Hr, Hnc.
  rewrite (get_substitution_app_plain _ _ _ x _ Hx).
  rewrite (get_substitution_form _ _ _ c y Hc).
  now rewrite (get_substitution_safe _ _ _ y Hy).
Qed.

Lemma new_content_verbatim_witness :
  exists before after,
    Samples.costBlock = before ++ Samples.costBlock ++ after
    /\ reformat_action_items Samples.costBlock
       = Returned (before
                   ++ new_content (Table Samples.heading3
                                         [str "Task"; str "Cost"]
                                         [[str "Fix bug"; str "$100"]])
                   ++ after).
Proof.
  destruct (new_content_verbatim Samples.costBlock Samples.costBlock
              (Table Samples.heading3 [str "Task"; str "Cost"]
                     [[str "Fix bug"; str "$100"]]))
    as (before & after & Hs & Hr & _); try (vm_compute; reflexivity).
  exists before, after. split; [exact Hs|exact Hr].
Defined.

Lemma new_content_dollar_pattern_witness :
  exists before after,
    Samples.ampersandBlock = before ++ Samples.ampersandBlock ++ after
    /\ reformat_action_items Samples.ampersandBlock
       = Returned (before
                   ++ ((Samples.heading3 ++ nl :: nl :: bulletIndent
                          ++ str "Task" ++ colonSpace)
                       ++ dollar_expansion Samples.ampersandBlock before after amp
                       ++ [nl])
                   ++ after).
Proof.
  apply (new_content_dollar_pattern Samples.ampersandBlock Samples.ampersandBlock
           (Samples.heading3 ++ nl :: nl :: bulletIndent ++ str "Task" ++ colonSpace)
           [nl]
           (Table Samples.heading3 [str "Task"] [[str "$&"]]) amp);
    try (vm_compute; reflexivity).
  apply not_in_forallb. vm_compute. reflexivity.
Defined.

(** *** The list made of a table *)

Lemma skipn_cons_nth {A : Type} (l : list A) :
  forall i v tl, skipn i l = v :: tl ->
    nth_error l i = Some v /\ skipn (S i) l = tl.
Proof.
  induction l as [|a l IH]; intros i v tl H.
  - destruct i; discriminate.
  - destruct i as [|i].
    + cbn in H. injection H as -> ->. split; reflexivity.
    + cbn [skipn nth_error] in *. now apply IH.
Qed.

Lemma render_fields_lines (row : list jsstring) :
  (forall v, In v row -> truthy v = true) ->
  forall labels i acc,
    length (skipn i row) = length labels ->
    render_fields labels i row acc
    = acc ++ field_lines (i =? 0)%nat labels (skipn i row).
Proof.
  intros Hrow. induction labels as [|h labels IH]; intros i acc Hlen.
  - cbn. now rewrite app_nil_r.
  - destruct (skipn i row) as [|v tl] eqn:Es; [discriminate|].
    destruct (skipn_cons_nth row i v tl Es) as [Hnth Htl].
    cbn [render_fields field_lines]. unfold cell_or_NA. rewrite Hnth.
    rewrite (Hrow v (nth_error_In _ _ Hnth)).
    rewrite IH by (rewrite Htl; simpl in Hlen; lia).
    rewrite Htl. cbn [Nat.eqb].
    destruct (i =? 0)%nat; now rewrite <- !app_assoc.
Qed.

Lemma render_rows_items (labels : list jsstring) :
  forall rs acc,
    (forall row, In row rs ->
       length row = length labels /\ forall v, In v row -> truthy v = true) ->
    render_rows labels rs acc = acc ++ concat (map (item_text labels) rs).
Proof.
  unfold render_rows. induction rs as [|row rs IH]; intros acc H.
  - cbn. now rewrite app_nil_r.
  - cbn [fold_left map concat].
    destruct (H row (or_introl eq_refl)) as [Hlen Hcells].
    rewrite (render_fields_lines row Hcells labels 0 (acc ++ [nl]))
      by (cbn [skipn]; exact Hlen).
    rewrite IH by (intros r Hr; apply H; now right).
    cbn [skipn Nat.eqb]. unfold item_text.
    rewrite <- !app_assoc. reflexivity.
Qed.

Lemma split_pieces (sep : char) :
  forall s piece, In piece (split sep s) ->
    ~ In sep piece /\ forall c, In c piece -> In c s.
Proof.
  induction s as [|c s IH]; intros piece H.
  - cbn in H. destruct H as [<-|[]]. split; [intros []|intros c []].
  - cbn [split] in H. destruct (N.eqb_spec c sep) as [->|Hne].
    + destruct H as [<-|H]; [split; [intros []|intros c []]|].
      destruct (IH piece H) as [H1 H2]. split; [exact H1|].
      intros a Ha. right. auto.
    + destruct (split sep s) as [|p0 ps] eqn:Es.
      * destruct H as [<-|[]]. split.
        -- intros [Heq|[]]. congruence.
        -- intros a [<-|[]]. now left.
      * destruct H as [<-|H].
        -- destruct (IH p0 (or_introl eq_refl)) as [H1 H2]. split.
           ++ intros [Heq|Hin]; [congruence|contradiction].
           ++ intros a [<-|Ha]; [now left|right; auto].
        -- destruct (IH piece (or_intror H)) as [H1 H2]. split; [exact H1|].
           intros a Ha. right. auto.
Qed.

(** The cells of a line: none is empty, none has whitespace around it or
    a pipe in it, and each is made of code units of the line. *)
Lemma parse_cells_clean (line v : jsstring) :
  In v (parse_cells line) ->
  truthy v = true /\ trim v = v /\ ~ In pipe v
  /\ forall c, In c v -> In c line.
Proof.
  unfold parse_cells. intros H. apply filter_In in H. destruct H as [H Hv].
  apply in_map_iff in H. destruct H as (piece & <- & Hp).
  destruct (split_pieces pipe line piece Hp) as [Hno Hsub].
  split; [exact Hv|]. split; [apply trim_idempotent|]. split.
  - intros Hin. apply Hno. now apply trim_incl.
  - intros c Hc. apply Hsub. now apply trim_incl.
Qed.

Lemma match_here_starOrSpace (p : option char) (s : jsstring) :
  match_here starOrSpace p s
  = match s with
    | c :: _ => if ((c =? star) || (c =? space))%N then Some 1 else None
    | [] => None
    end.
Proof.
  destruct s as [|c s]; [reflexivity|].
  unfold match_here, starOrSpace, lit. cbn [compile rest class_matches].
  assert (Hlen : length (c :: s) - length s = 1) by (cbn [length]; lia).
  destruct (c =? star)%N; cbn [orb rest]; [now rewrite Hlen|].
  destruct (c =? space)%N; cbn [rest]; [now rewrite Hlen|reflexivity].
Qed.

(** Line 147 deletes the asterisks and the spaces of a header cell. *)
Lemma strip_star_space_filter (s : jsstring) :
  replace_all starOrSpace [] s
  = filter (fun c => negb ((c =? star) || (c =? space))%N) s.
Proof.
  unfold replace_all. generalize (@None char) as p.
  induction s as [|c s IH]; intros p; [reflexivity|].
  cbn [replace_all_from]. rewrite match_here_starOrSpace.
  cbn [filter]. destruct ((c =? star) || (c =? space))%N; cbn [negb app];
    now rewrite IH.
Qed.

Lemma parse_headers_clean (line h : jsstring) :
  In h (parse_headers line) ->
  truthy h = true /\ ~ In star h /\ ~ In space h /\ ~ In pipe h
  /\ forall c, In c h -> In c line.
Proof.
  unfold parse_headers. intros H. apply filter_In in H. destruct H as [H Hh].
  apply in_map_iff in H. destruct H as (piece & <- & Hp).
  destruct (split_pieces pipe line piece Hp) as [Hno Hsub].
  rewrite strip_star_space_filter in *.
  assert (Hsubset : forall c, In c (filter (fun c => negb ((c =? star) || (c =? space))%N)
                                          (trim piece)) -> In c piece).
  { intros c Hc. apply filter_In in Hc. destruct Hc as [Hc _].
    now apply trim_incl. }
  split; [exact Hh|]. repeat split.
  - intros Hin. apply filter_In in Hin. destruct Hin as [_ Hin].
    now rewrite N.eqb_refl in Hin.
  - intros Hin. apply filter_In in Hin. destruct Hin as [_ Hin].
    rewrite N.eqb_refl, orb_true_r in Hin. discriminate.
  - intros Hin. apply Hno. now apply Hsubset.
  - intros c Hc. apply Hsub. now apply Hsubset.
Qed.

Lemma truthy_nonempty (v : jsstring) : truthy v = true -> v <> [].
Proof. now destruct v. Qed.

Lemma In_skipn {A : Type} (n : nat) (l : list A) (x : A) :
  In x (skipn n l) -> In x l.
Proof.
  revert l. induction n as [|n IH]; intros l H; [exact H|].
  destruct l as [|a l]; [destruct H|]. right. now apply IH.
Qed.

Lemma table_line_no_newline (b line : jsstring) :
  In line (tableLines b) -> ~ In nl line.
Proof.
  unfold tableLines, blockLines. intros H. apply In_skipn in H.
  now destruct (split_pieces nl (trim b) line H).
Qed.

(** What [parse_table] hands on when it returns a table. *)
Lemma parse_table_inv (b : jsstring) (t : table) :
  parse_table b = Returned (Some t) ->
  exists line,
    headerLine b = Some line
    /\ t = Table (nth 0 (blockLines b) undefinedText)
                 (parse_headers line) (parse_rows (data_lines b))
    /\ rows_valid (parse_headers line) (parse_rows (data_lines b)) = true.
Proof.
  unfold parse_table. intros H.
  destruct (separatorIndex b >? 0)%Z; [|discriminate].
  destruct (headerLine b) as [line|]; [|discriminate].
  destruct (rows_valid _ _) eqn:Ev; [|discriminate].
  injection H as <-. exists line. auto.
Qed.

(** X3: when a table is substituted, its labels hold no asterisk, no
    space, no pipe and no newline and are not empty; every row has as
    many cells as there are labels; and every cell is not empty, has no
    whitespace around it, and holds no pipe and no newline. *)
Theorem table_labels_and_cells_clean (b : jsstring) (t : table) :
  parse_table b = Returned (Some t) ->
  headers t <> [] /\ rows t <> []
  /\ (forall h, In h (headers t) ->
        h <> [] /\ ~ In star h /\ ~ In space h /\ ~ In pipe h /\ ~ In nl h)
  /\ (forall row, In row (rows t) ->
        length row = length (headers t)
        /\ forall v, In v row ->
             v <> [] /\ trim v = v /\ ~ In pipe v /\ ~ In nl v).
Proof.
  intros H. destruct (parse_table_inv b t H) as (line & Hline & -> & Hv).
  cbn [headers rows]. unfold rows_valid in Hv.
  apply andb_true_iff in Hv. destruct Hv as [Hv Hall].
  apply andb_true_iff in Hv. destruct Hv as [Hr Hh].
  split; [intros E; now rewrite E in Hh|].
  split; [intros E; now rewrite E in Hr|].
  split.
  - intros h Hin.
    destruct (parse_headers_clean line h Hin) as (Ht & Hs & Hsp & Hp & Hsub).
    repeat split; auto; [now apply truthy_nonempty|].
    intros Hnl. apply Hsub in Hnl.
    apply (table_line_no_newline b line); [|exact Hnl].
    unfold headerLine in Hline. now apply nth_error_In in Hline.
  - intros row Hin. rewrite forallb_forall in Hall. split.
    + apply Nat.eqb_eq. now apply Hall.
    + intros v Hv. apply parse_rows_In in Hin.
      destruct Hin as [_ (l & Hl & <-)].
      destruct (parse_cells_clean l v Hv) as (Ht & Htrim & Hp & Hsub).
      repeat split; auto; [now apply truthy_nonempty|].
      intros Hnl. apply Hsub in Hnl.
      apply (table_line_no_newline b l); [|exact Hnl].
      unfold data_lines in Hl. now apply In_skipn in Hl.
Qed.

Lemma table_labels_and_cells_clean_witness :
  headers (Table Samples.heading3 [str "Task"; str "Owner"]
                 [[str "Fix bug"; str "Alice"]; [str "Write docs"; str "Bob"]])
  <> [].
Proof.
  apply (table_labels_and_cells_clean Samples.filledBlock).
  vm_compute. reflexivity.
Defined.

(** X4: the new content made of a table is the heading line of the block,
    a newline, and for every row, in the order of the table, a blank line
    followed by one line a label: the first label behind a bullet, the
    others behind four spaces, each followed by a colon, a space and the
    cell of the row at the place of the label. *)
Theorem new_content_items (b : jsstring) (t : table) :
  parse_table b = Returned (Some t) ->
  new_content t
  = headerText t ++ nl :: concat (map (item_text (headers t)) (rows t)).
Proof.
  intros H. unfold new_content.
  rewrite render_rows_items.
  - now rewrite <- app_assoc.
  - intros row Hin.
    destruct (table_labels_and_cells_clean b t H) as (_ & _ & _ & Hrows).
    destruct (Hrows row Hin) as [Hlen Hcells]. split; [exact Hlen|].
    intros v Hv. destruct (Hcells v Hv) as [Hne _]. now destruct v.
Qed.

Lemma new_content_items_witness :
  new_content (Table Samples.heading3 [str "Task"; str "Owner"]
                     [[str "Fix bug"; str "Alice"]; [str "Write docs"; str "Bob"]])
  = Samples.heading3
      ++ nl :: concat [item_text [str "Task"; str "Owner"] [str "Fix bug"; str "Alice"];
                       item_text [str "Task"; str "Owner"] [str "Write docs"; str "Bob"]].
Proof.
  apply (new_content_items Samples.filledBlock). vm_compute. reflexivity.
Defined.

(** *** The two asterisk replacements *)

Lemma match_here_doubleStar (p : option char) (s : jsstring) :
  match_here doubleStar p s = if starts_with [star; star] s then Some 2 else None.
Proof.
  unfold match_here, doubleStar, lit. rewrite compile_seq, !compile_class.
  unfold expect_class. cbn [rest].
  destruct s as [|c s]; [reflexivity|]. cbn [class_matches starts_with].
  destruct (c =? star)%N eqn:Ec.
  - apply N.eqb_eq in Ec. subst c. rewrite N.eqb_refl. cbn [bind andb].
    rewrite compile_class. unfold expect_class. cbn [rest].
    destruct s as [|c2 s]; [reflexivity|]. cbn [class_matches starts_with].
    destruct (c2 =? star)%N eqn:Ec2.
    + apply N.eqb_eq in Ec2. subst c2. rewrite N.eqb_refl. cbn [bind andb rest].
      f_equal. cbn [length]. lia.
    + replace (star =? c2)%N with false
        by (symmetry; rewrite N.eqb_sym; exact Ec2).
      reflexivity.
  - replace (star =? c)%N with false by (symmetry; rewrite N.eqb_sym; exact Ec).
    reflexivity.
Qed.

Lemma strip_double_stars_only_stars :
  forall s k p,
    (forall c, In c (firstn k s) -> c = star) ->
    filter not_star (replace_all_from doubleStar [] p s k) = filter not_star s.
Proof.
  induction s as [|c s IH]; intros k p Hk.
  - destruct k; cbn [replace_all_from]; [|reflexivity].
    rewrite match_here_doubleStar. reflexivity.
  - destruct k as [|k]; cbn [replace_all_from].
    + rewrite match_here_doubleStar.
      destruct (starts_with [star; star] (c :: s)) eqn:E.
      * apply starts_with_inv in E. cbn [length skipn app] in E.
        injection E as -> E. cbn [app].
        rewrite (IH 1 (Some star)).
        -- cbn [filter]. unfold not_star at 2. now rewrite N.eqb_refl.
        -- rewrite E. cbn [firstn]. intros c [<-|[]]. reflexivity.
      * cbn [filter]. rewrite (IH 0 (Some c)) by (intros a []). reflexivity.
    + rewrite (IH k (Some c)).
      * cbn [filter]. unfold not_star at 2.
        rewrite (Hk c (or_introl eq_refl)), N.eqb_refl. reflexivity.
      * intros a Ha. apply Hk. now right.
Qed.

(** X5: lines 175 and 176 together delete the asterisks and nothing else;
    what line 175 does, line 176 would do alone.  So the cleanup is the
    trim of the condensed, bullet-standardized, unnumbered text without
    its asterisks. *)
Theorem asterisks_deleted (s : jsstring) :
  strip_stars (strip_double_stars s) = filter not_star s
  /\ strip_stars s = filter not_star s
  /\ cleanup s
     = trim (condense_newlines (standardize_bullets (strip_numbering
             (filter not_star s)))).
Proof.
  assert (H : strip_stars (strip_double_stars s) = filter not_star s).
  { rewrite strip_stars_filter. unfold strip_double_stars, replace_all.
    apply strip_double_stars_only_stars. intros c []. }
  split; [exact H|]. split; [apply strip_stars_filter|].
  unfold cleanup. now rewrite H.
Qed.

(** *** Summaries without a pipe *)

Lemma includes_single_false (c : char) (s : jsstring) :
  ~ In c s -> includes [c] s = false.
Proof.
  induction s as [|a s IH]; intros H; [reflexivity|].
  cbn [includes starts_with]. rewrite IH by (intros Hin; apply H; now right).
  destruct (N.eqb_spec c a) as [->|_]; [exfalso; apply H; now left|reflexivity].
Qed.

(** X6: a summary without any pipe is never reformatted, whatever
    headings it has: the result is the cleanup of the input. *)
Theorem no_pipe_no_substitution (s : jsstring) :
  ~ In pipe s ->
  action_block s = None
  /\ formatSummary (Str s) = Returned (cleanup s).
Proof.
  intros H.
  assert (Hb : action_block s = None).
  { unfold action_block.
    destruct (exec actionItemsRegex s) as [[i g]|] eqn:Hexec; [|reflexivity].
    destruct (action_block_first_occurrence s g i Hexec)
      as (before & after & Hs & _).
    rewrite (includes_single_false pipe g), andb_false_r; [reflexivity|].
    intros Hin. apply H. rewrite Hs. apply in_or_app. right.
    apply in_or_app. now left. }
  split; [exact Hb|]. apply formatSummary_unparsed.
  unfold reformat_action_items. now rewrite Hb.
Qed.

Lemma no_pipe_no_substitution_witness :
  formatSummary (Str (Samples.heading3 ++ nl :: Samples.notes))
  = Returned (cleanup (Samples.heading3 ++ nl :: Samples.notes)).
Proof.
  apply (no_pipe_no_substitution (Samples.heading3 ++ nl :: Samples.notes)).
  apply not_in_forallb. vm_compute. reflexivity.
Defined.

(** *** A list marker and the whitespace after it *)

Lemma replace_all_from_skip_run (r : regex) (repl u : jsstring) :
  forall w p, exists q,
    replace_all_from r repl p (w ++ u) (length w)
    = replace_all_from r repl q u 0.
Proof.
  induction w as [|c w IH]; intros p.
  - exists p. reflexivity.
  - cbn [app length replace_all_from]. apply IH.
Qed.

Lemma run_length_run (f : char -> bool) (w u : jsstring) :
  (forall c, In c w -> f c = true) ->
  match u with c :: _ => f c = false | [] => True end ->
  run_length f (w ++ u) = length w.
Proof.
  intros Hw Hu. induction w as [|c w IH].
  - destruct u as [|c u]; [reflexivity|]. cbn [app run_length]. now rewrite Hu.
  - cbn [app run_length length]. rewrite (Hw c (or_introl eq_refl)).
    f_equal. apply IH. intros a Ha. apply Hw. now right.
Qed.

(** X7: a dash or a bullet at the start of the summary takes all the
    whitespace after it with it, line breaks included: before a plain
    text, what is left is a bullet, one space and the text. *)
Theorem list_marker_swallows_whitespace (m : char) (ws u : jsstring) :
  existsb (N.eqb m) [dash; bullet] = true ->
  (forall c, In c ws -> is_space c = true) ->
  u <> [] -> forallb plain u = true ->
  formatSummary (Str (m :: ws ++ u)) = Returned (bullet :: space :: u).
Proof.
  intros Hm Hws Hne Hu. rewrite forallb_forall in Hu.
  assert (Hmc : m = dash \/ m = bullet).
  { cbn [existsb] in Hm. rewrite orb_false_r in Hm.
    apply orb_true_iff in Hm. rewrite !N.eqb_eq in Hm. exact Hm. }
  assert (Hin : forall c, In c (m :: ws ++ u) ->
                          c = m \/ is_space c = true \/ plain c = true).
  { intros c [<-|Hc]; [now left|]. right. apply in_app_or in Hc.
    destruct Hc; [left|right]; auto. }
  assert (Hnot : forall c0, c0 <> dash -> c0 <> bullet -> is_space c0 = false ->
                            plain c0 = false -> ~ In c0 (m :: ws ++ u)).
  { intros c0 H1 H2 H3 H4 Hc. apply Hin in Hc.
    destruct Hc as [->|[Hc|Hc]]; [destruct Hmc; congruence|congruence..]. }
  assert (Hstar := Hnot star ltac:(discriminate) ltac:(discriminate) eq_refl eq_refl).
  assert (Hhash := Hnot hash ltac:(discriminate) ltac:(discriminate) eq_refl eq_refl).
  destruct (no_hash_no_block _ Hhash) as [Hr Hnum].
  rewrite (formatSummary_unparsed _ Hr). f_equal. unfold cleanup.
  rewrite (strip_double_stars_fixed _ Hstar), (strip_stars_fixed _ Hstar), Hnum.
  assert (Hsp : forall c, In c u -> is_space c = false)
    by (intros c Hc; now destruct (plain_inv c (Hu c Hc))).
  assert (Hhead : match u with c :: _ => is_space c = false | [] => True end).
  { destruct u as [|c u]; [exact I|]. apply Hsp. now left. }
  assert (Hbul : standardize_bullets (m :: ws ++ u) = bullet :: space :: u).
  { unfold standardize_bullets, replace_all.
    rewrite (replace_all_bullet bulletIndent None m (ws ++ u) Hm eq_refl).
    rewrite (run_length_run is_space ws u Hws Hhead).
    destruct (replace_all_from_skip_run lineBullet bulletIndent u ws (Some m))
      as [q ->].
    rewrite replace_all_unmatched; [reflexivity|].
    apply unmatched_lineBullet; intros Hc; apply Hu in Hc; discriminate Hc. }
  rewrite Hbul.
  rewrite condense_fixed.
  - apply trim_fixed; [reflexivity|].
    change (bullet :: space :: u) with ([bullet; space] ++ u).
    apply ends_tight_app; [exact Hne|]. now apply all_nonspace_tight.
  - apply no_nl_no_blank_run. intros [Hc|[Hc|Hc]]; try discriminate Hc.
    apply Hsp in Hc. discriminate Hc.
Qed.

Lemma list_marker_swallows_whitespace_witness :
  formatSummary (Str (dash :: [space; nl; nl; nl] ++ Samples.notes))
  = Returned (bullet :: space :: Samples.notes).
Proof.
  apply (list_marker_swallows_whitespace dash [space; nl; nl; nl] Samples.notes).
  - reflexivity.
  - intros c [<-|[<-|[<-|[<-|[]]]]]; reflexivity.
  - discriminate.
  - vm_compute. reflexivity.
Defined.

(** *** Heading numbering *)

Lemma heading_dot_digit (hs w1 : jsstring) (d c : char) (t : jsstring) :
  (forall a, In a hs -> class_matches (CChar hash) a = true) ->
  (forall a, In a w1 -> class_matches CSpace a = true) ->
  is_digit d = true ->
  forall p,
    heading_dot (State p (hash :: hs ++ w1 ++ d :: c :: t))
    = if (c =? dot)%N then Some (State (Some c) t) else None.
Proof.
  intros Hall1 Hall2 Hdig p.
  unfold heading_dot, skip.
  cbn [app expect_class rest class_matches]. rewrite N.eqb_refl.
  cbn [bind prev rest].
  rewrite (skip_class_run (CChar hash) (w1 ++ d :: c :: t)).
  2:{ destruct w1 as [|a w1]; cbn [app class_matches].
      - now apply digit_not_hash.
      - apply space_not_hash. apply Hall2. now left. }
  2: exact Hall1.
  cbn [prev rest].
  rewrite (skip_class_run CSpace (d :: c :: t)).
  2:{ cbn [class_matches]. now apply digit_not_space. }
  2: exact Hall2.
  cbn [expect_class rest class_matches]. rewrite Hdig.
  cbn [bind expect_class rest class_matches].
  now destruct (c =? dot)%N.
Qed.

Lemma unmatched_hash_run (r : regex) (tail : jsstring) :
  unmatched r tail ->
  (forall hs p, (forall a, In a hs -> class_matches (CChar hash) a = true) ->
                match_here r p (hash :: hs ++ tail) = None) ->
  forall hs, (forall a, In a hs -> class_matches (CChar hash) a = true) ->
             unmatched r (hash :: hs ++ tail).
Proof.
  intros Htail Hrun. induction hs as [|h hs IH]; intros Hall.
  - split; [intros p; now apply (Hrun [])|exact Htail].
  - split; [intros p; now apply Hrun|].
    assert (Hh : h = hash).
    { specialize (Hall h (or_introl eq_refl)). cbn [class_matches] in Hall.
      apply N.eqb_eq in Hall. now symmetry. }
    subst h. cbn [app]. apply IH. intros a Ha. apply Hall. now right.
Qed.

Lemma match_here_lineNumbering (p : option char) (s : jsstring) :
  match_here lineNumbering p s
  = if line_start p
    then match bind (heading_dot (State p s))
                    (fun y => Some (skip_class CSpace (prev y) (rest y))) with
         | Some y => Some (length s - length (rest y))
         | None => None
         end
    else None.
Proof.
  unfold match_here, lineNumbering. rewrite compile_seq, compile_lineStart.
  cbn [prev]. destruct (line_start p); [|reflexivity].
  rewrite compile_numberedHeading.
  destruct (heading_dot (State p s)) as [y|]; [|reflexivity]. cbn [bind].
  now rewrite (greedy_class_deepest CSpace (fun y => Some y)
                 (skip_class CSpace (prev y) (rest y)) (rest y) (prev y) eq_refl).
Qed.

Lemma digit_plain (d : char) : is_digit d = true -> plain d = true.
Proof.
  intros H. unfold plain. rewrite (digit_not_space d H).
  unfold is_digit in H. apply andb_true_iff in H. rewrite !N.leb_le in H.
  unfold star, hash, dash, bullet.
  repeat match goal with
         | |- context [(d =? ?k)%N] => destruct (N.eqb_spec d k); [lia|]
         end.
  reflexivity.
Qed.

Lemma no_match_no_block (s : jsstring) :
  unmatched actionItemsRegex s -> reformat_action_items s = Returned s.
Proof.
  intros H. unfold reformat_action_items, action_block, exec.
  now rewrite (exec_unmatched actionItemsRegex s None 0 H).
Qed.

Lemma plain_text_fixed (s : jsstring) :
  s <> [] -> (forall c, In c s -> plain c = true) ->
  trim (condense_newlines (standardize_bullets s)) = s.
Proof.
  intros Hne Hs.
  assert (Hsp : forall c, In c s -> is_space c = false)
    by (intros c Hc; now destruct (plain_inv c (Hs c Hc))).
  rewrite standardize_bullets_fixed
    by (intros Hc; apply Hs in Hc; discriminate Hc).
  rewrite condense_fixed
    by (apply no_nl_no_blank_run; intros Hc; apply Hsp in Hc; discriminate Hc).
  apply trim_fixed; [|now apply all_nonspace_tight].
  destruct s as [|c s]; [exact I|]. apply Hsp. now left.
Qed.

(** X8: the numbering of a heading at the start of the summary is
    deleted with its hashes and with all the whitespace around it, line
    breaks included, when the number is one digit; with two digits the
    heading is kept as it is, hashes included. *)
Theorem heading_numbering (n : nat) (w1 w2 : jsstring) (d d2 : char) (u : jsstring) :
  (forall c, In c w1 -> is_space c = true) ->
  (forall c, In c w2 -> is_space c = true) ->
  is_digit d = true -> is_digit d2 = true ->
  u <> [] -> forallb plain u = true ->
  formatSummary (Str (repeat hash (S n) ++ w1 ++ d :: dot :: w2 ++ u)) = Returned u
  /\ formatSummary (Str (repeat hash (S n) ++ space :: d :: d2 :: dot :: space :: u))
     = Returned (repeat hash (S n) ++ space :: d :: d2 :: dot :: space :: u).
Proof.
  intros Hw1 Hw2 Hd Hd2 Hne Hu. rewrite forallb_forall in Hu.
  assert (Hhs : forall a, In a (repeat hash n) -> class_matches (CChar hash) a = true).
  { intros a Ha. apply repeat_spec in Ha. subst a. reflexivity. }
  assert (Hsp : forall c, In c u -> is_space c = false)
    by (intros c Hc; now destruct (plain_inv c (Hu c Hc))).
  assert (Hhead : match u with c :: _ => class_matches CSpace c = false | [] => True end).
  { destruct u as [|c u]; [exact I|]. apply Hsp. now left. }
  assert (Htitle : forall p, expect_lits actionItemsTitle (State p u) = None).
  { intros p. destruct (expect_lits actionItemsTitle (State p u)) as [y|] eqn:E;
      [|reflexivity].
    apply expect_lits_inv in E. cbn [rest] in E.
    assert (Hin : In space u) by (rewrite E; apply in_or_app; left; cbn; tauto).
    apply Hsp in Hin. discriminate Hin. }
  cbn [repeat app]. generalize dependent (repeat hash n). intros hs Hhs.
  split.
  - set (tail := w1 ++ d :: dot :: w2 ++ u).
    assert (Hin : forall c, In c tail ->
                            is_space c = true \/ c = d \/ c = dot \/ plain c = true).
    { unfold tail. intros c Hc. apply in_app_or in Hc.
      destruct Hc as [Hc|[<-|[<-|Hc]]]; auto.
      apply in_app_or in Hc. destruct Hc; auto. }
    assert (Hnot : forall c0, is_space c0 = false -> is_digit c0 = false ->
                              c0 <> dot -> plain c0 = false -> ~ In c0 tail).
    { intros c0 H1 H2 H3 H4 Hc. apply Hin in Hc.
      destruct Hc as [Hc|[->|[->|Hc]]]; congruence. }
    assert (Hhash : ~ In hash tail) by (apply Hnot; (reflexivity || discriminate)).
    assert (Hstar : ~ In star (hash :: hs ++ tail)).
    { intros [Hc|Hc]; [discriminate Hc|]. apply in_app_or in Hc.
      destruct Hc as [Hc|Hc].
      - apply Hhs in Hc. discriminate Hc.
      - revert Hc. apply Hnot; (reflexivity || discriminate). }
    assert (Hact : unmatched actionItemsRegex (hash :: hs ++ tail)).
    { apply unmatched_hash_run; [now apply unmatched_actionItemsRegex| |exact Hhs].
      intros hs' p Hhs'. rewrite match_here_actionItemsRegex.
      unfold heading_title, tail.
      rewrite (heading_dot_digit hs' w1 d dot (w2 ++ u) Hhs' Hw1 Hd p).
      rewrite N.eqb_refl. cbn [bind]. unfold skip. cbn [prev rest].
      rewrite (skip_class_run CSpace u Hhead w2 (Some dot) Hw2).
      now rewrite Htitle. }
    rewrite (formatSummary_unparsed _ (no_match_no_block _ Hact)). f_equal.
    unfold cleanup.
    rewrite (strip_double_stars_fixed _ Hstar), (strip_stars_fixed _ Hstar).
    assert (Hnum : strip_numbering (hash :: hs ++ tail) = u).
    { unfold strip_numbering, replace_all. cbn [replace_all_from].
      rewrite match_here_lineNumbering. cbn [line_start]. unfold tail.
      rewrite (heading_dot_digit hs w1 d dot (w2 ++ u) Hhs Hw1 Hd None).
      rewrite N.eqb_refl. cbn [bind prev rest].
      rewrite (skip_class_run CSpace u Hhead w2 (Some dot) Hw2). cbn [rest].
      replace (hs ++ w1 ++ d :: dot :: w2 ++ u)
        with ((hs ++ w1 ++ d :: dot :: w2) ++ u)
        by (repeat rewrite <- app_assoc; cbn [app];
            now repeat rewrite <- app_assoc).
      replace (length (hash :: (hs ++ w1 ++ d :: dot :: w2) ++ u) - length u)
        with (S (length (hs ++ w1 ++ d :: dot :: w2)))
        by (cbn [length];
            rewrite (length_app (hs ++ w1 ++ d :: dot :: w2) u); lia).
      cbn [app].
      destruct (replace_all_from_skip_run lineNumbering [] u
                  (hs ++ w1 ++ d :: dot :: w2) (Some hash)) as [q ->].
      apply replace_all_unmatched, unmatched_lineNumbering.
      intros Hc. apply Hu in Hc. discriminate Hc. }
    rewrite Hnum. now apply plain_text_fixed.
  - set (tail := space :: d :: d2 :: dot :: space :: u).
    assert (Hd2dot : (d2 =? dot)%N = false).
    { destruct (N.eqb_spec d2 dot) as [->|]; [discriminate Hd2|reflexivity]. }
    assert (Hin : forall c, In c tail -> c = space \/ plain c = true).
    { unfold tail. intros c [<-|[<-|[<-|[<-|[<-|Hc]]]]]; auto;
        right; auto using digit_plain. }
    assert (Hnot : forall c0, c0 <> space -> plain c0 = false -> ~ In c0 tail).
    { intros c0 H1 H2 Hc. apply Hin in Hc. destruct Hc; congruence. }
    assert (Hhash : ~ In hash tail) by (apply Hnot; (reflexivity || discriminate)).
    assert (Hdot : forall hs' p,
               (forall a, In a hs' -> class_matches (CChar hash) a = true) ->
               heading_dot (State p (hash :: hs' ++ tail)) = None).
    { intros hs' p Hhs'. unfold tail.
      rewrite (heading_dot_digit hs' [space] d d2 (dot :: space :: u) Hhs').
      - now rewrite Hd2dot.
      - intros a [<-|[]]. reflexivity.
      - exact Hd. }
    assert (Hall : forall c0, c0 <> hash -> c0 <> space -> plain c0 = false ->
                              ~ In c0 (hash :: hs ++ tail)).
    { intros c0 H0 H1 H2 [Hc|Hc]; [congruence|]. apply in_app_or in Hc.
      destruct Hc as [Hc|Hc].
      - apply Hhs in Hc. cbn [class_matches] in Hc. apply N.eqb_eq in Hc. congruence.
      - revert Hc. now apply Hnot. }
    assert (Hstar : ~ In star (hash :: hs ++ tail))
      by (apply Hall; (reflexivity || discriminate)).
    assert (Hact : unmatched actionItemsRegex (hash :: hs ++ tail)).
    { apply unmatched_hash_run; [now apply unmatched_actionItemsRegex| |exact Hhs].
      intros hs' p Hhs'. rewrite match_here_actionItemsRegex.
      unfold heading_title. now rewrite (Hdot hs' p Hhs'). }
    assert (Hnum : unmatched lineNumbering (hash :: hs ++ tail)).
    { apply unmatched_hash_run; [now apply unmatched_lineNumbering| |exact Hhs].
      intros hs' p Hhs'. rewrite match_here_lineNumbering.
      rewrite (Hdot hs' p Hhs'). now destruct (line_start p). }
    rewrite (formatSummary_unparsed _ (no_match_no_block _ Hact)). f_equal.
    unfold cleanup.
    rewrite (strip_double_stars_fixed _ Hstar), (strip_stars_fixed _ Hstar).
    change (strip_numbering (hash :: hs ++ tail))
      with (replace_all_from lineNumbering [] None (hash :: hs ++ tail) 0).
    rewrite (replace_all_unmatched lineNumbering [] _ None Hnum).
    rewrite standardize_bullets_fixed by (apply Hall; (reflexivity || discriminate)).
    rewrite condense_fixed
      by (apply no_nl_no_blank_run, Hall; (reflexivity || discriminate)).
    apply trim_fixed; [reflexivity|].
    change (hash :: hs ++ tail) with ((hash :: hs) ++ tail).
    unfold tail.
    change (space :: d :: d2 :: dot :: space :: u)
      with ([space; d; d2; dot; space] ++ u).
    rewrite app_assoc. apply ends_tight_app; [exact Hne|].
    now apply all_nonspace_tight.
Qed.

Lemma heading_numbering_witness :
  formatSummary (Str (repeat hash 2 ++ [space] ++ 50%N :: dot :: [space; nl] ++ Samples.notes))
  = Returned Samples.notes
  /\ formatSummary
       (Str (repeat hash 2 ++ space :: 49%N :: 50%N :: dot :: space :: Samples.notes))
     = Returned (repeat hash 2 ++ space :: 49%N :: 50%N :: dot :: space :: Samples.notes).
Proof.
  split.
  - apply (heading_numbering 1 [space] [space; nl] 50%N 50%N Samples.notes);
      try reflexivity; try discriminate.
    + intros c [<-|[]]; reflexivity.
    + intros c [<-|[<-|[]]]; reflexivity.
  - apply (heading_numbering 1 [] [] 49%N 50%N Samples.notes);
      try reflexivity; try discriminate; intros c [].
Defined.

(* ================================================================== *)
(** ** Further properties of the popup *)

(** ** The status line *)

Lemma string_eqb_eq (a b : jsstring) : string_eqb a b = true <-> a = b.
Proof.
  revert b. induction a as [|x a IH]; intros [|y b]; cbn [string_eqb];
    try (split; [discriminate|discriminate]); [tauto|].
  rewrite andb_true_iff, N.eqb_eq, IH. split.
  - now intros [-> ->].
  - now intros [= -> ->].
Qed.

Lemma string_eqb_refl (a : jsstring) : string_eqb a a = true.
Proof. now apply string_eqb_eq. Qed.

Lemma string_eqb_sym (a b : jsstring) : string_eqb a b = string_eqb b a.
Proof.
  destruct (string_eqb a b) eqn:E.
  - apply string_eqb_eq in E. subst. symmetry. apply string_eqb_refl.
  - destruct (string_eqb b a) eqn:E'; [|reflexivity].
    apply string_eqb_eq in E'. subst. now rewrite string_eqb_refl in E.
Qed.

Lemma classList_contains_In (token : jsstring) (tokens : list jsstring) :
  classList_contains token tokens = true <-> In token tokens.
Proof.
  unfold classList_contains. rewrite existsb_exists. split.
  - intros (t & Hin & Heq). apply string_eqb_eq in Heq. now subst.
  - intros Hin. exists token. split; [exact Hin|apply string_eqb_refl].
Qed.

Lemma classList_add_In (token t : jsstring) (tokens : list jsstring) :
  In t (classList_add token tokens) <-> t = token \/ In t tokens.
Proof.
  unfold classList_add.
  destruct (classList_contains token tokens) eqn:E.
  - apply classList_contains_In in E. split; [tauto|]. now intros [->|H].
  - rewrite in_app_iff. cbn [In]. split; [intros [H|[H|[]]]|intros [H|H]]; auto.
Qed.

Lemma classList_remove_In (token t : jsstring) (tokens : list jsstring) :
  In t (classList_remove token tokens) <-> t <> token /\ In t tokens.
Proof.
  unfold classList_remove. rewrite filter_In, negb_true_iff.
  split; intros [H1 H2]; split; auto.
  - intros ->. now rewrite string_eqb_refl in H2.
  - destruct (string_eqb t token) eqn:E; [|reflexivity].
    apply string_eqb_eq in E. contradiction.
Qed.

Lemma ordered_set_In (t : jsstring) (tokens : list jsstring) :
  In t (ordered_set tokens) <-> In t tokens.
Proof.
  induction tokens as [|u tokens IH]; cbn [ordered_set In]; [tauto|].
  rewrite filter_In, IH, negb_true_iff. split.
  - intros [H|[H _]]; auto.
  - intros [H|H]; auto.
    destruct (string_eqb t u) eqn:E; [|auto].
    apply string_eqb_eq in E. auto.
Qed.

(** The first token of a class attribute that starts with a word. *)
Lemma split_when_word (f : char -> bool) (w rest : jsstring) :
  forallb (fun c => negb (f c)) w = true ->
  split_when f w = [w]
  /\ forall c, f c = true -> split_when f (w ++ c :: rest) = w :: split_when f rest.
Proof.
  induction w as [|a w IH]; cbn [forallb app split_when].
  - intros _. split; [reflexivity|]. now intros c ->.
  - rewrite andb_true_iff, negb_true_iff. intros [Ha Hw].
    destruct (IH Hw) as [E1 E2]. rewrite Ha, E1. split; [reflexivity|].
    intros c Hc. now rewrite (E2 c Hc).
Qed.

Lemma status_class_present (type : jsstring) :
  In cls_status
     (parse_class (cls_status ++ (if truthy type then space :: type else []))).
Proof.
  unfold parse_class. apply ordered_set_In, filter_In.
  destruct (split_when_word is_ascii_whitespace cls_status type eq_refl) as [E1 E2].
  destruct (truthy type).
  - rewrite (E2 space eq_refl). split; [now left|reflexivity].
  - rewrite app_nil_r, E1. split; [now left|reflexivity].
Qed.

Lemma showStatus_completed (msg type : jsstring) (d d' : status_display) :
  showStatus msg type d = Completed d' ->
  exists text_at icon_at,
    querySelector cls_status_text (children d) = Some text_at
    /\ querySelector cls_status_icon (children d) = Some icon_at
    /\ let tokens :=
         parse_class (cls_status ++ (if truthy type then space :: type else [])) in
       let els :=
         set_textContent icon_at (status_icon_for type)
           (set_textContent text_at msg (children d)) in
       d' = if names_activity msg
            then addLoadingSpinner
                   (StatusDisplay (classList_add cls_processing tokens) els)
            else removeLoadingSpinner
                   (StatusDisplay (classList_remove cls_processing tokens) els).
Proof.
  unfold showStatus.
  destruct (querySelector cls_status_text (children d)) as [text_at|]; [|discriminate].
  destruct (querySelector cls_status_icon (children d)) as [icon_at|]; [|discriminate].
  cbn [status_classes children]. intros H. exists text_at, icon_at.
  repeat split. cbv zeta.
  destruct (names_activity msg); now injection H as <-.
Qed.

Lemma addLoadingSpinner_classes (d : status_display) :
  status_classes (addLoadingSpinner d) = status_classes d.
Proof.
  unfold addLoadingSpinner. now destruct (querySelector _ _).
Qed.

Lemma removeLoadingSpinner_classes (d : status_display) :
  status_classes (removeLoadingSpinner d) = status_classes d.
Proof.
  unfold removeLoadingSpinner. now destruct (querySelector _ _).
Qed.

(** X9: when [showStatus] returns, the status line has the class
    [status], and it has the class [processing] exactly when the message
    holds "Processing", "Recording" or "Uploading", whatever type was
    passed: a call with the type "processing" and another message leaves
    the line without that class. *)
Theorem processing_class_by_message (msg type : jsstring) (d d' : status_display) :
  showStatus msg type d = Completed d' ->
  classList_contains cls_status (status_classes d') = true
  /\ classList_contains cls_processing (status_classes d') = names_activity msg.
Proof.
  intros H. destruct (showStatus_completed msg type d d' H)
    as (text_at & icon_at & _ & _ & ->). cbv zeta.
  pose proof (status_class_present type) as Hs.
  destruct (names_activity msg).
  - rewrite addLoadingSpinner_classes. cbn [status_classes].
    split; apply classList_contains_In, classList_add_In; auto.
  - rewrite removeLoadingSpinner_classes. cbn [status_classes]. split.
    + apply classList_contains_In, classList_remove_In. split; [discriminate|exact Hs].
    + apply not_true_is_false. intros Hc.
      apply classList_contains_In, classList_remove_In in Hc. now destruct Hc.
Qed.

Lemma processing_class_by_message_witness :
  exists d',
    showStatus msgPosting cls_processing statusLine = Completed d'
    /\ classList_contains cls_processing (status_classes d') = false.
Proof.
  eexists. split; [vm_compute; reflexivity|].
  refine (proj2 (processing_class_by_message msgPosting cls_processing statusLine _ _)).
  vm_compute. reflexivity.
Defined.

(** *** The spinner *)

Lemma set_textContent_classes (i : nat) (text : jsstring) (els : list element) :
  map classes (set_textContent i text els) = map classes els.
Proof.
  revert i. induction els as [|e els IH]; intros [|i]; cbn; try reflexivity.
  now rewrite IH.
Qed.

(** What depends on the classes alone is not changed by a new text. *)
Lemma querySelector_classes (token : jsstring) (els els' : list element) :
  map classes els = map classes els' ->
  querySelector token els = querySelector token els'.
Proof.
  revert els'. induction els as [|e els IH]; intros [|e' els']; cbn [map];
    try discriminate; [reflexivity|].
  intros [= He Hels]. cbn [querySelector]. rewrite He.
  now rewrite (IH els' Hels).
Qed.

Lemma existsb_classes (g : list jsstring -> bool) (els els' : list element) :
  map classes els = map classes els' ->
  existsb (fun e => g (classes e)) els = existsb (fun e => g (classes e)) els'.
Proof.
  revert els'. induction els as [|e els IH]; intros [|e' els']; cbn [map];
    try discriminate; [reflexivity|].
  intros [= He Hels]. cbn [existsb]. rewrite He. now rewrite (IH els' Hels).
Qed.

Lemma spinners_classes (els els' : list element) :
  map classes els = map classes els' ->
  length (filter is_spinner els) = length (filter is_spinner els').
Proof.
  revert els'. induction els as [|e els IH]; intros [|e' els']; cbn [map];
    try discriminate; [reflexivity|].
  intros [= He Hels]. cbn [filter].
  change (is_spinner e) with (classList_contains cls_loading_spinner (classes e)).
  change (is_spinner e') with (classList_contains cls_loading_spinner (classes e')).
  rewrite He.
  destruct (classList_contains _ _); cbn [length]; now rewrite (IH els' Hels).
Qed.

Lemma querySelector_none (token : jsstring) (els : list element) :
  querySelector token els = None ->
  filter (fun e => classList_contains token (classes e)) els = [].
Proof.
  induction els as [|e els IH]; cbn [querySelector filter]; [reflexivity|].
  destruct (classList_contains token (classes e)); [discriminate|].
  destruct (querySelector token els); [discriminate|]. intros _. now apply IH.
Qed.

Lemma querySelector_some (token : jsstring) (els : list element) (i : nat) :
  querySelector token els = Some i ->
  S (length (filter (fun e => classList_contains token (classes e))
                    (remove_at i els)))
  = length (filter (fun e => classList_contains token (classes e)) els)
  /\ forall f : element -> bool,
       (forall e, f e = true -> classList_contains token (classes e) = false) ->
       existsb f (remove_at i els) = existsb f els.
Proof.
  revert i. induction els as [|e els IH]; intros i; cbn [querySelector];
    [discriminate|].
  destruct (classList_contains token (classes e)) eqn:He.
  - intros [= <-]. cbn [remove_at filter]. rewrite He. split; [reflexivity|].
    intros f Hf. cbn [existsb]. destruct (f e) eqn:Hfe; [|reflexivity].
    apply Hf in Hfe. congruence.
  - destruct (querySelector token els) as [j|]; [|discriminate].
    intros [= <-]. destruct (IH j eq_refl) as [Hn Hf].
    cbn [remove_at filter existsb]. rewrite He. split; [exact Hn|].
    intros f H. now rewrite (Hf f H).
Qed.

Lemma existsb_weaken {A : Type} (f g : A -> bool) (l : list A) :
  (forall a, f a = true -> g a = true) ->
  existsb f l = true -> existsb g l = true.
Proof.
  intros H. rewrite !existsb_exists. intros (a & Hin & Hf). eauto.
Qed.

Lemma querySelector_found (token : jsstring) (els : list element) :
  existsb (fun e => classList_contains token (classes e)) els = true ->
  exists i, querySelector token els = Some i.
Proof.
  induction els as [|e els IH]; cbn [existsb querySelector]; [discriminate|].
  destruct (classList_contains token (classes e)); [eauto|].
  cbn [orb]. intros H. destruct (IH H) as [i ->]. cbn. eauto.
Qed.

Lemma showStatus_ready (msg type : jsstring) (d : status_display) :
  status_ready d ->
  exists d',
    showStatus msg type d = Completed d'
    /\ status_ready d'
    /\ spinner_count d' = (if names_activity msg then 1 else 0)
    /\ status_classes d' =
       let tokens :=
         parse_class (cls_status ++ (if truthy type then space :: type else [])) in
       if names_activity msg then classList_add cls_processing tokens
       else classList_remove cls_processing tokens.
Proof.
  intros (Hicon & Htext & Hcount).
  destruct (querySelector_found cls_status_icon (children d)) as [icon_at Ei].
  { revert Hicon. apply existsb_weaken. intros e He.
    now apply andb_true_iff in He. }
  destruct (querySelector_found cls_status_text (children d)) as [text_at Et].
  { revert Htext. apply existsb_weaken. intros e He.
    now apply andb_true_iff in He. }
  unfold showStatus. rewrite Ei, Et. cbn [children status_classes].
  set (els := set_textContent icon_at _ (set_textContent text_at msg (children d))).
  assert (Hcl : map classes els = map classes (children d)).
  { unfold els. now rewrite !set_textContent_classes. }
  assert (Hicon' : existsb (fun e => classList_contains cls_status_icon (classes e)
                                     && negb (is_spinner e)) els = true).
  { rewrite <- Hicon.
    apply (existsb_classes
             (fun c => classList_contains cls_status_icon c
                       && negb (classList_contains cls_loading_spinner c)) _ _ Hcl). }
  assert (Htext' : existsb (fun e => classList_contains cls_status_text (classes e)
                                     && negb (is_spinner e)) els = true).
  { rewrite <- Htext.
    apply (existsb_classes
             (fun c => classList_contains cls_status_text c
                       && negb (classList_contains cls_loading_spinner c)) _ _ Hcl). }
  assert (Hcount' : length (filter is_spinner els) <= 1).
  { now rewrite (spinners_classes _ _ Hcl). }
  clearbody els. clear Hcl Hicon Htext Hcount Ei Et.
  destruct (names_activity msg); eexists; (split; [reflexivity|]);
    match goal with
    | |- ?A /\ ?B /\ ?C =>
      assert (HC : C)
        by (now rewrite ?addLoadingSpinner_classes, ?removeLoadingSpinner_classes);
      cut (A /\ B); [tauto|clear HC]
    end.
  - unfold addLoadingSpinner. cbn [children status_classes].
    destruct (querySelector cls_loading_spinner els) as [i|] eqn:Eq.
    + unfold status_ready, spinner_count. cbn [children].
      repeat split; try assumption.
      destruct (querySelector_some _ _ _ Eq) as [Hn _].
      fold is_spinner in Hn. lia.
    + apply querySelector_none in Eq. fold is_spinner in Eq.
      unfold status_ready, spinner_count. cbn [children existsb filter].
      rewrite Hicon', Htext', !orb_true_r.
      change (is_spinner (Element (parse_class cls_loading_spinner) [])) with true.
      cbv iota. rewrite Eq. cbn [length]. repeat split. lia.
  - unfold removeLoadingSpinner. cbn [children status_classes].
    destruct (querySelector cls_loading_spinner els) as [i|] eqn:Eq.
    + destruct (querySelector_some _ _ _ Eq) as [Hn Hf]. fold is_spinner in Hn.
      unfold status_ready, spinner_count. cbn [children].
      rewrite !Hf.
      * repeat split; try assumption; lia.
      * intros e He. apply andb_true_iff in He. destruct He as [_ He].
        now apply negb_true_iff in He.
      * intros e He. apply andb_true_iff in He. destruct He as [_ He].
        now apply negb_true_iff in He.
    + apply querySelector_none in Eq. fold is_spinner in Eq.
      unfold status_ready, spinner_count. cbn [children]. rewrite Eq.
      repeat split; try assumption. cbn. lia.
Qed.


(** X10: on a status line that has its icon and its text element, with
    one spinner at most and none of the two being one, [showStatus]
    throws nothing and leaves the line in that shape, with one spinner
    when the message holds "Processing", "Recording" or "Uploading" and
    none otherwise; so no sequence of calls stacks spinners or loses an
    element. *)
Theorem status_line_stays_ready (msg type : jsstring) (d : status_display) :
  status_ready d ->
  exists d',
    showStatus msg type d = Completed d'
    /\ status_ready d'
    /\ spinner_count d' = (if names_activity msg then 1 else 0).
Proof.
  intros H. destruct (showStatus_ready msg type d H) as (d' & E & Hr & Hc & _).
  now exists d'.
Qed.

Lemma status_line_stays_ready_witness :
  status_ready statusLine
  /\ exists d',
       showStatus wordUploading cls_processing statusLine = Completed d'
       /\ status_ready d'
       /\ spinner_count d' = 1.
Proof.
  assert (H : status_ready statusLine).
  { unfold status_ready. vm_compute. repeat split. lia. }
  split; [exact H|].
  exact (status_line_stays_ready wordUploading cls_processing statusLine H).
Defined.

(** ** The answer of the backend *)

Lemma formatSummary_returns (s : jsstring) :
  exists out, formatSummary (Str s) = Returned out.
Proof.
  destruct s as [|c s]; [now exists []|].
  destruct (reformat_returns (c :: s)) as [f Hf].
  exists (cleanup f). unfold formatSummary. now rewrite Hf.
Qed.

Lemma trim_all_space (s : jsstring) :
  (forall c, In c s -> is_space c = true) -> trim s = [].
Proof.
  intros H. unfold trim, trim_start. now rewrite (drop_while_all is_space s H).
Qed.

(** A summary of whitespace alone is formatted to the empty string. *)
Lemma formatSummary_blank (s : jsstring) :
  (forall c, In c s -> is_space c = true) -> formatSummary (Str s) = Returned [].
Proof.
  intros H.
  assert (Hnot : forall c, is_space c = false -> ~ In c s).
  { intros c Hc Hin. apply H in Hin. congruence. }
  destruct (no_hash_no_block s (Hnot hash eq_refl)) as [Hr Hn].
  rewrite (formatSummary_unparsed s Hr). unfold cleanup.
  rewrite (strip_double_stars_fixed s (Hnot star eq_refl)).
  rewrite (strip_stars_fixed s (Hnot star eq_refl)), Hn.
  rewrite (standardize_bullets_fixed s (Hnot dash eq_refl) (Hnot bullet eq_refl)).
  f_equal. apply trim_all_space. intros c Hc.
  apply replace_all_incl in Hc. destruct Hc as [Hc|Hc]; [now apply H|].
  cbn in Hc. now destruct Hc as [<-|[<-|[]]].
Qed.

Lemma popup_showStatus_ready (msg type : jsstring) (st : popup) :
  status_ready (statusDisplay st) ->
  exists d',
    popup_showStatus msg type st = Completed (with_status st d')
    /\ status_ready d'
    /\ spinner_count d' = (if names_activity msg then 1 else 0)
    /\ status_classes d' =
       let tokens :=
         parse_class (cls_status ++ (if truthy type then space :: type else [])) in
       if names_activity msg then classList_add cls_processing tokens
       else classList_remove cls_processing tokens.
Proof.
  intros H. destruct (showStatus_ready msg type _ H) as (d' & E & Hd').
  exists d'. split; [|exact Hd']. unfold popup_showStatus. now rewrite E.
Qed.

Lemma on_error_ready (st : popup) :
  status_ready (statusDisplay st) ->
  exists d',
    on_error st = Completed (showToast toastFailed cls_error
                               (with_status (clearInterval st) d'))
    /\ status_ready d'
    /\ spinner_count d' = 0
    /\ status_classes d' = [cls_status; cls_error].
Proof.
  intros H. unfold on_error.
  destruct (popup_showStatus_ready msgFailed cls_error (clearInterval st) H)
    as (d' & -> & Hd').
  exists d'. split; [reflexivity|exact Hd'].
Qed.

Section AnswerProperties.

Variable number : Type.
Variable number_truthy : number -> bool.

(** X11: the condition on the answer holds exactly for an object whose
    [summary] is an object whose [formatted_text] is a non-empty string
    not starting with "Error"; it throws exactly when the answer is
    [null], or when [formatted_text] is truthy and no string (a number
    other than zero, [true], an array, an object), the case in which the
    user is told "Error processing audio." *)
Theorem summary_text_cases (data : json number) :
  (forall text,
     summary_text number_truthy data = Returned (Some text)
     <-> exists properties fields,
           data = JObject properties
           /\ own_property key_summary properties = Some (JObject fields)
           /\ own_property key_formatted_text fields = Some (JString text)
           /\ text <> []
           /\ starts_with wordError text = false)
  /\ (summary_text number_truthy data = Thrown
      <-> data = JNull
          \/ exists properties fields value,
               data = JObject properties
               /\ own_property key_summary properties = Some (JObject fields)
               /\ own_property key_formatted_text fields = Some value
               /\ json_truthy number_truthy (Some value) = true
               /\ forall text, value <> JString text).
Proof.
  split; [intros text|]; split.
  - unfold summary_text.
    destruct data as [| | | | |properties]; cbn [get_property json_truthy];
      try discriminate.
    destruct (own_property key_summary properties) as [summary|] eqn:Es;
      cbn [json_truthy]; [|discriminate].
    destruct summary as [|b|n|s|items|fields]; cbn [get_property json_truthy];
      try discriminate;
      try (destruct (_ : bool); discriminate).
    destruct (own_property key_formatted_text fields) as [value|] eqn:Ef;
      cbn [json_truthy]; [|discriminate].
    destruct value as [|b|n|s|items|fields']; cbn [json_truthy];
      try discriminate; try (destruct (_ : bool); discriminate).
    destruct (truthy s) eqn:Et; [|discriminate].
    destruct (starts_with wordError s) eqn:Ew; [discriminate|].
    intros [= <-]. exists properties, fields. repeat split; try assumption.
    intros ->. discriminate.
  - intros (properties & fields & -> & Es & Ef & Ht & Hw).
    unfold summary_text. cbn [get_property]. rewrite Es. cbn [json_truthy get_property].
    rewrite Ef. cbn [json_truthy]. rewrite Hw.
    destruct text; [contradiction|reflexivity].
  - unfold summary_text.
    destruct data as [| | | | |properties]; cbn [get_property json_truthy];
      try discriminate; [now left|].
    destruct (own_property key_summary properties) as [summary|] eqn:Es;
      cbn [json_truthy]; [|discriminate].
    destruct summary as [|b|n|s|items|fields]; cbn [get_property json_truthy];
      try discriminate;
      try (destruct (_ : bool); discriminate).
    destruct (own_property key_formatted_text fields) as [value|] eqn:Ef;
      cbn [json_truthy]; [|discriminate].
    intros H. right. exists properties, fields, value.
    repeat split; try assumption.
    + destruct value as [|b|n|s|items|fields']; cbn [json_truthy] in *;
        try discriminate; try reflexivity;
        try (destruct (_ : bool); [reflexivity|discriminate]).
    + intros text ->. cbn [json_truthy] in H.
      destruct (truthy text); [|discriminate].
      destruct (starts_with wordError text); discriminate.
  - intros [->|(properties & fields & value & -> & Es & Ef & Ht & Hv)];
      [reflexivity|].
    unfold summary_text. cbn [get_property]. rewrite Es. cbn [json_truthy get_property].
    rewrite Ef, Ht.
    destruct value as [|b|n|s|items|fields']; try reflexivity.
    now destruct (Hv s).
Qed.

(** X12: with the status line in shape, the handlers of the answer throw
    nothing, whatever the answer is, and end with the interval stopped and
    no spinner.  When the condition on the answer holds, the text area
    gets what [formatSummary] returns on [formatted_text], the section is
    shown and success is reported; when it fails, the section and the
    text area stay as they were and "Could not generate summary." is
    reported; when it throws, or the request or the parsing failed, they
    stay as they were and "Error processing audio." is reported. *)
Theorem answer_outcomes (a : answer number) (st : popup) :
  status_ready (statusDisplay st) ->
  exists st',
    on_answer number_truthy a st = Completed st'
    /\ stepInterval st' = false
    /\ status_ready (statusDisplay st')
    /\ spinner_count (statusDisplay st') = 0
    /\ match match a with
             | Parsed data => summary_text number_truthy data
             | _ => Thrown
             end with
       | Returned (Some text) =>
         formatSummary (Str text) = Returned (summaryEdit st')
         /\ summarySection st' = classList_remove cls_hidden (summarySection st)
         /\ toastText st' = toastReady
         /\ status_classes (statusDisplay st') = [cls_status; cls_success]
       | Returned None =>
         summaryEdit st' = summaryEdit st
         /\ summarySection st' = summarySection st
         /\ toastText st' = toastNoSummary
         /\ status_classes (statusDisplay st') = [cls_status; cls_error]
       | Thrown =>
         summaryEdit st' = summaryEdit st
         /\ summarySection st' = summarySection st
         /\ toastText st' = toastFailed
         /\ status_classes (statusDisplay st') = [cls_status; cls_error]
       end.
Proof.
  intros H.
  assert (Herr : exists st',
             on_error (clearInterval st) = Completed st'
             /\ stepInterval st' = false
             /\ status_ready (statusDisplay st')
             /\ spinner_count (statusDisplay st') = 0
             /\ summaryEdit st' = summaryEdit st
             /\ summarySection st' = summarySection st
             /\ toastText st' = toastFailed
             /\ status_classes (statusDisplay st') = [cls_status; cls_error]).
  { destruct (on_error_ready (clearInterval st) H) as (d' & -> & Hr & Hc & Hs).
    eexists. split; [reflexivity|]. cbn. repeat split; assumption || apply Hr. }
  destruct a as [| |data]; [exact Herr|exact Herr|].
  unfold on_answer, on_data.
  destruct (summary_text number_truthy data) as [[text|]|].
  - destruct (formatSummary_returns text) as [out Hout].
    unfold showSummarySection. rewrite Hout. cbn [and_then].
    match goal with
    | |- context [popup_showStatus ?m ?t ?s] =>
      destruct (popup_showStatus_ready m t s H) as (d' & -> & Hr & Hc & Hs)
    end.
    cbn [and_then]. eexists. split; [reflexivity|].
    cbn. repeat split; assumption || apply Hr.
  - match goal with
    | |- context [popup_showStatus ?m ?t ?s] =>
      destruct (popup_showStatus_ready m t s H) as (d' & -> & Hr & Hc & Hs)
    end.
    cbn [and_then]. eexists. split; [reflexivity|].
    cbn. repeat split; assumption || apply Hr.
  - exact Herr.
Qed.

(** X13: an answer whose [formatted_text] is whitespace alone passes the
    condition, so success is reported; the text area is left empty, and
    a click on "Post to Slack" is then refused with "Summary is
    empty!". *)
Theorem blank_summary_reported_ready (data : json number) (text : jsstring)
        (st : popup) :
  status_ready (statusDisplay st) ->
  summary_text number_truthy data = Returned (Some text) ->
  (forall c, In c text -> is_space c = true) ->
  exists st',
    on_answer number_truthy (Parsed data) st = Completed st'
    /\ toastText st' = toastReady
    /\ status_classes (statusDisplay st') = [cls_status; cls_success]
    /\ summaryEdit st' = []
    /\ postToSlack st' = (Completed (showToast toastEmpty cls_error st'), false).
Proof.
  intros H Hdata Hblank.
  unfold on_answer, on_data. rewrite Hdata.
  unfold showSummarySection. rewrite (formatSummary_blank text Hblank).
  cbn [and_then].
  match goal with
  | |- context [popup_showStatus ?m ?t ?s] =>
    destruct (popup_showStatus_ready m t s H) as (d' & -> & Hr & Hc & Hs)
  end.
  cbn [and_then]. eexists. split; [reflexivity|].
  cbn. repeat split. exact Hs.
Qed.

End AnswerProperties.

Lemma answer_outcomes_witness :
  exists st',
    on_answer (fun z => negb (Z.eqb z 0)) (Parsed (JObject [(key_summary, JNumber 1%Z)]))
              readyPopup = Completed st'
    /\ toastText st' = toastNoSummary.
Proof.
  assert (H : status_ready (statusDisplay readyPopup)).
  { unfold status_ready. vm_compute. repeat split. lia. }
  destruct (answer_outcomes Z (fun z => negb (Z.eqb z 0))
              (Parsed (JObject [(key_summary, JNumber 1%Z)])) readyPopup H)
    as (st' & E & _ & _ & _ & _ & _ & Ht & _).
  exists st'. split; [exact E|exact Ht].
Defined.

Lemma blank_summary_reported_ready_witness :
  exists st',
    on_answer (fun z => negb (Z.eqb z 0)) (Parsed blankAnswer) readyPopup
    = Completed st'
    /\ summaryEdit st' = []
    /\ postToSlack st' = (Completed (showToast toastEmpty cls_error st'), false).
Proof.
  assert (H : status_ready (statusDisplay readyPopup)).
  { unfold status_ready. vm_compute. repeat split. lia. }
  destruct (blank_summary_reported_ready Z (fun z => negb (Z.eqb z 0))
              blankAnswer [space; nl] readyPopup H eq_refl)
    as (st' & E & _ & _ & He & Hp).
  { intros c [<-|[<-|[]]]; reflexivity. }
  exists st'. repeat split; assumption.
Defined.
